(** * Kite issue repository: deduplication and lifecycle engine

    A shallow embedding of [internal/repository] (the [issueRepository]
    methods) and of [internal/models], over an explicit relational store
    holding the four tables of the migration ([issue_scopes], [issues],
    [links], [related_issues]) with their primary-key, unique and
    foreign-key constraints.

    Code that reads the clock ([time.Now]) or draws an identifier
    ([uuid.New]) reads an oracle carried by the world, so every run is a
    function of the world it starts from.  Logging is not modelled.

    The database is one that answers: a statement fails only when a
    constraint of the schema refuses it, and a query never fails.  The
    errors the source returns for a fault of the database ("failed to
    find issue", "failed to count issues", "failed to find issues") are
    not modelled, and neither are the types of the columns (the
    character varying(20) of [severity], [issue_type] and [state], the
    uuid of the keys): the values stored are taken to fit.

    The webhook handlers of [internal/handlers/http] come last, over the
    service interface they call. *)

From Stdlib Require Import String List Bool ZArith Lia Arith.
From Stdlib Require Import DecimalString DecimalNat.
From Stdlib Require Import Sorted Permutation.
Import ListNotations.
Open Scope string_scope.


(* ------------------------------------------------------------------ *)
(** ** models *)

(** A [time.Time] is counted from Go's zero instant, so that the zero
    value of the type is [0] and [IsZero] tests for it. *)
Definition Time := Z.
Definition IsZero (t : Time) : bool := (t =? 0)%Z.

Definition Severity := string.
Definition SeverityInfo : Severity := "info".
Definition SeverityMinor : Severity := "minor".
Definition SeverityMajor : Severity := "major".
Definition SeverityCritical : Severity := "critical".

Definition IssueType := string.
Definition IssueTypeBuild : IssueType := "build".
Definition IssueTypeTest : IssueType := "test".
Definition IssueTypeRelease : IssueType := "release".
Definition IssueTypeDependency : IssueType := "dependency".
Definition IssueTypePipeline : IssueType := "pipeline".

Definition IssueState := string.
Definition IssueStateActive : IssueState := "ACTIVE".
Definition IssueStateResolved : IssueState := "RESOLVED".

(** A row of [issues]: the columns of [models.Issue]. *)
Record Issue := mkIssue {
  ID : string;
  Title : string;
  Description : string;
  Severity_ : Severity;
  IssueType_ : IssueType;
  State : IssueState;
  Instance : string;
  DetectedAt : Time;
  ResolvedAt : option Time;
  Namespace : string;
  ScopeID : string;
  CreatedAt : Time;
  UpdatedAt : Time
}.

(** A row of [issue_scopes]. *)
Record IssueScope := mkIssueScope {
  Scope_ID : string;
  ResourceType : string;
  ResourceName : string;
  ResourceNamespace : string
}.

(** A row of [related_issues]. *)
Record RelatedIssue := mkRelatedIssue {
  Rel_ID : string;
  SourceID : string;
  TargetID : string
}.

(** A row of [links]. *)
Record Link := mkLink {
  Link_ID : string;
  Link_Title : string;
  URL : string;
  IssueID : string
}.

(** A [models.Issue] value as a query fills it: the row and the
    associations that were preloaded (the others keep their zero value). *)
Record IssueView := mkIssueView {
  iv_Issue : Issue;
  iv_Scope : IssueScope;
  iv_Links : list Link;
  iv_RelatedFrom : list RelatedIssue;
  iv_RelatedTo : list RelatedIssue
}.

Definition zeroScope : IssueScope := mkIssueScope "" "" "" "".

(* ------------------------------------------------------------------ *)
(** ** dto *)

(** Modelled from the spec: [dto.CreateLinkRequest] is not under src/;
    the repository reads its [Title] and [URL]. *)
Record CreateLinkRequest := mkLinkReq {
  lr_Title : string;
  lr_URL : string
}.

(** Modelled from the spec: [dto.ScopeReqBodyOptional] is not under src/;
    it is the scope triple of a report, every field optional, the empty
    string standing for an absent field. *)
Record ScopeReqBodyOptional := mkScopeReq {
  GetResourceType : string;
  GetResourceName : string;
  GetResourceNamespace : string
}.

Definition emptyScopeReq : ScopeReqBodyOptional := mkScopeReq "" "" "".

Definition AsOptional (s : ScopeReqBodyOptional) : ScopeReqBodyOptional := s.

Definition scopeReq_eqb (a b : ScopeReqBodyOptional) : bool :=
  (GetResourceType a =? GetResourceType b)
  && (GetResourceName a =? GetResourceName b)
  && (GetResourceNamespace a =? GetResourceNamespace b).

(** Modelled from the spec: the [dto.IssuePayload] interface is not under
    src/; a report carries title, description, severity, issue type,
    namespace, scope triple, optional links, optional explicit state and
    resolution time.  Each field is what the accessor of the same name
    returns; an absent field is the zero value of its type. *)
Record IssuePayload := mkPayload {
  GetTitle : string;
  GetDescription : string;
  GetSeverity : Severity;
  GetIssueType : IssueType;
  GetNamespace : string;
  GetState : IssueState;
  GetResolvedAt : Time;
  GetLinks : list CreateLinkRequest;
  GetScope : ScopeReqBodyOptional
}.

(* ------------------------------------------------------------------ *)
(** ** The store and the world *)

Record Store := mkStore {
  issues : list Issue;
  issue_scopes : list IssueScope;
  links : list Link;
  related_issues : list RelatedIssue
}.

Definition emptyStore : Store := mkStore [] [] [] [].

(** The world of a call: the database, the clock and the identifier
    source.  [nowAt w n] is what the [n]-th reading of the clock returns,
    [uuidAt w n] the [n]-th identifier drawn. *)
Record World := mkWorld {
  db : Store;
  nowAt : nat -> Time;
  tick : nat;
  uuidAt : nat -> string;
  drawn : nat
}.

Definition with_db (w : World) (s : Store) : World :=
  mkWorld s (nowAt w) (tick w) (uuidAt w) (drawn w).

(** Results: a Go [(value, error)] pair. *)
Inductive res (A : Type) : Type :=
| Ok : A -> res A
| Err : string -> res A.
Arguments Ok {A} _.
Arguments Err {A} _.

(** A computation over the world that may fail.  The world after a failed
    step is the world that step left behind: undoing it is the work of
    [Transaction]. *)
Definition M (A : Type) : Type := World -> World * res A.

Definition ret {A} (a : A) : M A := fun w => (w, Ok a).
Definition fail {A} (e : string) : M A := fun w => (w, Err e).
Definition bind {A B} (m : M A) (k : A -> M B) : M B :=
  fun w => match m w with
           | (w', Ok a) => k a w'
           | (w', Err e) => (w', Err e)
           end.

Notation "x <- m ;; k" := (bind m (fun x => k))
  (at level 61, m at next level, right associativity).
Notation "m ;;; k" := (bind m (fun _ => k))
  (at level 61, right associativity).

(** [fmt.Errorf("ctx: %w", err)]. *)
Definition wrap {A} (ctx : string) (m : M A) : M A :=
  fun w => match m w with
           | (w', Ok a) => (w', Ok a)
           | (w', Err e) => (w', Err (ctx ++ ": " ++ e))
           end.

Definition get_db : M Store := fun w => (w, Ok (db w)).
Definition put_db (s : Store) : M unit := fun w => (with_db w s, Ok tt).

Definition time_Now : M Time :=
  fun w => (mkWorld (db w) (nowAt w) (S (tick w)) (uuidAt w) (drawn w),
            Ok (nowAt w (tick w))).

Definition uuid_New : M string :=
  fun w => (mkWorld (db w) (nowAt w) (tick w) (uuidAt w) (S (drawn w)),
            Ok (uuidAt w (drawn w))).

(** [db.Transaction(func(tx) error {...})]: commit when the body returns
    no error, roll the database back when it returns one.  The clock and
    the identifier source are not rolled back. *)
Definition Transaction {A} (body : M A) : M A :=
  fun w => match body w with
           | (w', Ok a) => (w', Ok a)
           | (w', Err e) => (with_db w' (db w), Err e)
           end.

(* ------------------------------------------------------------------ *)
(** ** Statements on the tables, with the constraints of the schema *)

(** The constraints checked are the keys: primary keys, the unique
    [scope_id] and the foreign keys.  The types of the columns are not
    checked. *)

Definition has_issue (s : Store) (id : string) : bool :=
  existsb (fun i => ID i =? id) (issues s).
Definition has_scope (s : Store) (id : string) : bool :=
  existsb (fun sc => Scope_ID sc =? id) (issue_scopes s).
Definition has_link (s : Store) (id : string) : bool :=
  existsb (fun l => Link_ID l =? id) (links s).
Definition has_related (s : Store) (id : string) : bool :=
  existsb (fun r => Rel_ID r =? id) (related_issues s).

(** INSERT INTO issue_scopes: primary key. *)
Definition insert_scope (sc : IssueScope) : M unit :=
  s <- get_db ;;
  if has_scope s (Scope_ID sc)
  then fail "duplicate key value violates unique constraint issue_scopes_pkey"
  else put_db (mkStore (issues s) (issue_scopes s ++ [sc]) (links s)
                       (related_issues s)).

(** INSERT INTO issues: primary key, [uni_issues_scope_id],
    [fk_issue_scopes_issue]. *)
Definition insert_issue (i : Issue) : M unit :=
  s <- get_db ;;
  if has_issue s (ID i)
  then fail "duplicate key value violates unique constraint issues_pkey"
  else if existsb (fun j => ScopeID j =? ScopeID i) (issues s)
  then fail "duplicate key value violates unique constraint uni_issues_scope_id"
  else if negb (has_scope s (ScopeID i))
  then fail "violates foreign key constraint fk_issue_scopes_issue"
  else put_db (mkStore (issues s ++ [i]) (issue_scopes s) (links s)
                       (related_issues s)).

(** INSERT INTO links: primary key, [fk_issues_links]. *)
Definition insert_link (l : Link) : M unit :=
  s <- get_db ;;
  if has_link s (Link_ID l)
  then fail "duplicate key value violates unique constraint links_pkey"
  else if negb (has_issue s (IssueID l))
  then fail "violates foreign key constraint fk_issues_links"
  else put_db (mkStore (issues s) (issue_scopes s) (links s ++ [l])
                       (related_issues s)).

(** INSERT INTO related_issues: primary key, [fk_issues_related_from],
    [fk_issues_related_to]. *)
Definition insert_related (r : RelatedIssue) : M unit :=
  s <- get_db ;;
  if has_related s (Rel_ID r)
  then fail "duplicate key value violates unique constraint related_issues_pkey"
  else if negb (has_issue s (SourceID r))
  then fail "violates foreign key constraint fk_issues_related_from"
  else if negb (has_issue s (TargetID r))
  then fail "violates foreign key constraint fk_issues_related_to"
  else put_db (mkStore (issues s) (issue_scopes s) (links s)
                       (related_issues s ++ [r])).

(** DELETE FROM related_issues WHERE p; the result is [RowsAffected]. *)
Definition delete_related (p : RelatedIssue -> bool) : M Z :=
  s <- get_db ;;
  put_db (mkStore (issues s) (issue_scopes s) (links s)
                  (filter (fun r => negb (p r)) (related_issues s))) ;;;
  ret (Z.of_nat (length (filter p (related_issues s)))).

(** DELETE FROM links WHERE issue_id = id. *)
Definition delete_links_of (id : string) : M unit :=
  s <- get_db ;;
  put_db (mkStore (issues s) (issue_scopes s)
                  (filter (fun l => negb (IssueID l =? id)) (links s))
                  (related_issues s)).

(** DELETE FROM issues WHERE id = id: refused (ON DELETE NO ACTION) while
    a link or a relationship still references a deleted row. *)
Definition delete_issue (id : string) : M unit :=
  s <- get_db ;;
  if has_issue s id && existsb (fun l => IssueID l =? id) (links s)
  then fail "violates foreign key constraint fk_issues_links"
  else if has_issue s id && existsb (fun r => SourceID r =? id) (related_issues s)
  then fail "violates foreign key constraint fk_issues_related_from"
  else if has_issue s id && existsb (fun r => TargetID r =? id) (related_issues s)
  then fail "violates foreign key constraint fk_issues_related_to"
  else put_db (mkStore (filter (fun i => negb (ID i =? id)) (issues s))
                       (issue_scopes s) (links s) (related_issues s)).

(** DELETE FROM issue_scopes WHERE id = id: refused while an issue still
    references a deleted row. *)
Definition delete_scope (id : string) : M unit :=
  s <- get_db ;;
  if has_scope s id && existsb (fun i => ScopeID i =? id) (issues s)
  then fail "violates foreign key constraint fk_issue_scopes_issue"
  else put_db (mkStore (issues s)
                       (filter (fun sc => negb (Scope_ID sc =? id)) (issue_scopes s))
                       (links s) (related_issues s)).

(** issues JOIN issue_scopes ON issues.scope_id = issue_scopes.id *)
Definition join_scopes (s : Store) : list (Issue * IssueScope) :=
  flat_map (fun i => map (fun sc => (i, sc))
                         (filter (fun sc => ScopeID i =? Scope_ID sc)
                                 (issue_scopes s)))
           (issues s).

(** [First]: the row with the least primary key (ORDER BY issues.id
    LIMIT 1); identifiers compare as their canonical text. *)
Fixpoint First (rows : list Issue) : option Issue :=
  match rows with
  | [] => None
  | i :: rest =>
      match First rest with
      | None => Some i
      | Some j => if String.leb (ID i) (ID j) then Some i else Some j
      end
  end.

Definition links_of (s : Store) (id : string) : list Link :=
  filter (fun l => IssueID l =? id) (links s).

Definition scope_by_id (s : Store) (id : string) : IssueScope :=
  match find (fun sc => Scope_ID sc =? id) (issue_scopes s) with
  | Some sc => sc
  | None => zeroScope
  end.

(* ------------------------------------------------------------------ *)
(** ** gorm: creating and updating rows *)

(** [BeforeCreate] hooks: set a UUID if none is provided. *)
Definition BeforeCreate_Issue (i : Issue) : M Issue :=
  if ID i =? "" then
    u <- uuid_New ;;
    ret (mkIssue u (Title i) (Description i) (Severity_ i) (IssueType_ i)
                 (State i) (Instance i) (DetectedAt i) (ResolvedAt i)
                 (Namespace i) (ScopeID i) (CreatedAt i) (UpdatedAt i))
  else ret i.

Definition BeforeCreate_IssueScope (sc : IssueScope) : M IssueScope :=
  if Scope_ID sc =? "" then
    u <- uuid_New ;;
    ret (mkIssueScope u (ResourceType sc) (ResourceName sc) (ResourceNamespace sc))
  else ret sc.

Definition BeforeCreate_RelatedIssue (r : RelatedIssue) : M RelatedIssue :=
  if Rel_ID r =? "" then
    u <- uuid_New ;;
    ret (mkRelatedIssue u (SourceID r) (TargetID r))
  else ret r.

Definition BeforeCreate_Link (l : Link) : M Link :=
  if Link_ID l =? "" then
    u <- uuid_New ;;
    ret (mkLink u (Link_Title l) (URL l) (IssueID l))
  else ret l.

(** [tx.Create(&link)] *)
Definition Create_Link (l : Link) : M Link :=
  l' <- BeforeCreate_Link l ;;
  insert_link l' ;;;
  ret l'.

(** [tx.Create(&relation)] *)
Definition Create_RelatedIssue (r : RelatedIssue) : M RelatedIssue :=
  r' <- BeforeCreate_RelatedIssue r ;;
  insert_related r' ;;;
  ret r'.

Fixpoint Create_Links (issueID : string) (ls : list Link) : M unit :=
  match ls with
  | [] => ret tt
  | l :: rest =>
      Create_Link (mkLink (Link_ID l) (Link_Title l) (URL l) issueID) ;;;
      Create_Links issueID rest
  end.

(** [tx.Create(&newIssue)] on an issue that carries its scope and its
    links: the issue's hook runs, the scope it belongs to is saved first
    and its key copied into [ScopeID], the row is inserted with its
    creation and update times, then the links it has are saved under its
    key.  A drawn identifier that is already a key of its table is
    reported as the violation of the primary key; the statements about
    creation assume identifiers that are new. *)
Definition Create_Issue (i : Issue) (sc : IssueScope) (ls : list Link) : M Issue :=
  i1 <- BeforeCreate_Issue i ;;
  sc' <- BeforeCreate_IssueScope sc ;;
  insert_scope sc' ;;;
  t <- time_Now ;;
  let i2 := mkIssue (ID i1) (Title i1) (Description i1) (Severity_ i1)
                    (IssueType_ i1) (State i1) (Instance i1) (DetectedAt i1)
                    (ResolvedAt i1) (Namespace i1) (Scope_ID sc')
                    (if IsZero (CreatedAt i1) then t else CreatedAt i1)
                    (if IsZero (UpdatedAt i1) then t else UpdatedAt i1) in
  insert_issue i2 ;;;
  Create_Links (ID i2) ls ;;;
  ret i2.

(** The [updates] map of [updateIssueInTx] and of [ResolveByScope]: a
    column is set when its key is present. *)
Record IssueUpdates := mkUpdates {
  u_title : option string;
  u_description : option string;
  u_severity : option Severity;
  u_issue_type : option IssueType;
  u_namespace : option string;
  u_updated_at : option Time;
  u_state : option IssueState;
  u_resolved_at : option Time
}.

Definition or_keep {A} (o : option A) (a : A) : A :=
  match o with Some x => x | None => a end.

Definition apply_updates (u : IssueUpdates) (i : Issue) : Issue :=
  mkIssue (ID i)
          (or_keep (u_title u) (Title i))
          (or_keep (u_description u) (Description i))
          (or_keep (u_severity u) (Severity_ i))
          (or_keep (u_issue_type u) (IssueType_ i))
          (or_keep (u_state u) (State i))
          (Instance i)
          (DetectedAt i)
          (match u_resolved_at u with Some t => Some t | None => ResolvedAt i end)
          (or_keep (u_namespace u) (Namespace i))
          (ScopeID i)
          (CreatedAt i)
          (or_keep (u_updated_at u) (UpdatedAt i)).

(** UPDATE issues SET ... WHERE p; the result is [RowsAffected]. *)
Definition update_issues (p : Issue -> bool) (u : IssueUpdates) : M Z :=
  s <- get_db ;;
  put_db (mkStore (map (fun i => if p i then apply_updates u i else i) (issues s))
                  (issue_scopes s) (links s) (related_issues s)) ;;;
  ret (Z.of_nat (length (filter p (issues s)))).

(** [Updates(req)] with a struct: only its non-zero fields are written. *)
Definition apply_scope_updates (req : ScopeReqBodyOptional) (sc : IssueScope) : IssueScope :=
  mkIssueScope (Scope_ID sc)
    (if GetResourceType req =? "" then ResourceType sc else GetResourceType req)
    (if GetResourceName req =? "" then ResourceName sc else GetResourceName req)
    (if GetResourceNamespace req =? "" then ResourceNamespace sc
     else GetResourceNamespace req).

Definition update_scopes (p : IssueScope -> bool) (req : ScopeReqBodyOptional) : M unit :=
  s <- get_db ;;
  put_db (mkStore (issues s)
                  (map (fun sc => if p sc then apply_scope_updates req sc else sc)
                       (issue_scopes s))
                  (links s) (related_issues s)).

(* ------------------------------------------------------------------ *)
(** ** repository *)

(** The WHERE clauses of [findDuplicateInTx] on a joined row. *)
Definition duplicate_where (req : IssuePayload) (p : Issue * IssueScope) : bool :=
  ((Namespace (fst p) =? GetNamespace req)
   && (IssueType_ (fst p) =? GetIssueType req)
   && ((State (fst p) =? IssueStateActive) || (State (fst p) =? IssueStateResolved)))
  && ((ResourceType (snd p) =? GetResourceType (GetScope req))
      && (ResourceName (snd p) =? GetResourceName (GetScope req))
      && (ResourceNamespace (snd p) =? GetNamespace req)).

(** [findDuplicateInTx]: the first issue matching the report, with its
    links preloaded; [None] when no record is found. *)
Definition findDuplicateInTx (req : IssuePayload) : M (option IssueView) :=
  s <- get_db ;;
  match First (map fst (filter (duplicate_where req) (join_scopes s))) with
  | None => ret None
  | Some i => ret (Some (mkIssueView i zeroScope (links_of s (ID i)) [] []))
  end.

Definition FindDuplicate (req : IssuePayload) : M (option IssueView) :=
  Transaction (findDuplicateInTx req).

(** [FindByID]: the issue with its scope, links and both relationship
    directions loaded; [None] when no record is found.  The counterpart
    issues that the query nests inside each relationship are left out.
    The query finds the record or finds none: the error the source
    returns for any other failure of the database ("failed to find
    issue") is not modelled. *)
Definition FindByID (id : string) : M (option IssueView) :=
  s <- get_db ;;
  match First (filter (fun i => ID i =? id) (issues s)) with
  | None => ret None
  | Some i =>
      ret (Some (mkIssueView i (scope_by_id s (ScopeID i)) (links_of s (ID i))
                   (filter (fun r => SourceID r =? ID i) (related_issues s))
                   (filter (fun r => TargetID r =? ID i) (related_issues s))))
  end.

Definition createNewIssueInTx (req : IssuePayload) : M Issue :=
  now <- time_Now ;;
  let state := if GetState req =? "" then IssueStateActive else GetState req in
  let resourceNamespace :=
    if GetResourceNamespace (GetScope req) =? "" then GetNamespace req
    else GetResourceNamespace (GetScope req) in
  let newIssue :=
    mkIssue "" (GetTitle req) (GetDescription req) (GetSeverity req)
            (GetIssueType req) state "" now None (GetNamespace req) "" 0%Z 0%Z in
  let scope :=
    mkIssueScope "" (GetResourceType (GetScope req))
                 (GetResourceName (GetScope req)) resourceNamespace in
  let newLinks :=
    map (fun linkReq => mkLink "" (lr_Title linkReq) (lr_URL linkReq) "")
        (GetLinks req) in
  wrap "failed to create issue" (Create_Issue newIssue scope newLinks).

Fixpoint replaceIssueLinks_create (issueID : string) (ls : list CreateLinkRequest) : M unit :=
  match ls with
  | [] => ret tt
  | linkReq :: rest =>
      wrap "failed to create link"
           (Create_Link (mkLink "" (lr_Title linkReq) (lr_URL linkReq) issueID)) ;;;
      replaceIssueLinks_create issueID rest
  end.

Definition replaceIssueLinks (issueID : string) (ls : list CreateLinkRequest) : M unit :=
  wrap "failed to delete old links" (delete_links_of issueID) ;;;
  replaceIssueLinks_create issueID ls.

Definition updateIssueScopeInTx (scopeID : string) (req : ScopeReqBodyOptional) : M unit :=
  update_scopes (fun sc => Scope_ID sc =? scopeID) req.

Definition opt_nonempty (s : string) : option string :=
  if s =? "" then None else Some s.

Definition updateIssueInTx (existingIssue : Issue) (req : IssuePayload) : M unit :=
  t1 <- time_Now ;;
  resolved_at <-
    (if GetState req =? "" then ret None
     else if (GetState req =? IssueStateResolved)
             && negb (State existingIssue =? IssueStateResolved)
     then (t2 <- time_Now ;; ret (Some t2))
     else if negb (IsZero (GetResolvedAt req)) then ret (Some (GetResolvedAt req))
     else ret None) ;;
  let updates :=
    mkUpdates (opt_nonempty (GetTitle req))
              (opt_nonempty (GetDescription req))
              (opt_nonempty (GetSeverity req))
              (opt_nonempty (GetIssueType req))
              (opt_nonempty (GetNamespace req))
              (Some t1)
              (opt_nonempty (GetState req))
              resolved_at in
  wrap "failed to update issue"
       (update_issues (fun i => ID i =? ID existingIssue) updates) ;;;
  (if negb (length (GetLinks req) =? 0)%nat
   then wrap "failed to replace links for issue"
             (replaceIssueLinks (ID existingIssue) (GetLinks req))
   else ret tt) ;;;
  (if negb (scopeReq_eqb (GetScope req) emptyScopeReq)
   then updateIssueScopeInTx (ScopeID existingIssue) (AsOptional (GetScope req))
   else ret tt).

Definition CreateOrUpdate (req : IssuePayload) : M (option IssueView) :=
  issue <- Transaction
    (existingIssue <- wrap "failed to check for existing issue"
                           (findDuplicateInTx req) ;;
     match existingIssue with
     | None =>
         newIssue <- wrap "failed to create issue" (createNewIssueInTx req) ;;
         ret newIssue
     | Some e =>
         updateIssueInTx (iv_Issue e) req ;;;
         ret (iv_Issue e)
     end) ;;
  FindByID (ID issue).

Definition Create (req : IssuePayload) : M (option IssueView) :=
  issue <- Transaction
    (existingIssue <- wrap "failed to check for duplicates"
                           (findDuplicateInTx req) ;;
     match existingIssue with
     | Some e =>
         let updateReq :=
           mkPayload (GetTitle req) (GetDescription req) (GetSeverity req)
                     (GetIssueType req) (GetNamespace req) (GetState req)
                     0%Z [] (AsOptional (GetScope req)) in
         updateIssueInTx (iv_Issue e) updateReq ;;;
         ret (iv_Issue e)
     | None => createNewIssueInTx req
     end) ;;
  FindByID (ID issue).

Definition Update (id : string) (req : IssuePayload) : M (option IssueView) :=
  existingIssue <- FindByID id ;;
  match existingIssue with
  | None => fail ("issue with ID " ++ id ++ " not found")
  | Some e =>
      Transaction (updateIssueInTx (iv_Issue e) req) ;;;
      FindByID id
  end.

Definition Delete (id : string) : M unit :=
  issue <- FindByID id ;;
  match issue with
  | None => fail ("issue with ID " ++ id ++ " not found")
  | Some e =>
      Transaction
        (wrap "failed to delete related issues"
              (delete_related (fun r => (SourceID r =? id) || (TargetID r =? id))) ;;;
         wrap "failed to delete links" (delete_links_of id) ;;;
         wrap "failed to delete issue" (delete_issue id) ;;;
         wrap "failed to delete issue scope" (delete_scope (ScopeID (iv_Issue e))))
  end.




Definition resolve_where (resourceType resourceName namespace : string)
           (p : Issue * IssueScope) : bool :=
  ((State (fst p) =? IssueStateActive) && (Namespace (fst p) =? namespace))
  && ((ResourceType (snd p) =? resourceType)
      && (ResourceName (snd p) =? resourceName)).

Definition ResolveByScope (resourceType resourceName namespace : string) : M Z :=
  now <- time_Now ;;
  s <- get_db ;;
  let ids := map (fun p => ID (fst p))
                 (filter (resolve_where resourceType resourceName namespace)
                         (join_scopes s)) in
  if (length ids =? 0)%nat then ret 0%Z
  else
    wrap "failed to resolve issues"
         (update_issues (fun i => existsb (String.eqb (ID i)) ids)
            (mkUpdates None None None None None (Some now)
                       (Some IssueStateResolved) (Some now))).

Definition pair_where (sourceID targetID : string) (r : RelatedIssue) : bool :=
  ((SourceID r =? sourceID) && (TargetID r =? targetID))
  || ((SourceID r =? targetID) && (TargetID r =? sourceID)).

Definition AddRelatedIssue (sourceID targetID : string) : M unit :=
  source <- FindByID sourceID ;;
  target <- FindByID targetID ;;
  match source, target with
  | Some _, Some _ =>
      s <- get_db ;;
      match filter (pair_where sourceID targetID) (related_issues s) with
      | _ :: _ => fail "relationship already exists"
      | [] =>
          wrap "failed to create relationship"
               (Create_RelatedIssue (mkRelatedIssue "" sourceID targetID)) ;;;
          ret tt
      end
  | _, _ => fail "one or both issues not found"
  end.

Definition RemoveRelatedIssue (sourceID targetID : string) : M unit :=
  n <- wrap "failed to remove relationship"
            (delete_related (pair_where sourceID targetID)) ;;
  if (n =? 0)%Z then fail "relationship not found" else ret tt.

(* ------------------------------------------------------------------ *)
(** ** Observing a call *)

Definition store_after {A} (m : M A) (w : World) : Store := db (fst (m w)).
Definition result_of {A} (m : M A) (w : World) : res A := snd (m w).

(** The two rows are joined by an edge, whatever its direction. *)
Definition edge_between (a b : string) (r : RelatedIssue) : Prop :=
  (SourceID r = a /\ TargetID r = b) \/ (SourceID r = b /\ TargetID r = a).

(** The constraints of the schema, as an invariant of the store. *)
Record wf_store (s : Store) : Prop := mkWf {
  wf_issue_pk : NoDup (map ID (issues s));
  wf_scope_pk : NoDup (map Scope_ID (issue_scopes s));
  wf_link_pk : NoDup (map Link_ID (links s));
  wf_related_pk : NoDup (map Rel_ID (related_issues s));
  wf_scope_unique : NoDup (map ScopeID (issues s));
  wf_scope_fk : forall i, In i (issues s) -> has_scope s (ScopeID i) = true;
  wf_link_fk : forall l, In l (links s) -> has_issue s (IssueID l) = true;
  wf_related_fk : forall r, In r (related_issues s) ->
      has_issue s (SourceID r) = true /\ has_issue s (TargetID r) = true
}.


(** The store without the issue [id], its scope [scopeID], its links and
    the edges it is an end of. *)
Definition store_without (s : Store) (id scopeID : string) : Store :=
  mkStore (filter (fun j => negb (ID j =? id)) (issues s))
          (filter (fun sc => negb (Scope_ID sc =? scopeID)) (issue_scopes s))
          (filter (fun l => negb (IssueID l =? id)) (links s))
          (filter (fun r => negb ((SourceID r =? id) || (TargetID r =? id)))
                  (related_issues s)).

(** The issue is ACTIVE, lives in [namespace], and its scope row has the
    given resource type and name. *)
Definition active_in_scope (s : Store) (resourceType resourceName namespace : string)
           (i : Issue) : bool :=
  (State i =? IssueStateActive) && (Namespace i =? namespace)
  && existsb (fun sc => (Scope_ID sc =? ScopeID i)
                        && (ResourceType sc =? resourceType)
                        && (ResourceName sc =? resourceName))
             (issue_scopes s).

(** The issue, resolved at [now]: only its state, resolution time and
    update time differ. *)
Definition resolved_at (now : Time) (i : Issue) : Issue :=
  mkIssue (ID i) (Title i) (Description i) (Severity_ i) (IssueType_ i)
          IssueStateResolved (Instance i) (DetectedAt i) (Some now)
          (Namespace i) (ScopeID i) (CreatedAt i) now.

(** The next [n] identifiers the world will hand out. *)
Definition drawn_ids (w : World) (n : nat) : list string :=
  map (uuidAt w) (seq (drawn w) n).

(** The next [n] identifiers are distinct and no stored link has one:
    what a random UUID is taken to be. *)
Definition fresh_links (w : World) (n : nat) : Prop :=
  NoDup (drawn_ids w n)
  /\ Forall (fun u => has_link (db w) u = false) (drawn_ids w n).

(** The link rows made of the requested links, owned by [issueID], keyed
    by the identifiers [uuid from], [uuid (from + 1)], ... *)
Fixpoint new_links (uuid : nat -> string) (from : nat) (issueID : string)
         (ls : list CreateLinkRequest) : list Link :=
  match ls with
  | [] => []
  | l :: rest =>
      mkLink (uuid from) (lr_Title l) (lr_URL l) issueID
      :: new_links uuid (S from) issueID rest
  end.

(** The report is a transition into RESOLVED for the issue. *)
Definition resolves (existingIssue : Issue) (req : IssuePayload) : bool :=
  (GetState req =? IssueStateResolved)
  && negb (State existingIssue =? IssueStateResolved).

(** The issue with only its title and update time changed. *)
Definition retitled (title : string) (now : Time) (i : Issue) : Issue :=
  mkIssue (ID i) title (Description i) (Severity_ i) (IssueType_ i) (State i)
          (Instance i) (DetectedAt i) (ResolvedAt i) (Namespace i) (ScopeID i)
          (CreatedAt i) now.

(** An update that supplies a title and nothing else. *)
Definition title_only (title : string) : IssuePayload :=
  mkPayload title "" "" "" "" "" 0%Z [] emptyScopeReq.

(** The [updates] map [updateIssueInTx] builds for a report, [t1] and
    [t2] being the first and the second reading of the clock. *)
Definition issue_updates (existingIssue : Issue) (req : IssuePayload)
           (t1 t2 : Time) : IssueUpdates :=
  mkUpdates (opt_nonempty (GetTitle req)) (opt_nonempty (GetDescription req))
            (opt_nonempty (GetSeverity req)) (opt_nonempty (GetIssueType req))
            (opt_nonempty (GetNamespace req)) (Some t1)
            (opt_nonempty (GetState req))
            (if GetState req =? "" then None
             else if resolves existingIssue req then Some t2
             else if IsZero (GetResolvedAt req) then None
             else Some (GetResolvedAt req)).

(* ------------------------------------------------------------------ *)
(** ** The dedup key, and concurrent callers *)

(** The stored issue, with its scope, has the dedup key of the report:
    namespace, issue type, and the scope's resource type, resource name
    and resource namespace. *)
Definition same_dedup_key (req : IssuePayload) (i : Issue) (sc : IssueScope) : Prop :=
  Namespace i = GetNamespace req
  /\ IssueType_ i = GetIssueType req
  /\ ResourceType sc = GetResourceType (GetScope req)
  /\ ResourceName sc = GetResourceName (GetScope req)
  /\ ResourceNamespace sc = GetResourceNamespace (GetScope req).

(** The issues of the store that have the dedup key of the report. *)
Definition rows_with_key (s : Store) (req : IssuePayload) : list Issue :=
  map fst
      (filter (fun p =>
                 (Namespace (fst p) =? GetNamespace req)
                 && (IssueType_ (fst p) =? GetIssueType req)
                 && (ResourceType (snd p) =? GetResourceType (GetScope req))
                 && (ResourceName (snd p) =? GetResourceName (GetScope req))
                 && (ResourceNamespace (snd p)
                     =? GetResourceNamespace (GetScope req)))
              (join_scopes s)).

(** A caller of [CreateOrUpdate], seen from the database.  The resolver's
    SELECT ... FOR UPDATE locks the rows it returns until the transaction
    ends, so a caller that finds a duplicate runs the rest of its
    transaction with no other caller in between.  A caller that finds none
    holds no lock: other callers may run between its SELECT and its
    INSERT, and they do not see a row that is not committed yet. *)
Inductive Caller :=
| Calling (req : IssuePayload)
| SawNoDuplicate (req : IssuePayload)
| Returned (r : res (option IssueView)).

Definition step_caller (c : Caller) (w : World) : World * Caller :=
  match c with
  | Calling req =>
      match wrap "failed to check for existing issue" (findDuplicateInTx req) w with
      | (w1, Ok None) => (w1, SawNoDuplicate req)
      | (w1, Ok (Some e)) =>
          let (w2, r) :=
            (issue <- Transaction (updateIssueInTx (iv_Issue e) req ;;;
                                   ret (iv_Issue e)) ;;
             FindByID (ID issue)) w1 in
          (w2, Returned r)
      | (w1, Err err) => (w1, Returned (Err err))
      end
  | SawNoDuplicate req =>
      let (w2, r) :=
        (issue <- Transaction (wrap "failed to create issue"
                                    (createNewIssueInTx req)) ;;
         FindByID (ID issue)) w in
      (w2, Returned r)
  | Returned r => (w, Returned r)
  end.

(** The [n]-th caller takes its next step. *)
Fixpoint step_nth (n : nat) (cs : list Caller) (w : World) : World * list Caller :=
  match cs with
  | [] => (w, [])
  | c :: rest =>
      match n with
      | O => let (w', c') := step_caller c w in (w', c' :: rest)
      | S m => let (w', rest') := step_nth m rest w in (w', c :: rest')
      end
  end.

(** An interleaving: which caller moves at each step. *)
Fixpoint run_schedule (schedule : list nat) (cs : list Caller) (w : World)
  : World * list Caller :=
  match schedule with
  | [] => (w, cs)
  | n :: rest =>
      let (w', cs') := step_nth n cs w in run_schedule rest cs' w'
  end.

(** The rows [createNewIssueInTx] inserts for a report: [u0] and [u1] are
    the identifiers drawn for the issue and its scope, [t0] and [t1] the
    two readings of the clock. *)
Definition created_issue (req : IssuePayload) (u0 u1 : string) (t0 t1 : Time) : Issue :=
  mkIssue u0 (GetTitle req) (GetDescription req) (GetSeverity req)
          (GetIssueType req)
          (if GetState req =? "" then IssueStateActive else GetState req)
          "" t0 None (GetNamespace req) u1 t1 t1.

Definition created_scope (req : IssuePayload) (u1 : string) : IssueScope :=
  mkIssueScope u1 (GetResourceType (GetScope req)) (GetResourceName (GetScope req))
               (if GetResourceNamespace (GetScope req) =? "" then GetNamespace req
                else GetResourceNamespace (GetScope req)).

(** Every identifier still to be drawn is new to every table and is drawn
    once: what random UUIDs are taken to be. *)
Record oracle_fresh (w : World) : Prop := mkFresh {
  fresh_inj : forall n m, drawn w <= n -> drawn w <= m ->
                          uuidAt w n = uuidAt w m -> n = m;
  fresh_issue : forall n, drawn w <= n -> has_issue (db w) (uuidAt w n) = false;
  fresh_scope : forall n, drawn w <= n -> has_scope (db w) (uuidAt w n) = false;
  fresh_scope_ref : forall n, drawn w <= n ->
      existsb (fun j => ScopeID j =? uuidAt w n) (issues (db w)) = false;
  fresh_link : forall n, drawn w <= n -> has_link (db w) (uuidAt w n) = false
}.

(** The report is about a resource of its own namespace (its scope names
    no resource namespace, or names the report's), and the state it
    carries, if any, is one of the two states. *)
Definition own_namespace (req : IssuePayload) : Prop :=
  GetResourceNamespace (GetScope req) = ""
  \/ GetResourceNamespace (GetScope req) = GetNamespace req.

Definition valid_state (req : IssuePayload) : Prop :=
  GetState req = "" \/ GetState req = IssueStateActive
  \/ GetState req = IssueStateResolved.

(** Two reports have the same dedup key. *)
Definition same_key (a b : IssuePayload) : Prop :=
  GetNamespace a = GetNamespace b
  /\ GetIssueType a = GetIssueType b
  /\ GetScope a = GetScope b.

(** What every call relies on and leaves true: the keys of issues and of
    scopes are distinct, and the identifiers still to be drawn are new. *)
Record keys_ok (w : World) : Prop := mkKeysOk {
  ok_issue_pk : NoDup (map ID (issues (db w)));
  ok_scope_pk : NoDup (map Scope_ID (issue_scopes (db w)));
  ok_fresh : oracle_fresh w
}.

(** The calls of [CreateOrUpdate] on a sequence of reports, one after the
    other: the world at the end and the results in order. *)
Fixpoint CreateOrUpdate_all (reqs : list IssuePayload) (w : World)
  : World * list (res (option IssueView)) :=
  match reqs with
  | [] => (w, [])
  | req :: rest =>
      let (w1, r) := CreateOrUpdate req w in
      let (w2, rs) := CreateOrUpdate_all rest w1 in
      (w2, r :: rs)
  end.

(* ------------------------------------------------------------------ *)
(** ** Concrete worlds, for the examples *)

Definition example_clock (n : nat) : Time := (1000 + Z.of_nat n)%Z.

Definition example_uuid (n : nat) : string :=
  nth n ["00000000-0000-4000-8000-000000000001";
         "00000000-0000-4000-8000-000000000002";
         "00000000-0000-4000-8000-000000000003";
         "00000000-0000-4000-8000-000000000004";
         "00000000-0000-4000-8000-000000000005";
         "00000000-0000-4000-8000-000000000006";
         "00000000-0000-4000-8000-000000000007";
         "00000000-0000-4000-8000-000000000008"]
      "00000000-0000-4000-8000-0000000000ff".

Definition world_of (s : Store) : World :=
  mkWorld s example_clock 0 example_uuid 0.

Definition id_a : string := "aaaaaaaa-0000-4000-8000-000000000001".
Definition id_b : string := "bbbbbbbb-0000-4000-8000-000000000002".
Definition scope_a : string := "aaaaaaaa-0000-4000-8000-0000000000a0".
Definition scope_b : string := "bbbbbbbb-0000-4000-8000-0000000000b0".

Definition issue_a : Issue :=
  mkIssue id_a "Build failed" "first report" SeverityMajor IssueTypePipeline
          IssueStateActive "" 10%Z None "team-a" scope_a 10%Z 10%Z.

Definition issue_b : Issue :=
  mkIssue id_b "Release failed" "old report" SeverityMinor IssueTypeRelease
          IssueStateResolved "" 20%Z (Some 30%Z) "team-a" scope_b 20%Z 30%Z.

(** Two issues of one namespace, each with its scope; the first has two
    links and the two are related. *)
Definition store_ab : Store :=
  mkStore [issue_a; issue_b]
          [mkIssueScope scope_a "pipelinerun" "build-1" "team-a";
           mkIssueScope scope_b "release" "rel-1" "team-a"]
          [mkLink "11111111-0000-4000-8000-000000000001" "logs" "https://logs/1" id_a;
           mkLink "11111111-0000-4000-8000-000000000002" "run" "https://run/1" id_a;
           mkLink "11111111-0000-4000-8000-000000000003" "rel" "https://rel/1" id_b]
          [mkRelatedIssue "22222222-0000-4000-8000-000000000001" id_a id_b].

(** The same two issues, unrelated. *)
Definition store_ab_unrelated : Store :=
  mkStore (issues store_ab) (issue_scopes store_ab) (links store_ab) [].

(** An update that supplies one link and nothing else. *)
Definition links_only_req : IssuePayload :=
  mkPayload "" "" "" "" "" "" 0%Z [mkLinkReq "new logs" "https://logs/2"]
            emptyScopeReq.

(** A report, with no state of its own, whose key is that of [issue_b]. *)
Definition report_b : IssuePayload :=
  mkPayload "Release failed again" "second report" SeverityMajor
            IssueTypeRelease "team-a" "" 0%Z []
            (mkScopeReq "release" "rel-1" "team-a").

(** An update that resolves an issue and names the time it was resolved. *)
Definition resolve_at_500 : IssuePayload :=
  mkPayload "" "" "" "" "" IssueStateResolved 500%Z [] emptyScopeReq.

(** A store the schema would refuse, in which a second issue refers to
    the scope of [issue_a]: the scope cannot be deleted with [issue_a]. *)
Definition issue_a_twin : Issue :=
  mkIssue "cccccccc-0000-4000-8000-000000000003" "Build failed" "twin"
          SeverityMajor IssueTypePipeline IssueStateActive "" 10%Z None
          "team-a" scope_a 10%Z 10%Z.

Definition store_shared_scope : Store :=
  mkStore [issue_a; issue_a_twin]
          [mkIssueScope scope_a "pipelinerun" "build-1" "team-a"]
          [mkLink "11111111-0000-4000-8000-000000000001" "logs" "https://logs/1" id_a]
          [].

(** An update that names a resolution time and supplies no state. *)
Definition time_only_req : IssuePayload :=
  mkPayload "" "" "" "" "" "" 500%Z [] emptyScopeReq.

(** A store whose one issue is in namespace team-a about a pipeline run
    that lives in namespace team-b. *)
Definition id_c : string := "cccccccc-0000-4000-8000-000000000003".
Definition scope_c : string := "cccccccc-0000-4000-8000-0000000000c0".

Definition issue_c : Issue :=
  mkIssue id_c "Build failed" "first report" SeverityMajor IssueTypePipeline
          IssueStateActive "" 10%Z None "team-a" scope_c 10%Z 10%Z.

Definition scope_row_c : IssueScope :=
  mkIssueScope scope_c "pipelinerun" "build-1" "team-b".

Definition scope_row_a : IssueScope :=
  mkIssueScope scope_a "pipelinerun" "build-1" "team-a".

Definition store_cross : Store := mkStore [issue_c] [scope_row_c] [] [].

Definition scope_row_b : IssueScope :=
  mkIssueScope scope_b "release" "rel-1" "team-a".

(** The same issue about the pipeline run of team-b, resolved. *)
Definition issue_c_resolved : Issue :=
  mkIssue id_c "Build failed" "first report" SeverityMajor IssueTypePipeline
          IssueStateResolved "" 10%Z (Some 40%Z) "team-a" scope_c 10%Z 40%Z.

Definition store_cross_resolved : Store :=
  mkStore [issue_c_resolved] [scope_row_c] [] [].

(** A report from namespace team-a about the pipeline run build-1 of
    namespace team-b. *)
Definition report_cross : IssuePayload :=
  mkPayload "Build failed" "again" SeverityMajor IssueTypePipeline "team-a"
            "" 0%Z [] (mkScopeReq "pipelinerun" "build-1" "team-b").

(** A first report about a pipeline run of the reporter's own namespace. *)
Definition report_first : IssuePayload :=
  mkPayload "Build failed" "first" SeverityMajor IssueTypePipeline "team-a"
            "" 0%Z [] (mkScopeReq "pipelinerun" "build-9" "team-a").

(** An identifier source that never repeats: the [n]-th identifier ends
    in the decimal digits of [n]. *)
Definition counter_uuid (n : nat) : string :=
  "00000000-0000-4000-9000-" ++ NilEmpty.string_of_uint (Nat.to_uint n).

Definition counting_world (s : Store) : World :=
  mkWorld s example_clock 0 counter_uuid 0.

(** The first report again, resolved, and again with a link. *)
Definition report_first_resolved : IssuePayload :=
  mkPayload "Build passed" "second" SeverityMajor IssueTypePipeline "team-a"
            IssueStateResolved 0%Z [] (mkScopeReq "pipelinerun" "build-9" "team-a").

Definition report_first_linked : IssuePayload :=
  mkPayload "Build failed" "third" SeverityCritical IssueTypePipeline "team-a"
            "" 0%Z [mkLinkReq "logs" "https://logs/9"]
            (mkScopeReq "pipelinerun" "build-9" "team-a").

(* ------------------------------------------------------------------ *)
(** ** Reading issues back *)

(** The associations a query preloads for an issue row: its scope, its
    links, and the relationships in which it is the source or the
    target. *)
Definition load_associations (s : Store) (i : Issue) : IssueView :=
  mkIssueView i (scope_by_id s (ScopeID i)) (links_of s (ID i))
              (filter (fun r => SourceID r =? ID i) (related_issues s))
              (filter (fun r => TargetID r =? ID i) (related_issues s)).

(** A world in which every identifier drawn is the key of a stored link
    of [store_ab]: the one way an insertion of a link can fail. *)
Definition colliding_world (s : Store) : World :=
  mkWorld s example_clock 0
          (fun _ => "11111111-0000-4000-8000-000000000003") 0.


(** The update [Create] applies to a duplicate: the report without its
    links and without its resolution time. *)
Definition create_update_req (req : IssuePayload) : IssuePayload :=
  mkPayload (GetTitle req) (GetDescription req) (GetSeverity req)
            (GetIssueType req) (GetNamespace req) (GetState req)
            0%Z [] (AsOptional (GetScope req)).

(** A report of the key of [issue_b] that names a link and a resolution
    time. *)
Definition report_b_linked : IssuePayload :=
  mkPayload "Release failed again" "second report" SeverityMajor
            IssueTypeRelease "team-a" IssueStateResolved 777%Z
            [mkLinkReq "logs" "https://logs/8"]
            (mkScopeReq "release" "rel-1" "team-a").

(* ------------------------------------------------------------------ *)
(** ** The schema as an invariant of the calls *)

(** The store satisfies the schema and the identifiers still to be drawn
    are new to every table. *)
Record schema_ok (w : World) : Prop := mkSchemaOk {
  so_wf : wf_store (db w);
  so_fresh : oracle_fresh w;
  so_fresh_related : forall n, drawn w <= n ->
      has_related (db w) (uuidAt w n) = false
}.

(** A call of the repository that writes. *)
Inductive Call :=
| CallCreateOrUpdate (req : IssuePayload)
| CallCreate (req : IssuePayload)
| CallUpdate (id : string) (req : IssuePayload)
| CallDelete (id : string)
| CallResolveByScope (resourceType resourceName namespace : string)
| CallAddRelatedIssue (sourceID targetID : string)
| CallRemoveRelatedIssue (sourceID targetID : string).

(** The world a call leaves, whether it succeeds or fails. *)
Definition after_call (c : Call) (w : World) : World :=
  match c with
  | CallCreateOrUpdate req => fst (CreateOrUpdate req w)
  | CallCreate req => fst (Create req w)
  | CallUpdate id req => fst (Update id req w)
  | CallDelete id => fst (Delete id w)
  | CallResolveByScope rt rn ns => fst (ResolveByScope rt rn ns w)
  | CallAddRelatedIssue a b => fst (AddRelatedIssue a b w)
  | CallRemoveRelatedIssue a b => fst (RemoveRelatedIssue a b w)
  end.

Fixpoint after_calls (cs : list Call) (w : World) : World :=
  match cs with
  | [] => w
  | c :: rest => after_calls rest (after_call c w)
  end.

(** An update that reopens an issue and supplies nothing else. *)
Definition reopen_req : IssuePayload :=
  mkPayload "" "" "" "" "" IssueStateActive 0%Z [] emptyScopeReq.

(** An update that renames the resource of an issue's scope. *)
Definition rename_resource_req : IssuePayload :=
  mkPayload "" "" "" "" "" "" 0%Z [] (mkScopeReq "" "rel-2" "").

(* ------------------------------------------------------------------ *)
(** ** repository: listing *)

(** [IssueQueryFilters].  A nil pointer is [None]; an empty string is a
    filter that is not set. *)
Record IssueQueryFilters := mkFilters {
  qf_Namespace : string;
  qf_Severity : option Severity;
  qf_IssueType : option IssueType;
  qf_State : option IssueState;
  qf_ResourceType : string;
  qf_ResourceName : string;
  qf_Search : string;
  qf_Limit : Z;
  qf_Offset : Z
}.

Definition where_if_set (filter value : string) : bool :=
  if filter =? "" then true else value =? filter.

Definition where_if_given (filter : option string) (value : string) : bool :=
  match filter with
  | None => true
  | Some f => value =? f
  end.

(** The WHERE clauses of [FindAll] on the columns of [issues].
    [like text pattern] stands for the database's
    LOWER(text) LIKE LOWER(pattern). *)
Definition find_all_where (like : string -> string -> bool)
           (filters : IssueQueryFilters) (i : Issue) : bool :=
  where_if_set (qf_Namespace filters) (Namespace i)
  && where_if_given (qf_Severity filters) (Severity_ i)
  && where_if_given (qf_IssueType filters) (IssueType_ i)
  && where_if_given (qf_State filters) (State i)
  && (if qf_Search filters =? "" then true
      else
        let searchPattern := "%" ++ qf_Search filters ++ "%" in
        like (Title i) searchPattern || like (Description i) searchPattern).

(** The WHERE clauses of [FindAll] on the columns of [issue_scopes]. *)
Definition find_all_scope_where (filters : IssueQueryFilters)
           (p : Issue * IssueScope) : bool :=
  where_if_set (qf_ResourceType filters) (ResourceType (snd p))
  && where_if_set (qf_ResourceName filters) (ResourceName (snd p)).

(** The rows the query of [FindAll] selects, before ordering and
    pagination: [issue_scopes] is joined only when a scope filter is set. *)
Definition find_all_query (like : string -> string -> bool)
           (filters : IssueQueryFilters) (s : Store) : list Issue :=
  filter (find_all_where like filters)
         (if negb (qf_ResourceType filters =? "")
             || negb (qf_ResourceName filters =? "")
          then map fst (filter (find_all_scope_where filters) (join_scopes s))
          else issues s).

(** ORDER BY detected_at DESC.  Rows of one detection time come in an
    order the database is free to choose; here, that of the table. *)
Fixpoint insert_by_detected_at (i : Issue) (rows : list Issue) : list Issue :=
  match rows with
  | [] => [i]
  | j :: rest =>
      if (DetectedAt j <=? DetectedAt i)%Z then i :: j :: rest
      else j :: insert_by_detected_at i rest
  end.

Definition order_by_detected_at_desc (rows : list Issue) : list Issue :=
  fold_right insert_by_detected_at [] rows.

(** gorm's [Offset]: an OFFSET clause is written for a positive value
    only. *)
Definition Offset {A} (offset : Z) (rows : list A) : list A :=
  if (0 <? offset)%Z then skipn (Z.to_nat offset) rows else rows.

(** gorm's [Limit]: a negative value writes no LIMIT clause. *)
Definition Limit {A} (limit : Z) (rows : list A) : list A :=
  if (limit <? 0)%Z then rows else firstn (Z.to_nat limit) rows.

(** [FindAll]: the page of issues matching the filters, each with its
    associations loaded as in [FindByID], and the number of matching
    issues.  Both queries are answered: the errors the source returns
    when the database fails ("failed to count issues", "failed to find
    issues") are not modelled. *)
Definition FindAll (like : string -> string -> bool)
           (filters : IssueQueryFilters) : M (list IssueView * Z) :=
  s <- get_db ;;
  let query := find_all_query like filters s in
  let total := Z.of_nat (length query) in
  let limit := if (qf_Limit filters =? 0)%Z then 50%Z else qf_Limit filters in
  let issues := Limit limit (Offset (qf_Offset filters)
                                    (order_by_detected_at_desc query)) in
  ret (map (load_associations s) issues, total).

(** The filters with another page. *)
Definition with_page (filters : IssueQueryFilters) (limit offset : Z)
  : IssueQueryFilters :=
  mkFilters (qf_Namespace filters) (qf_Severity filters) (qf_IssueType filters)
            (qf_State filters) (qf_ResourceType filters) (qf_ResourceName filters)
            (qf_Search filters) limit offset.

(** What the filters ask of an issue. *)
Definition asked_for (like : string -> string -> bool)
           (filters : IssueQueryFilters) (s : Store) (i : Issue) : Prop :=
  (qf_Namespace filters <> "" -> Namespace i = qf_Namespace filters)
  /\ (forall v, qf_Severity filters = Some v -> Severity_ i = v)
  /\ (forall v, qf_IssueType filters = Some v -> IssueType_ i = v)
  /\ (forall v, qf_State filters = Some v -> State i = v)
  /\ (qf_ResourceType filters <> "" \/ qf_ResourceName filters <> "" ->
      exists sc, In sc (issue_scopes s) /\ Scope_ID sc = ScopeID i
                 /\ (qf_ResourceType filters <> "" ->
                     ResourceType sc = qf_ResourceType filters)
                 /\ (qf_ResourceName filters <> "" ->
                     ResourceName sc = qf_ResourceName filters))
  /\ (qf_Search filters <> "" ->
      like (Title i) ("%" ++ qf_Search filters ++ "%") = true
      \/ like (Description i) ("%" ++ qf_Search filters ++ "%") = true).

(** A pattern matcher to run the examples with: every text matches. *)
Definition like_anything (text pattern : string) : bool := true.

(** Later detections first. *)
Definition later_first (a b : Issue) : Prop := (DetectedAt b <= DetectedAt a)%Z.

(** The limit [FindAll] applies: 50 when the filters give none. *)
Definition limit_applied (filters : IssueQueryFilters) : Z :=
  if (qf_Limit filters =? 0)%Z then 50%Z else qf_Limit filters.

(** The major issues of team-a, two to a page. *)
Definition major_of_team_a : IssueQueryFilters :=
  mkFilters "team-a" (Some SeverityMajor) None None "" "" "" 2%Z 0%Z.

(* ------------------------------------------------------------------ *)
(** ** handlers: webhooks *)

Record PipelineFailureRequest := mkPipelineFailureRequest {
  pf_PipelineName : string;
  pf_Namespace : string;
  pf_Severity : string;
  pf_FailureReason : string;
  pf_RunID : string;
  pf_LogsURL : string
}.

Record PipelineSuccessRequest := mkPipelineSuccessRequest {
  ps_PipelineName : string;
  ps_Namespace : string
}.

Record MintmakerRequest := mkMintmakerRequest {
  mm_PipelineId : string;
  mm_Namespace : string;
  mm_Type : string;
  mm_Logs : list string
}.

Record ReleaseFailureRequest := mkReleaseFailureRequest {
  rf_Application : string;
  rf_Namespace : string;
  rf_FailurePhase : string;
  rf_ReleaseName : string;
  rf_PipelineRunURL : string
}.

Record ReleaseSuccessRequest := mkReleaseSuccessRequest {
  rs_Application : string;
  rs_Namespace : string
}.

(** [services.IssueServiceInterface], as far as the webhooks call it.  The
    service itself is not under src/: the handlers are modelled over any
    implementation of the interface. *)
Record IssueServiceInterface := mkIssueService {
  CreateOrUpdateIssue : IssuePayload -> M (option IssueView);
  ResolveIssuesByScope : string -> string -> string -> M Z
}.

(** What a handler answers: the status and the body.  The details of a
    binding error are left out. *)
Inductive Response :=
| StatusBadRequest (error : string)
| StatusInternalServerError (error : string)
| StatusCreated (issue : IssueView)
| StatusOK (message : string)
| StatusOK_info (info : string)
| NilIssue.

(** [config.GetEnvOrDefault], [getenv] being the environment. *)
Definition GetEnvOrDefault (getenv : string -> string) (key defaultValue : string)
  : string :=
  if getenv key =? "" then defaultValue else getenv key.

(** [binding:"required"]: the field is not the zero value. *)
Definition required (field : string) : bool := negb (field =? "").

(** The answer to the result of [CreateOrUpdateIssue]; the handlers read
    the identifier of the issue returned, which is there to read only
    when an issue is returned. *)
Definition answer_created (r : res (option IssueView)) : Response :=
  match r with
  | Err _ => StatusInternalServerError "Failed to process webhook"
  | Ok None => NilIssue
  | Ok (Some issue) => StatusCreated issue
  end.

Definition newline : string := String (Ascii.ascii_of_nat 10) "".

Definition decimal (n : Z) : string :=
  NilZero.string_of_int (Z.to_int n).

(** The width of the columns [severity], [issue_type] and [state] of
    [issues], character varying(20).  The store does not check it: a
    statement about a value that comes from a request assumes it. *)
Definition fits_varchar_20 (value : string) : Prop := String.length value <= 20.

(** The report [PipelineFailure] builds. *)
Definition PipelineFailure_issueData (getenv : string -> string)
           (req : PipelineFailureRequest) : IssuePayload :=
  let logsURL :=
    if pf_LogsURL req =? "" then
      let baseURL := GetEnvOrDefault getenv "KITE_CLUSTER_URL" "https://konflux.dev" in
      let logsEndpoint :=
        GetEnvOrDefault getenv "KITE_LOGS_ENDPOINT" "/logs/pipelineruns/" in
      baseURL ++ logsEndpoint ++ pf_RunID req
    else pf_LogsURL req in
  let severity :=
    if pf_Severity req =? "" then SeverityMajor else pf_Severity req in
  mkPayload ("Pipeline run failed: " ++ pf_PipelineName req)
            ("The pipeline run " ++ pf_PipelineName req
             ++ " failed with reason: " ++ pf_FailureReason req)
            severity IssueTypePipeline (pf_Namespace req) "" 0%Z
            [mkLinkReq "Pipeline Run Logs" logsURL]
            (mkScopeReq "pipelinerun" (pf_PipelineName req) (pf_Namespace req)).

Definition PipelineFailure (h : IssueServiceInterface) (getenv : string -> string)
           (req : PipelineFailureRequest) (w : World) : World * Response :=
  if required (pf_PipelineName req) && required (pf_Namespace req)
     && required (pf_FailureReason req)
  then
    let (w', r) := CreateOrUpdateIssue h (PipelineFailure_issueData getenv req) w in
    (w', answer_created r)
  else (w, StatusBadRequest "Missing required fields").

Definition PipelineSuccess (h : IssueServiceInterface)
           (req : PipelineSuccessRequest) (w : World) : World * Response :=
  if required (ps_PipelineName req) && required (ps_Namespace req)
  then
    match ResolveIssuesByScope h "pipelinerun" (ps_PipelineName req)
                               (ps_Namespace req) w with
    | (w', Err _) =>
        (w', StatusInternalServerError "Failed to resolve pipeline issues")
    | (w', Ok resolved) =>
        (w', StatusOK ("Resolved " ++ decimal resolved ++ " issue(s) for pipeline "
                       ++ ps_PipelineName req))
    end
  else (w, StatusBadRequest "Missing required fields").

(** The report [MintmakerIssues] builds. *)
Definition MintmakerIssues_issueData (req : MintmakerRequest) : IssuePayload :=
  let severity :=
    if mm_Type req =? "error" then SeverityMajor
    else if mm_Type req =? "warning" then SeverityMinor
    else SeverityInfo in
  mkPayload ("Mintmaker " ++ mm_Type req ++ "("
             ++ decimal (Z.of_nat (length (mm_Logs req))) ++ "): "
             ++ mm_PipelineId req)
            (String.concat (newline ++ "--------------------------------" ++ newline)
                           (mm_Logs req))
            severity IssueTypeDependency (mm_Namespace req) "" 0%Z
            [mkLinkReq "Mintmaker docs" "https://konflux-ci.dev/docs/mintmaker/user/";
             mkLinkReq "Renovate docs"
                       "https://docs.renovatebot.com/configuration-options/"]
            (mkScopeReq ("mintmaker-" ++ mm_Type req) (mm_PipelineId req)
                        (mm_Namespace req)).

Definition MintmakerIssues (h : IssueServiceInterface)
           (req : MintmakerRequest) (w : World) : World * Response :=
  if required (mm_PipelineId req) && required (mm_Namespace req)
     && required (mm_Type req)
  then
    match mm_Logs req with
    | [] => (w, StatusOK_info "No logs provided, no issue created")
    | _ =>
        let (w', r) := CreateOrUpdateIssue h (MintmakerIssues_issueData req) w in
        (w', answer_created r)
    end
  else (w, StatusBadRequest "Missing required fields").

(** The report [ReleaseFailure] builds. *)
Definition ReleaseFailure_issueData (req : ReleaseFailureRequest) : IssuePayload :=
  let description :=
    if rf_PipelineRunURL req =? ""
    then "The release failed in phase: " ++ rf_FailurePhase req
    else "The release failed in phase: " ++ rf_FailurePhase req
         ++ ". Link to logs: " ++ rf_PipelineRunURL req in
  mkPayload ("Release " ++ rf_ReleaseName req ++ " failed for application "
             ++ rf_Application req)
            description SeverityMajor IssueTypeRelease (rf_Namespace req) "" 0%Z []
            (mkScopeReq "application" (rf_Application req) (rf_Namespace req)).

Definition ReleaseFailure (h : IssueServiceInterface)
           (req : ReleaseFailureRequest) (w : World) : World * Response :=
  if required (rf_Application req) && required (rf_Namespace req)
     && required (rf_FailurePhase req) && required (rf_ReleaseName req)
  then
    let (w', r) := CreateOrUpdateIssue h (ReleaseFailure_issueData req) w in
    (w', answer_created r)
  else (w, StatusBadRequest "Missing required fields").

Definition ReleaseSuccess (h : IssueServiceInterface)
           (req : ReleaseSuccessRequest) (w : World) : World * Response :=
  if required (rs_Application req) && required (rs_Namespace req)
  then
    match ResolveIssuesByScope h "application" (rs_Application req)
                               (rs_Namespace req) w with
    | (w', Err _) =>
        (w', StatusInternalServerError "Failed to resolve application issues")
    | (w', Ok resolved) =>
        (w', StatusOK ("Resolved " ++ decimal resolved
                       ++ " issue(s) for application " ++ rs_Application req))
    end
  else (w, StatusBadRequest "Missing required fields").

(** A service that hands each call to the repository. *)
Definition repository_service : IssueServiceInterface :=
  mkIssueService CreateOrUpdate ResolveByScope.

(** The service does what the repository does. *)
Definition passes_to_repository (h : IssueServiceInterface) : Prop :=
  (forall req w, CreateOrUpdateIssue h req w = CreateOrUpdate req w)
  /\ (forall rt rn ns w, ResolveIssuesByScope h rt rn ns w = ResolveByScope rt rn ns w).

(** An environment with no variable set. *)
Definition no_env (key : string) : string := "".

Definition failure_of_build_9 : PipelineFailureRequest :=
  mkPipelineFailureRequest "build-9" "team-a" "" "timeout" "run-1" "".

Definition failure_of_build_9_again : PipelineFailureRequest :=
  mkPipelineFailureRequest "build-9" "team-a" "critical" "out of memory" "run-2"
                           "https://logs/run-2".

Definition success_of_build_9 : PipelineSuccessRequest :=
  mkPipelineSuccessRequest "build-9" "team-a".

Definition release_failure_of_app : ReleaseFailureRequest :=
  mkReleaseFailureRequest "fancy-app" "team-a" "Validation" "release-to-prod-3" "".

Definition release_success_of_app : ReleaseSuccessRequest :=
  mkReleaseSuccessRequest "fancy-app" "team-a".


(* ------------------------------------------------------------------ *)
(** ** Issues and scopes in pairs *)

(** Every scope row is the scope of an issue: the schema does not ask for
    it, the repository keeps it. *)
Definition every_scope_owned (s : Store) : Prop :=
  forall sc, In sc (issue_scopes s) ->
             exists i, In i (issues s) /\ ScopeID i = Scope_ID sc.

(** The store satisfies the schema and has no scope without its issue. *)
Definition paired (s : Store) : Prop := wf_store s /\ every_scope_owned s.

(** From [s] to [s'] only the links changed, and the schema was kept. *)
Definition only_links_changed (s s' : Store) : Prop :=
  issues s' = issues s
  /\ issue_scopes s' = issue_scopes s
  /\ related_issues s' = related_issues s
  /\ (wf_store s -> wf_store s').

(** A computation that, when it succeeds, leaves the database as it was. *)
Definition keeps_db {A} (m : M A) : Prop :=
  forall w w' a, m w = (w', Ok a) -> db w' = db w.

(** A computation that, when it succeeds, changed only the links. *)
Definition writes_links {A} (m : M A) : Prop :=
  forall w w' a, m w = (w', Ok a) -> only_links_changed (db w) (db w').
(* ------------------------------------------------------------------ *)
(** ** Lists and queries *)

Lemma First_None (l : list Issue) : First l = None <-> l = [].
Proof.
  destruct l as [|i r]; simpl; [tauto|].
  split; [|discriminate].
  destruct (First r); [destruct (String.leb _ _)|]; discriminate.
Qed.

Lemma First_In (l : list Issue) (x : Issue) : First l = Some x -> In x l.
Proof.
  induction l as [|i r IH]; simpl; [discriminate|].
  destruct (First r) as [j|].
  - destruct (String.leb (ID i) (ID j)); intros [= <-]; auto.
  - intros [= <-]; auto.
Qed.

Lemma existsb_false_filter {A} (p : A -> bool) (l : list A) :
  existsb p l = false <-> filter p l = [].
Proof.
  induction l as [|x r IH]; simpl; [tauto|].
  destruct (p x); simpl; [split; discriminate|exact IH].
Qed.

Lemma filter_nil_forall {A} (p : A -> bool) (l : list A) :
  filter p l = [] <-> (forall x, In x l -> p x = false).
Proof.
  induction l as [|x r IH]; simpl.
  - split; [intros _ y []|reflexivity].
  - destruct (p x) eqn:E.
    + split; [discriminate|]. intros H. rewrite (H x) in E; [discriminate|auto].
    + rewrite IH. split.
      * intros H y [<-|Hy]; auto.
      * intros H y Hy. apply H; auto.
Qed.

Lemma filter_all_false {A} (p : A -> bool) (l : list A) :
  (forall x, In x l -> p x = false) -> filter (fun x => negb (p x)) l = l.
Proof.
  induction l as [|x r IH]; simpl; intros H; [reflexivity|].
  rewrite (H x), IH; simpl; auto.
Qed.

Lemma filter_unique_key {A} (key : A -> string) (l : list A) (x : A) :
  NoDup (map key l) -> In x l -> filter (fun y => key y =? key x) l = [x].
Proof.
  induction l as [|y r IH]; simpl; intros ND Hin; [contradiction|].
  inversion ND as [|k ks Hk ND']; subst.
  destruct Hin as [->|Hin].
  - rewrite String.eqb_refl. f_equal.
    apply filter_nil_forall. intros z Hz.
    apply String.eqb_neq. intros E. apply Hk. rewrite <- E. now apply in_map.
  - destruct (String.eqb_spec (key y) (key x)) as [E|_]; [|auto].
    exfalso. apply Hk. rewrite E. now apply in_map.
Qed.

Lemma has_issue_true (s : Store) (id : string) :
  has_issue s id = true <-> exists i, In i (issues s) /\ ID i = id.
Proof.
  unfold has_issue. rewrite existsb_exists.
  split; intros [i [Hi E]]; exists i; split; auto; now apply String.eqb_eq.
Qed.

Lemma pair_where_spec (a b : string) (r : RelatedIssue) :
  pair_where a b r = true <-> edge_between a b r.
Proof.
  unfold pair_where, edge_between.
  rewrite orb_true_iff, !andb_true_iff, !String.eqb_eq. tauto.
Qed.

Lemma pair_where_none (a b : string) (l : list RelatedIssue) :
  (forall r, In r l -> ~ edge_between a b r) -> filter (pair_where a b) l = [].
Proof.
  intros H. apply filter_nil_forall. intros r Hr.
  destruct (pair_where a b r) eqn:E; [|reflexivity].
  exfalso. apply (H r Hr). now apply pair_where_spec.
Qed.

Lemma pair_where_some (a b : string) (l : list RelatedIssue) :
  (exists r, In r l /\ edge_between a b r) ->
  exists r rest, filter (pair_where a b) l = r :: rest.
Proof.
  intros [r [Hr E]].
  destruct (filter (pair_where a b) l) as [|x rest] eqn:F; [|eauto].
  rewrite filter_nil_forall in F. apply pair_where_spec in E.
  rewrite (F r Hr) in E. discriminate.
Qed.

(** [FindByID] never writes; it finds a row exactly when one has the key. *)
Lemma FindByID_found (w : World) (id : string) :
  has_issue (db w) id = true ->
  exists v, FindByID id w = (w, Ok (Some v))
            /\ In (iv_Issue v) (issues (db w)) /\ ID (iv_Issue v) = id
            /\ iv_Links v = links_of (db w) id.
Proof.
  intros H. unfold FindByID, bind, get_db, ret.
  destruct (First (filter (fun i => ID i =? id) (issues (db w)))) as [i|] eqn:F.
  - eexists; split; [reflexivity|]. simpl.
    apply First_In, filter_In in F. destruct F as [Hi E].
    apply String.eqb_eq in E. subst id. auto.
  - apply First_None in F. unfold has_issue in H.
    apply existsb_false_filter in F. congruence.
Qed.

Lemma FindByID_missing (w : World) (id : string) :
  has_issue (db w) id = false -> FindByID id w = (w, Ok None).
Proof.
  intros H. unfold FindByID, bind, get_db, ret.
  unfold has_issue in H. apply existsb_false_filter in H. now rewrite H.
Qed.

Lemma FindByID_unique (w : World) (i : Issue) :
  NoDup (map ID (issues (db w))) -> In i (issues (db w)) ->
  exists v, FindByID (ID i) w = (w, Ok (Some v)) /\ iv_Issue v = i
            /\ iv_Links v = links_of (db w) (ID i).
Proof.
  intros ND Hi. unfold FindByID, bind, get_db, ret.
  rewrite (filter_unique_key ID _ _ ND Hi). simpl.
  eexists; split; [reflexivity|]. simpl. auto.
Qed.

Lemma store_eta (s : Store) :
  mkStore (issues s) (issue_scopes s) (links s) (related_issues s) = s.
Proof. now destruct s. Qed.

(** Runs the plumbing of a computation, leaving the tests on the store. *)
Ltac run :=
  repeat (progress
    (cbv beta iota delta [bind ret fail wrap get_db put_db time_Now uuid_New
                          Transaction with_db];
     cbn [fst snd db nowAt tick uuidAt drawn negb String.eqb
          issues issue_scopes links related_issues
          ID Title Description Severity_ IssueType_ State Instance DetectedAt
          ResolvedAt Namespace ScopeID CreatedAt UpdatedAt
          Scope_ID ResourceType ResourceName ResourceNamespace
          Rel_ID SourceID TargetID Link_ID Link_Title URL IssueID
          iv_Issue iv_Scope iv_Links iv_RelatedFrom iv_RelatedTo])).

(* ------------------------------------------------------------------ *)
(** ** Relationship edges *)

Lemma delete_related_run (p : RelatedIssue -> bool) (w : World) :
  delete_related p w =
  (with_db w (mkStore (issues (db w)) (issue_scopes (db w)) (links (db w))
                      (filter (fun r => negb (p r)) (related_issues (db w)))),
   Ok (Z.of_nat (length (filter p (related_issues (db w)))))).
Proof. reflexivity. Qed.

Lemma AddRelatedIssue_not_found (w : World) (a b : string) :
  has_issue (db w) a = false \/ has_issue (db w) b = false ->
  AddRelatedIssue a b w = (w, Err "one or both issues not found").
Proof.
  intros H. unfold AddRelatedIssue, bind.
  destruct (has_issue (db w) a) eqn:Ha.
  - destruct H as [H|H]; [discriminate|].
    destruct (FindByID_found w a Ha) as [v [-> _]].
    now rewrite (FindByID_missing w b H).
  - rewrite (FindByID_missing w a Ha).
    destruct (has_issue (db w) b) eqn:Hb.
    + now destruct (FindByID_found w b Hb) as [v [-> _]].
    + now rewrite (FindByID_missing w b Hb).
Qed.

Lemma AddRelatedIssue_exists (w : World) (a b : string) :
  has_issue (db w) a = true -> has_issue (db w) b = true ->
  (exists r, In r (related_issues (db w)) /\ edge_between a b r) ->
  AddRelatedIssue a b w = (w, Err "relationship already exists").
Proof.
  intros Ha Hb He. unfold AddRelatedIssue, bind.
  destruct (FindByID_found w a Ha) as [va [-> _]].
  destruct (FindByID_found w b Hb) as [vb [-> _]].
  unfold get_db.
  destruct (pair_where_some a b _ He) as [r [rest ->]]. reflexivity.
Qed.

Lemma AddRelatedIssue_inserts (w : World) (a b : string) :
  has_issue (db w) a = true -> has_issue (db w) b = true ->
  (forall r, In r (related_issues (db w)) -> ~ edge_between a b r) ->
  has_related (db w) (uuidAt w (drawn w)) = false ->
  result_of (AddRelatedIssue a b) w = Ok tt
  /\ store_after (AddRelatedIssue a b) w =
     mkStore (issues (db w)) (issue_scopes (db w)) (links (db w))
             (related_issues (db w) ++ [mkRelatedIssue (uuidAt w (drawn w)) a b]).
Proof.
  intros Ha Hb He Hf. unfold result_of, store_after, AddRelatedIssue, bind.
  destruct (FindByID_found w a Ha) as [va [-> _]].
  destruct (FindByID_found w b Hb) as [vb [-> _]].
  unfold get_db. rewrite (pair_where_none a b _ He).
  unfold Create_RelatedIssue, BeforeCreate_RelatedIssue, insert_related.
  run. rewrite Hf, Ha, Hb. run. auto.
Qed.

Lemma RemoveRelatedIssue_found (w : World) (a b : string) :
  (exists r, In r (related_issues (db w)) /\ edge_between a b r) ->
  result_of (RemoveRelatedIssue a b) w = Ok tt
  /\ store_after (RemoveRelatedIssue a b) w =
     mkStore (issues (db w)) (issue_scopes (db w)) (links (db w))
             (filter (fun r => negb (pair_where a b r)) (related_issues (db w))).
Proof.
  intros He. unfold result_of, store_after, RemoveRelatedIssue, bind, wrap.
  rewrite delete_related_run.
  destruct (pair_where_some a b _ He) as [r [rest ->]].
  destruct (Z.eqb_spec (Z.of_nat (length (r :: rest))) 0) as [E|_];
    [simpl length in E; lia|].
  run. auto.
Qed.

Lemma RemoveRelatedIssue_missing (w : World) (a b : string) :
  (forall r, In r (related_issues (db w)) -> ~ edge_between a b r) ->
  result_of (RemoveRelatedIssue a b) w = Err "relationship not found"
  /\ store_after (RemoveRelatedIssue a b) w = db w.
Proof.
  intros He. unfold result_of, store_after, RemoveRelatedIssue, bind, wrap.
  rewrite delete_related_run.
  rewrite (pair_where_none a b _ He). run. split; [reflexivity|].
  rewrite filter_all_false; [apply store_eta|].
  apply filter_nil_forall. now apply pair_where_none.
Qed.

(** C8: [AddRelatedIssue] fails when either issue is missing and when the
    pair is already joined by an edge in either direction (so adding (b,a)
    after (a,b) fails); otherwise it inserts exactly one directed edge.
    [RemoveRelatedIssue] deletes the edges joining the pair in either
    direction and fails when there is none. *)
Theorem C8_related_issue_edges (w : World) (a b : string) :
  (has_issue (db w) a = false \/ has_issue (db w) b = false ->
     result_of (AddRelatedIssue a b) w = Err "one or both issues not found"
     /\ store_after (AddRelatedIssue a b) w = db w)
  /\ (has_issue (db w) a = true -> has_issue (db w) b = true ->
      (exists r, In r (related_issues (db w)) /\ edge_between a b r) ->
      result_of (AddRelatedIssue a b) w = Err "relationship already exists"
      /\ store_after (AddRelatedIssue a b) w = db w)
  /\ (has_issue (db w) a = true -> has_issue (db w) b = true ->
      (forall r, In r (related_issues (db w)) -> ~ edge_between a b r) ->
      has_related (db w) (uuidAt w (drawn w)) = false ->
      result_of (AddRelatedIssue a b) w = Ok tt
      /\ store_after (AddRelatedIssue a b) w =
         mkStore (issues (db w)) (issue_scopes (db w)) (links (db w))
                 (related_issues (db w)
                  ++ [mkRelatedIssue (uuidAt w (drawn w)) a b])
      /\ result_of (AddRelatedIssue b a) (fst (AddRelatedIssue a b w))
         = Err "relationship already exists"
      /\ store_after (AddRelatedIssue b a) (fst (AddRelatedIssue a b w))
         = store_after (AddRelatedIssue a b) w)
  /\ ((exists r, In r (related_issues (db w)) /\ edge_between a b r) ->
      result_of (RemoveRelatedIssue a b) w = Ok tt
      /\ store_after (RemoveRelatedIssue a b) w =
         mkStore (issues (db w)) (issue_scopes (db w)) (links (db w))
                 (filter (fun r => negb (pair_where a b r))
                         (related_issues (db w)))
      /\ (forall r, In r (related_issues (store_after (RemoveRelatedIssue a b) w))
                    -> ~ edge_between a b r))
  /\ ((forall r, In r (related_issues (db w)) -> ~ edge_between a b r) ->
      result_of (RemoveRelatedIssue a b) w = Err "relationship not found"
      /\ store_after (RemoveRelatedIssue a b) w = db w).
Proof.
  repeat split.
  - unfold result_of. now rewrite (AddRelatedIssue_not_found w a b H).
  - unfold store_after. now rewrite (AddRelatedIssue_not_found w a b H).
  - unfold result_of. now rewrite (AddRelatedIssue_exists w a b H H0 H1).
  - unfold store_after. now rewrite (AddRelatedIssue_exists w a b H H0 H1).
  - now apply AddRelatedIssue_inserts.
  - now apply AddRelatedIssue_inserts.
  - destruct (AddRelatedIssue_inserts w a b H H0 H1 H2) as [_ Hs].
    unfold store_after in Hs. unfold result_of.
    rewrite AddRelatedIssue_exists; [reflexivity| | |]; rewrite Hs;
      unfold has_issue; simpl; auto.
    exists (mkRelatedIssue (uuidAt w (drawn w)) a b). split.
    + apply in_or_app. right. simpl. auto.
    + right. simpl. auto.
  - destruct (AddRelatedIssue_inserts w a b H H0 H1 H2) as [_ Hs].
    unfold store_after in *.
    rewrite AddRelatedIssue_exists; [reflexivity| | |]; rewrite Hs;
      unfold has_issue; simpl; auto.
    exists (mkRelatedIssue (uuidAt w (drawn w)) a b). split.
    + apply in_or_app. right. simpl. auto.
    + right. simpl. auto.
  - now apply RemoveRelatedIssue_found.
  - now apply RemoveRelatedIssue_found.
  - intros r Hr E. destruct (RemoveRelatedIssue_found w a b H) as [_ Hs].
    rewrite Hs in Hr. simpl in Hr. apply filter_In in Hr.
    destruct Hr as [_ Hr]. apply pair_where_spec in E. rewrite E in Hr.
    discriminate.
  - now apply RemoveRelatedIssue_missing.
  - now apply RemoveRelatedIssue_missing.
Qed.

Lemma C8_related_issue_edges_witness :
  (result_of (AddRelatedIssue id_a "no-such-issue") (world_of store_ab)
     = Err "one or both issues not found"
   /\ store_after (AddRelatedIssue id_a "no-such-issue") (world_of store_ab)
      = store_ab)
  /\ (result_of (AddRelatedIssue id_b id_a) (world_of store_ab)
        = Err "relationship already exists"
      /\ store_after (AddRelatedIssue id_b id_a) (world_of store_ab) = store_ab)
  /\ (result_of (AddRelatedIssue id_a id_b) (world_of store_ab_unrelated) = Ok tt
      /\ related_issues
           (store_after (AddRelatedIssue id_a id_b) (world_of store_ab_unrelated))
         = [mkRelatedIssue "00000000-0000-4000-8000-000000000001" id_a id_b]
      /\ result_of (AddRelatedIssue id_b id_a)
           (fst (AddRelatedIssue id_a id_b (world_of store_ab_unrelated)))
         = Err "relationship already exists")
  /\ (result_of (RemoveRelatedIssue id_b id_a) (world_of store_ab) = Ok tt
      /\ related_issues
           (store_after (RemoveRelatedIssue id_b id_a) (world_of store_ab)) = [])
  /\ (result_of (RemoveRelatedIssue id_a id_b) (world_of store_ab_unrelated)
        = Err "relationship not found"
      /\ store_after (RemoveRelatedIssue id_a id_b) (world_of store_ab_unrelated)
         = store_ab_unrelated).
Proof.
  assert (Hedge : exists r, In r (related_issues (db (world_of store_ab)))
                            /\ edge_between id_b id_a r).
  { eexists; split; [left; reflexivity|right; split; reflexivity]. }
  assert (Hnone : forall r, In r (related_issues (db (world_of store_ab_unrelated)))
                            -> ~ edge_between id_a id_b r).
  { intros r []. }
  split; [|split; [|split; [|split]]].
  - destruct (C8_related_issue_edges (world_of store_ab) id_a "no-such-issue")
      as (H & _).
    apply H. right. reflexivity.
  - destruct (C8_related_issue_edges (world_of store_ab) id_b id_a)
      as (_ & H & _).
    exact (H eq_refl eq_refl Hedge).
  - destruct (C8_related_issue_edges (world_of store_ab_unrelated) id_a id_b)
      as (_ & _ & H & _).
    destruct (H eq_refl eq_refl Hnone eq_refl) as (H1 & H2 & H3 & _).
    split; [exact H1|split; [|exact H3]]. rewrite H2. reflexivity.
  - destruct (C8_related_issue_edges (world_of store_ab) id_b id_a)
      as (_ & _ & _ & H & _).
    destruct (H Hedge) as (H1 & H2 & _).
    split; [exact H1|]. rewrite H2. reflexivity.
  - destruct (C8_related_issue_edges (world_of store_ab_unrelated) id_a id_b)
      as (_ & _ & _ & _ & H).
    exact (H Hnone).
Defined.

(** C10: relating an existing issue to itself is not rejected: when no
    self-edge is stored yet, [AddRelatedIssue a a] succeeds and inserts
    the row whose source and target are both [a]. *)
Theorem C10_self_edge_accepted (w : World) (a : string) :
  has_issue (db w) a = true ->
  (forall r, In r (related_issues (db w)) -> ~ (SourceID r = a /\ TargetID r = a)) ->
  has_related (db w) (uuidAt w (drawn w)) = false ->
  result_of (AddRelatedIssue a a) w = Ok tt
  /\ store_after (AddRelatedIssue a a) w =
     mkStore (issues (db w)) (issue_scopes (db w)) (links (db w))
             (related_issues (db w) ++ [mkRelatedIssue (uuidAt w (drawn w)) a a]).
Proof.
  intros Ha Hnone Hfresh.
  apply AddRelatedIssue_inserts; auto.
  intros r Hr [E|E]; exact (Hnone r Hr E).
Qed.

Lemma C10_self_edge_accepted_witness :
  result_of (AddRelatedIssue id_a id_a) (world_of store_ab) = Ok tt
  /\ related_issues (store_after (AddRelatedIssue id_a id_a) (world_of store_ab))
     = [mkRelatedIssue "22222222-0000-4000-8000-000000000001" id_a id_b;
        mkRelatedIssue "00000000-0000-4000-8000-000000000001" id_a id_a].
Proof.
  destruct (C10_self_edge_accepted (world_of store_ab) id_a) as [H1 H2].
  - reflexivity.
  - intros r [<-|[]] [_ E]. discriminate E.
  - reflexivity.
  - split; [exact H1|]. rewrite H2. reflexivity.
Defined.

(* ------------------------------------------------------------------ *)
(** ** Transactions *)

(** A transaction whose body fails leaves the database as it was. *)
Lemma Transaction_rollback {A} (body : M A) (w : World) (e : string) :
  result_of (Transaction body) w = Err e ->
  store_after (Transaction body) w = db w.
Proof.
  unfold result_of, store_after, Transaction.
  destruct (body w) as [w' [a|e']]; simpl; [discriminate|reflexivity].
Qed.

(* ------------------------------------------------------------------ *)
(** ** Deletion *)

Lemma existsb_filter_out {A} (p q : A -> bool) (l : list A) :
  (forall x, q x = true -> p x = true) ->
  existsb q (filter (fun x => negb (p x)) l) = false.
Proof.
  intros H. apply existsb_false_filter, filter_nil_forall.
  intros x Hx. apply filter_In in Hx. destruct Hx as [_ Hx].
  destruct (q x) eqn:E; [|reflexivity].
  rewrite (H x E) in Hx. discriminate.
Qed.

(** Deleting rows keeps the remaining keys distinct. *)
Lemma keys_distinct_after_delete {A} (rows : list A) (key : A -> string)
      (keep : A -> bool) :
  NoDup (map key rows) -> NoDup (map key (filter keep rows)).
Proof.
  intros ND. induction rows as [|x r IH]; simpl; [constructor|].
  inversion ND as [|k ks Hk ND']; subst.
  destruct (keep x); simpl; [constructor|]; auto.
  intros Hin. apply Hk. apply in_map_iff in Hin.
  destruct Hin as [y [E Hy]]. apply filter_In in Hy.
  rewrite <- E. apply in_map. tauto.
Qed.

Lemma NoDup_map_inj {A} (key : A -> string) (l : list A) (x y : A) :
  NoDup (map key l) -> In x l -> In y l -> key x = key y -> x = y.
Proof.
  intros ND Hx Hy E.
  pose proof (filter_unique_key key l y ND Hy) as F.
  assert (Hin : In x (filter (fun z => key z =? key y) l)).
  { apply filter_In. split; [exact Hx|now apply String.eqb_eq]. }
  rewrite F in Hin. destruct Hin as [<-|[]]. reflexivity.
Qed.

(** The statements of [Delete], run in any other order, are refused by the
    foreign keys: the issue cannot go while a link or an edge references
    it, nor its scope while the issue references it. *)
Lemma delete_issue_refused_while_linked (w : World) (id : string) (l : Link) :
  has_issue (db w) id = true -> In l (links (db w)) -> IssueID l = id ->
  delete_issue id w = (w, Err "violates foreign key constraint fk_issues_links").
Proof.
  intros Hi Hl E. unfold delete_issue. run. rewrite Hi.
  replace (existsb (fun l0 => IssueID l0 =? id) (links (db w))) with true;
    [reflexivity|].
  symmetry. apply existsb_exists. exists l. split; [exact Hl|].
  now apply String.eqb_eq.
Qed.

Lemma delete_scope_refused_while_owned (w : World) (i : Issue) :
  In i (issues (db w)) -> has_scope (db w) (ScopeID i) = true ->
  delete_scope (ScopeID i) w
  = (w, Err "violates foreign key constraint fk_issue_scopes_issue").
Proof.
  intros Hi Hs. unfold delete_scope. run. rewrite Hs.
  replace (existsb (fun j => ScopeID j =? ScopeID i) (issues (db w))) with true;
    [reflexivity|].
  symmetry. apply existsb_exists. exists i. split; [exact Hi|].
  apply String.eqb_refl.
Qed.

Lemma Delete_missing (w : World) (id : string) :
  has_issue (db w) id = false ->
  Delete id w = (w, Err ("issue with ID " ++ id ++ " not found")).
Proof.
  intros H. unfold Delete, bind. now rewrite (FindByID_missing w id H).
Qed.

Lemma Delete_existing (w : World) (i : Issue) :
  NoDup (map ID (issues (db w))) -> NoDup (map ScopeID (issues (db w))) ->
  In i (issues (db w)) ->
  Delete (ID i) w = (with_db w (store_without (db w) (ID i) (ScopeID i)), Ok tt).
Proof.
  intros ND NS Hi. unfold Delete, bind at 1.
  destruct (FindByID_unique w i ND Hi) as [v [-> [-> _]]].
  unfold delete_related, delete_links_of, delete_issue, delete_scope. run.
  rewrite (existsb_filter_out (fun l => IssueID l =? ID i)
             (fun l => IssueID l =? ID i)) by auto.
  rewrite andb_false_r.
  rewrite (existsb_filter_out
             (fun r => (SourceID r =? ID i) || (TargetID r =? ID i))
             (fun r => SourceID r =? ID i))
    by (intros r ->; reflexivity).
  rewrite andb_false_r.
  rewrite (existsb_filter_out
             (fun r => (SourceID r =? ID i) || (TargetID r =? ID i))
             (fun r => TargetID r =? ID i))
    by (intros r ->; apply orb_true_r).
  rewrite andb_false_r. run.
  replace (existsb (fun j => ScopeID j =? ScopeID i)
             (filter (fun j => negb (ID j =? ID i)) (issues (db w))))
    with false; [rewrite andb_false_r; reflexivity|].
  symmetry. apply existsb_false_filter, filter_nil_forall.
  intros j Hj. apply filter_In in Hj. destruct Hj as [Hj Hne].
  destruct (String.eqb_spec (ScopeID j) (ScopeID i)) as [E|_]; [|reflexivity].
  rewrite (NoDup_map_inj ScopeID _ j i NS Hj Hi E), String.eqb_refl in Hne.
  discriminate.
Qed.

Lemma store_without_wf (s : Store) (i : Issue) :
  wf_store s -> In i (issues s) -> wf_store (store_without s (ID i) (ScopeID i)).
Proof.
  intros [P1 P2 P3 P4 P5 F1 F2 F3] Hi.
  assert (Hkeep : forall id, id <> ID i -> has_issue s id = true ->
                  has_issue (store_without s (ID i) (ScopeID i)) id = true).
  { intros id Hne H. apply has_issue_true in H. destruct H as [j [Hj E]].
    apply has_issue_true. exists j. split; [|exact E]. simpl.
    apply filter_In. split; [exact Hj|].
    apply negb_true_iff, String.eqb_neq. congruence. }
  constructor; simpl; try (now apply keys_distinct_after_delete).
  - intros j Hj. apply filter_In in Hj. destruct Hj as [Hj Hne].
    apply negb_true_iff, String.eqb_neq in Hne.
    pose proof (F1 j Hj) as H. unfold has_scope in *.
    apply existsb_exists in H. destruct H as [sc [Hsc E]].
    apply existsb_exists. exists sc. split; [|exact E]. simpl.
    apply filter_In. split; [exact Hsc|].
    apply negb_true_iff, String.eqb_neq. apply String.eqb_eq in E.
    intros E'. apply Hne. f_equal.
    apply (NoDup_map_inj ScopeID (issues s) j i P5 Hj Hi). congruence.
  - intros l Hl. apply filter_In in Hl. destruct Hl as [Hl Hne].
    apply negb_true_iff, String.eqb_neq in Hne. apply Hkeep; auto.
  - intros r Hr. apply filter_In in Hr. destruct Hr as [Hr Hne].
    apply negb_true_iff, orb_false_iff in Hne. destruct Hne as [N1 N2].
    apply String.eqb_neq in N1, N2. destruct (F3 r Hr). split; apply Hkeep; auto.
Qed.

Lemma FindByID_total (id : string) (w : World) :
  exists r, FindByID id w = (w, Ok r).
Proof.
  unfold FindByID, bind, get_db, ret. destruct (First _); eauto.
Qed.

Lemma read_then_tx_rollback {B} (id msg : string) (k : IssueView -> M B)
      (w : World) (e : string) :
  result_of (issue <- FindByID id ;;
             match issue with
             | None => fail msg
             | Some v => Transaction (k v)
             end) w = Err e ->
  store_after (issue <- FindByID id ;;
               match issue with
               | None => fail msg
               | Some v => Transaction (k v)
               end) w = db w.
Proof.
  unfold result_of, store_after, bind.
  destruct (FindByID_total id w) as [[v|] ->]; [|reflexivity].
  unfold Transaction. destruct (k v w) as [w' [b|e']]; cbn [fst snd];
    [discriminate|reflexivity].
Qed.

(** C7: [Delete] of an existing issue removes the edges it is an end of,
    its links, its row and then its scope row, in one transaction, and
    the store it leaves satisfies every constraint of the schema again (no
    orphaned scope, no dangling link or edge); the order matters, since
    the issue's row cannot be deleted before its links nor the scope's
    before the issue's.  [Delete] of an identifier that no issue has
    fails and leaves the store unchanged; and on every store a [Delete]
    that fails, at whatever step of its transaction, leaves every table
    as it was. *)
Theorem C7_delete_cascade (w : World) (id : string) :
  (wf_store (db w) ->
   forall i, In i (issues (db w)) -> ID i = id ->
     result_of (Delete id) w = Ok tt
     /\ store_after (Delete id) w = store_without (db w) id (ScopeID i)
     /\ wf_store (store_after (Delete id) w)
     /\ has_issue (store_after (Delete id) w) id = false
     /\ has_scope (store_after (Delete id) w) (ScopeID i) = false
     /\ links_of (store_after (Delete id) w) id = []
     /\ (forall r, In r (related_issues (store_after (Delete id) w)) ->
                   SourceID r <> id /\ TargetID r <> id)
     /\ (forall l, In l (links (db w)) -> IssueID l = id ->
         result_of (delete_issue id) w
         = Err "violates foreign key constraint fk_issues_links")
     /\ result_of (delete_scope (ScopeID i)) w
        = Err "violates foreign key constraint fk_issue_scopes_issue")
  /\ (has_issue (db w) id = false ->
      result_of (Delete id) w = Err ("issue with ID " ++ id ++ " not found")
      /\ store_after (Delete id) w = db w)
  /\ (forall e, result_of (Delete id) w = Err e ->
                store_after (Delete id) w = db w).
Proof.
  split; [|split].
  - intros Hwf i Hi <-.
    pose proof (Delete_existing w i (wf_issue_pk _ Hwf) (wf_scope_unique _ Hwf) Hi)
      as HD.
    unfold result_of, store_after. rewrite HD. cbn [fst snd db with_db].
    split; [reflexivity|].
    split; [reflexivity|]. split; [now apply store_without_wf|].
    repeat split.
    + unfold has_issue. simpl. apply existsb_filter_out. auto.
    + unfold has_scope. simpl. apply existsb_filter_out. auto.
    + unfold links_of. simpl. apply filter_nil_forall. intros l Hl.
      apply filter_In in Hl. destruct Hl as [_ Hl].
      now apply negb_true_iff in Hl.
    + simpl in H. apply filter_In in H. destruct H as [_ H].
      apply negb_true_iff, orb_false_iff in H. now apply String.eqb_neq.
    + simpl in H. apply filter_In in H. destruct H as [_ H].
      apply negb_true_iff, orb_false_iff in H. now apply String.eqb_neq.
    + intros l Hl E. unfold result_of.
      rewrite (delete_issue_refused_while_linked w (ID i) l); auto.
      apply has_issue_true. eauto.
    + unfold result_of. rewrite delete_scope_refused_while_owned; auto.
      now apply (wf_scope_fk _ Hwf).
  - intros H. unfold result_of, store_after.
    now rewrite (Delete_missing w id H).
  - intros e. apply read_then_tx_rollback.
Qed.

Lemma wf_store_ab : wf_store store_ab.
Proof.
  constructor; simpl;
    try (repeat constructor; simpl; intuition discriminate).
  - intros i [<-|[<-|[]]]; reflexivity.
  - intros l [<-|[<-|[<-|[]]]]; reflexivity.
  - intros r [<-|[]]; split; reflexivity.
Qed.

Lemma C7_delete_cascade_witness :
  (result_of (Delete id_a) (world_of store_ab) = Ok tt
   /\ store_after (Delete id_a) (world_of store_ab)
      = mkStore [issue_b]
                [mkIssueScope scope_b "release" "rel-1" "team-a"]
                [mkLink "11111111-0000-4000-8000-000000000003" "rel"
                        "https://rel/1" id_b]
                [])
  /\ (result_of (Delete "no-such-issue") (world_of store_ab)
        = Err "issue with ID no-such-issue not found"
      /\ store_after (Delete "no-such-issue") (world_of store_ab) = store_ab)
  /\ (result_of (Delete id_a) (world_of store_shared_scope)
        = Err "failed to delete issue scope: violates foreign key constraint fk_issue_scopes_issue"
      /\ store_after (Delete id_a) (world_of store_shared_scope)
         = store_shared_scope).
Proof.
  split; [|split].
  - destruct (C7_delete_cascade (world_of store_ab) id_a) as [H _].
    destruct (H wf_store_ab issue_a (or_introl eq_refl) eq_refl)
      as (H1 & H2 & _).
    split; [exact H1|]. rewrite H2. reflexivity.
  - destruct (C7_delete_cascade (world_of store_ab) "no-such-issue")
      as (_ & H & _).
    exact (H eq_refl).
  - destruct (C7_delete_cascade (world_of store_shared_scope) id_a)
      as (_ & _ & H).
    split; [reflexivity|]. exact (H _ eq_refl).
Defined.

(* ------------------------------------------------------------------ *)
(** ** Bulk resolution *)

Lemma in_join_scopes (s : Store) (i : Issue) (sc : IssueScope) :
  In (i, sc) (join_scopes s)
  <-> In i (issues s) /\ In sc (issue_scopes s) /\ ScopeID i = Scope_ID sc.
Proof.
  unfold join_scopes. rewrite in_flat_map. split.
  - intros [j [Hj H]]. apply in_map_iff in H. destruct H as [sc' [E H]].
    inversion E; subst. apply filter_In in H. destruct H as [H1 H2].
    apply String.eqb_eq in H2. auto.
  - intros (Hi & Hsc & E). exists i. split; [exact Hi|].
    apply in_map. apply filter_In. split; [exact Hsc|now apply String.eqb_eq].
Qed.

Lemma plucked_ids_spec (s : Store) (rt rn ns : string) (i : Issue) :
  NoDup (map ID (issues s)) -> In i (issues s) ->
  existsb (String.eqb (ID i))
          (map (fun p => ID (fst p))
               (filter (resolve_where rt rn ns) (join_scopes s)))
  = active_in_scope s rt rn ns i.
Proof.
  intros ND Hi. apply Bool.eq_iff_eq_true. split.
  - intros H. apply existsb_exists in H. destruct H as [id [Hin E]].
    apply String.eqb_eq in E. subst id.
    apply in_map_iff in Hin. destruct Hin as [[j sc] [E Hin]]. simpl in E.
    apply filter_In in Hin. destruct Hin as [Hj Hw].
    apply in_join_scopes in Hj. destruct Hj as (Hj & Hsc & Ejs).
    assert (j = i) by (apply (NoDup_map_inj ID (issues s)); auto). subst j.
    unfold resolve_where in Hw. simpl in Hw.
    apply andb_true_iff in Hw. destruct Hw as [Hw1 Hw2].
    unfold active_in_scope. rewrite Hw1. simpl.
    apply existsb_exists. exists sc. split; [exact Hsc|].
    apply andb_true_iff in Hw2. destruct Hw2 as [Hw2 Hw3].
    rewrite Hw2, Hw3, !andb_true_r. apply String.eqb_eq. auto.
  - unfold active_in_scope. intros H.
    apply andb_true_iff in H. destruct H as [H1 H2].
    apply existsb_exists in H2. destruct H2 as [sc [Hsc H2]].
    rewrite <- andb_assoc in H2. apply andb_true_iff in H2.
    destruct H2 as [E H2]. apply String.eqb_eq in E.
    apply existsb_exists. exists (ID i). split; [|apply String.eqb_refl].
    apply in_map_iff. exists (i, sc). split; [reflexivity|].
    apply filter_In. split.
    + apply in_join_scopes. auto.
    + unfold resolve_where. simpl. now rewrite H1, H2.
Qed.

Lemma apply_resolve_updates (now : Time) (i : Issue) :
  apply_updates (mkUpdates None None None None None (Some now)
                           (Some IssueStateResolved) (Some now)) i
  = resolved_at now i.
Proof. reflexivity. Qed.

Lemma map_if_false {A} (p : A -> bool) (f : A -> A) (l : list A) :
  (forall x, In x l -> p x = false) ->
  map (fun x => if p x then f x else x) l = l.
Proof.
  induction l as [|x r IH]; simpl; intros H; [reflexivity|].
  rewrite (H x), IH; auto.
Qed.

Lemma ResolveByScope_run (w : World) (rt rn ns : string) :
  NoDup (map ID (issues (db w))) ->
  result_of (ResolveByScope rt rn ns) w
  = Ok (Z.of_nat (length (filter (active_in_scope (db w) rt rn ns)
                                 (issues (db w)))))
  /\ store_after (ResolveByScope rt rn ns) w
     = mkStore (map (fun i => if active_in_scope (db w) rt rn ns i
                              then resolved_at (nowAt w (tick w)) i else i)
                    (issues (db w)))
               (issue_scopes (db w)) (links (db w)) (related_issues (db w)).
Proof.
  intros ND. unfold result_of, store_after, ResolveByScope, update_issues. run.
  set (ids := map (fun p => ID (fst p))
                  (filter (resolve_where rt rn ns) (join_scopes (db w)))).
  assert (Hids : forall i, In i (issues (db w)) ->
                 existsb (String.eqb (ID i)) ids
                 = active_in_scope (db w) rt rn ns i).
  { intros i Hi. now apply plucked_ids_spec. }
  destruct (Nat.eqb_spec (length ids) 0) as [E|_].
  - apply length_zero_iff_nil in E.
    assert (Hnone : forall i, In i (issues (db w)) ->
                    active_in_scope (db w) rt rn ns i = false).
    { intros i Hi. rewrite <- (Hids i Hi), E. reflexivity. }
    run. split.
    + apply filter_nil_forall in Hnone. now rewrite Hnone.
    + rewrite (map_if_false _ _ _ Hnone). symmetry. apply store_eta.
  - run. split.
    + do 3 f_equal. now apply filter_ext_in.
    + f_equal. apply map_ext_in. intros i Hi. rewrite (Hids i Hi).
      now rewrite apply_resolve_updates.
Qed.

(** C6: when exactly [k] issues are ACTIVE in the namespace with a scope
    of the given type and name, [ResolveByScope] makes each of them
    RESOLVED with its resolution and update times set to the time of the
    call, returns [k] (so 0, and no error, when there is none), and leaves
    every other issue, RESOLVED ones among them, and every other table
    unchanged. *)
Theorem C6_resolve_by_scope (w : World) (rt rn ns : string) (k : nat) :
  NoDup (map ID (issues (db w))) ->
  length (filter (active_in_scope (db w) rt rn ns) (issues (db w))) = k ->
  let now := nowAt w (tick w) in
  let s' := store_after (ResolveByScope rt rn ns) w in
  result_of (ResolveByScope rt rn ns) w = Ok (Z.of_nat k)
  /\ issues s'
     = map (fun i => if active_in_scope (db w) rt rn ns i
                     then resolved_at now i else i) (issues (db w))
  /\ (forall i, In i (issues (db w)) ->
        active_in_scope (db w) rt rn ns i = true ->
        exists i', In i' (issues s') /\ ID i' = ID i
                   /\ State i' = IssueStateResolved
                   /\ ResolvedAt i' = Some now /\ UpdatedAt i' = now)
  /\ (forall i, In i (issues (db w)) ->
        State i = IssueStateResolved
        \/ active_in_scope (db w) rt rn ns i = false -> In i (issues s'))
  /\ issue_scopes s' = issue_scopes (db w)
  /\ links s' = links (db w)
  /\ related_issues s' = related_issues (db w).
Proof.
  intros ND Hk now s'.
  destruct (ResolveByScope_run w rt rn ns ND) as [HR HS].
  subst s'. rewrite HR, HS, Hk. cbn [issues issue_scopes links related_issues].
  repeat split.
  - intros i Hi Ha. exists (resolved_at now i). repeat split.
    apply in_map_iff. exists i. now rewrite Ha.
  - intros i Hi H. apply in_map_iff. exists i. split; [|exact Hi].
    destruct H as [H|H]; [|now rewrite H].
    unfold active_in_scope. rewrite H. reflexivity.
Qed.

Lemma C6_resolve_by_scope_witness :
  result_of (ResolveByScope "pipelinerun" "build-1" "team-a") (world_of store_ab)
    = Ok 1%Z
  /\ issues (store_after (ResolveByScope "pipelinerun" "build-1" "team-a")
                         (world_of store_ab))
     = [resolved_at 1000%Z issue_a; issue_b]
  /\ result_of (ResolveByScope "void" "void" "void") (world_of store_ab) = Ok 0%Z
  /\ issues (store_after (ResolveByScope "void" "void" "void") (world_of store_ab))
     = [issue_a; issue_b].
Proof.
  destruct (C6_resolve_by_scope (world_of store_ab) "pipelinerun" "build-1"
              "team-a" 1) as (H1 & H2 & _).
  { simpl. repeat constructor; simpl; intuition discriminate. }
  { reflexivity. }
  destruct (C6_resolve_by_scope (world_of store_ab) "void" "void" "void" 0)
    as (H3 & H4 & _).
  { simpl. repeat constructor; simpl; intuition discriminate. }
  { reflexivity. }
  split; [exact H1|]. split; [rewrite H2; reflexivity|].
  split; [exact H3|]. rewrite H4. reflexivity.
Defined.

(* ------------------------------------------------------------------ *)
(** ** Updates *)

Lemma has_issue_map (f : Issue -> Issue) (l : list Issue) (id : string) :
  (forall i, ID (f i) = ID i) ->
  existsb (fun i => ID i =? id) (map f l) = existsb (fun i => ID i =? id) l.
Proof.
  intros H. induction l as [|x r IH]; simpl; [reflexivity|].
  now rewrite H, IH.
Qed.

Lemma has_link_filter (p : Link -> bool) (l : list Link) (u : string) :
  existsb (fun x => Link_ID x =? u) l = false ->
  existsb (fun x => Link_ID x =? u) (filter p l) = false.
Proof.
  intros H. apply existsb_false_filter, filter_nil_forall.
  intros x Hx. apply filter_In in Hx. destruct Hx as [Hx _].
  apply existsb_false_filter in H.
  now apply (proj1 (filter_nil_forall _ _) H).
Qed.

Lemma replaceIssueLinks_create_run (ls : list CreateLinkRequest) :
  forall (w : World) (id : string),
  has_issue (db w) id = true ->
  NoDup (drawn_ids w (length ls)) ->
  Forall (fun u => has_link (db w) u = false) (drawn_ids w (length ls)) ->
  replaceIssueLinks_create id ls w
  = (mkWorld (mkStore (issues (db w)) (issue_scopes (db w))
                      (links (db w) ++ new_links (uuidAt w) (drawn w) id ls)
                      (related_issues (db w)))
             (nowAt w) (tick w) (uuidAt w) (drawn w + length ls),
     Ok tt).
Proof.
  induction ls as [|l rest IH]; intros w id Hi ND Hf.
  - simpl. unfold ret. rewrite app_nil_r, store_eta, Nat.add_0_r.
    now destruct w.
  - cbn [replaceIssueLinks_create]. unfold Create_Link, BeforeCreate_Link,
      insert_link. run.
    unfold drawn_ids in ND, Hf. cbn [length seq map] in ND, Hf.
    inversion ND as [|u us Hu ND']; subst.
    inversion Hf as [|u us Hfu Hf']; subst.
    unfold has_link in Hfu |- *. rewrite Hfu. run. rewrite Hi. run.
    rewrite IH; cbn [db uuidAt drawn nowAt tick issues issue_scopes links
                     related_issues].
    + cbn [length new_links]. rewrite <- app_assoc, Nat.add_succ_r. reflexivity.
    + exact Hi.
    + exact ND'.
    + unfold drawn_ids. cbn [drawn uuidAt].
      rewrite Forall_forall in Hf' |- *. intros u Hu'.
      unfold has_link. cbn [links]. rewrite existsb_app. simpl.
      rewrite orb_false_r. apply orb_false_iff. split.
      * exact (Hf' u Hu').
      * apply String.eqb_neq. intros E. apply Hu. now rewrite E.
Qed.

Lemma new_links_owner (uuid : nat -> string) (ls : list CreateLinkRequest) :
  forall (from : nat) (id : string) (l : Link),
  In l (new_links uuid from id ls) -> IssueID l = id.
Proof.
  induction ls as [|x r IH]; simpl; intros from id l H; [contradiction|].
  destruct H as [<-|H]; [reflexivity|eauto].
Qed.

Lemma new_links_ids (uuid : nat -> string) (ls : list CreateLinkRequest) :
  forall (from : nat) (id : string) (l : Link),
  In l (new_links uuid from id ls) ->
  In (Link_ID l) (map uuid (seq from (length ls))).
Proof.
  induction ls as [|x r IH]; simpl; intros from id l H; [contradiction|].
  destruct H as [<-|H]; [left; reflexivity|right; eauto].
Qed.

Lemma new_links_shape (uuid : nat -> string) (ls : list CreateLinkRequest) :
  forall (from : nat) (id : string),
  map (fun l => mkLinkReq (Link_Title l) (URL l)) (new_links uuid from id ls) = ls.
Proof.
  induction ls as [|[t u] r IH]; simpl; intros from id; [reflexivity|].
  now rewrite IH.
Qed.

Lemma replaceIssueLinks_run (w : World) (id : string) (ls : list CreateLinkRequest) :
  has_issue (db w) id = true -> fresh_links w (length ls) ->
  replaceIssueLinks id ls w
  = (mkWorld (mkStore (issues (db w)) (issue_scopes (db w))
                      (filter (fun l => negb (IssueID l =? id)) (links (db w))
                       ++ new_links (uuidAt w) (drawn w) id ls)
                      (related_issues (db w)))
             (nowAt w) (tick w) (uuidAt w) (drawn w + length ls),
     Ok tt).
Proof.
  intros Hi [ND Hf]. unfold replaceIssueLinks, delete_links_of. run.
  change (mkWorld ?s (nowAt w) (tick w) (uuidAt w) (drawn w))
    with (with_db w s).
  rewrite replaceIssueLinks_create_run; cbn [with_db db uuidAt drawn nowAt tick
    issues issue_scopes links related_issues]; auto.
  rewrite Forall_forall in Hf |- *. intros u Hu.
  unfold has_link. cbn [links]. apply has_link_filter. exact (Hf u Hu).
Qed.

Lemma updateIssueInTx_run (w : World) (e : Issue) (req : IssuePayload) :
  has_issue (db w) (ID e) = true ->
  fresh_links w (length (GetLinks req)) ->
  exists w', updateIssueInTx e req w = (w', Ok tt)
    /\ issues (db w')
       = map (fun i => if ID i =? ID e
                       then apply_updates
                              (issue_updates e req (nowAt w (tick w))
                                             (nowAt w (S (tick w)))) i
                       else i) (issues (db w))
    /\ issue_scopes (db w')
       = (if scopeReq_eqb (GetScope req) emptyScopeReq then issue_scopes (db w)
          else map (fun sc => if Scope_ID sc =? ScopeID e
                              then apply_scope_updates (GetScope req) sc else sc)
                   (issue_scopes (db w)))
    /\ links (db w')
       = (match GetLinks req with
          | [] => links (db w)
          | _ => (filter (fun l => negb (IssueID l =? ID e)) (links (db w))
                  ++ new_links (uuidAt w) (drawn w) (ID e) (GetLinks req))%list
          end)
    /\ related_issues (db w') = related_issues (db w)
    /\ uuidAt w' = uuidAt w /\ nowAt w' = nowAt w
    /\ drawn w' = drawn w + length (GetLinks req).
Proof.
  intros Hi Hf. unfold updateIssueInTx, update_issues, updateIssueScopeInTx, update_scopes.
  unfold issue_updates, resolves, AsOptional.
  assert (Hl : forall (w1 : World),
             db w1 = mkStore (map (fun i => if ID i =? ID e
                                            then apply_updates
                                                   (issue_updates e req (nowAt w (tick w))
                                                      (nowAt w (S (tick w)))) i
                                            else i) (issues (db w)))
                             (issue_scopes (db w)) (links (db w))
                             (related_issues (db w)) ->
             uuidAt w1 = uuidAt w -> drawn w1 = drawn w ->
             GetLinks req <> [] ->
             replaceIssueLinks (ID e) (GetLinks req) w1
             = (mkWorld (mkStore (issues (db w1)) (issue_scopes (db w1))
                           (filter (fun l => negb (IssueID l =? ID e)) (links (db w1))
                            ++ new_links (uuidAt w1) (drawn w1) (ID e) (GetLinks req))
                           (related_issues (db w1)))
                        (nowAt w1) (tick w1) (uuidAt w1)
                        (drawn w1 + length (GetLinks req)), Ok tt)).
  { intros w1 E1 E2 E3 _. apply replaceIssueLinks_run.
    - unfold has_issue. rewrite E1. cbn [issues].
      rewrite has_issue_map; [exact Hi|].
      intros i. now destruct (ID i =? ID e).
    - unfold fresh_links, drawn_ids, has_link in *. rewrite E1, E2, E3.
      cbn [links]. exact Hf. }
  unfold issue_updates, resolves in Hl.
  destruct (GetState req =? "");
    [|destruct ((GetState req =? IssueStateResolved)
                && negb (State e =? IssueStateResolved));
      [|destruct (IsZero (GetResolvedAt req))]];
    run;
    (destruct (GetLinks req) as [|c l] eqn:EL;
     [|cbn [length Nat.eqb negb]; run;
       rewrite Hl by (reflexivity || discriminate)];
     run; destruct (scopeReq_eqb (GetScope req) emptyScopeReq); run;
     eexists; (split; [reflexivity|]); cbn [db issues issue_scopes links
       related_issues uuidAt nowAt drawn length];
     rewrite ?Nat.add_0_r; repeat split; now rewrite ?EL).
Qed.

Lemma Update_run (w : World) (id : string) (req : IssuePayload) :
  has_issue (db w) id = true ->
  fresh_links w (length (GetLinks req)) ->
  exists e w' v,
    In e (issues (db w)) /\ ID e = id
    /\ Update id req w = (w', Ok (Some v))
    /\ In (iv_Issue v) (issues (db w')) /\ ID (iv_Issue v) = id
    /\ iv_Links v = links_of (db w') id
    /\ issues (db w')
       = map (fun i => if ID i =? id
                       then apply_updates
                              (issue_updates e req (nowAt w (tick w))
                                             (nowAt w (S (tick w)))) i
                       else i) (issues (db w))
    /\ issue_scopes (db w')
       = (if scopeReq_eqb (GetScope req) emptyScopeReq then issue_scopes (db w)
          else map (fun sc => if Scope_ID sc =? ScopeID e
                              then apply_scope_updates (GetScope req) sc else sc)
                   (issue_scopes (db w)))
    /\ links (db w')
       = (match GetLinks req with
          | [] => links (db w)
          | _ => (filter (fun l => negb (IssueID l =? id)) (links (db w))
                  ++ new_links (uuidAt w) (drawn w) id (GetLinks req))%list
          end)
    /\ related_issues (db w') = related_issues (db w).
Proof.
  intros Hi Hf.
  destruct (FindByID_found w id Hi) as (ev & Hfind & Hin & Hid & _).
  assert (Hi' : has_issue (db w) (ID (iv_Issue ev)) = true) by now rewrite Hid.
  destruct (updateIssueInTx_run w (iv_Issue ev) req Hi' Hf)
    as (w' & Hrun & HI & HS & HL & HR & _).
  rewrite Hid in HI, HL.
  assert (Hi2 : has_issue (db w') id = true).
  { unfold has_issue. rewrite HI. rewrite has_issue_map; [exact Hi|].
    intros i. now destruct (ID i =? id). }
  destruct (FindByID_found w' id Hi2) as (v & Hfind2 & Hin2 & Hid2 & Hlinks2).
  exists (iv_Issue ev), w', v.
  repeat split; auto.
  unfold Update, bind. rewrite Hfind. unfold Transaction. rewrite Hrun.
  exact Hfind2.
Qed.

Lemma filter_filter_sub {A} (p q : A -> bool) (l : list A) :
  (forall x, p x = true -> q x = true) ->
  filter p (filter q l) = filter p l.
Proof.
  intros H. induction l as [|x r IH]; simpl; [reflexivity|].
  destruct (q x) eqn:Q; simpl.
  - now rewrite IH.
  - destruct (p x) eqn:P; [|exact IH].
    rewrite (H x P) in Q. discriminate.
Qed.

Lemma filter_all_true {A} (p : A -> bool) (l : list A) :
  (forall x, In x l -> p x = true) -> filter p l = l.
Proof.
  induction l as [|x r IH]; simpl; intros H; [reflexivity|].
  rewrite (H x), IH; auto.
Qed.

Lemma links_of_replaced (s : Store) (id other : string) (news : list Link) :
  (forall l, In l news -> IssueID l = id) ->
  filter (fun l => IssueID l =? other)
         (filter (fun l => negb (IssueID l =? id)) (links s) ++ news)
  = if other =? id then news else links_of s other.
Proof.
  intros Hown. rewrite filter_app.
  destruct (String.eqb_spec other id) as [->|Hne].
  - rewrite (filter_all_true _ news)
      by (intros l Hl; apply String.eqb_eq; auto).
    replace (filter _ (filter _ (links s))) with (@nil Link); [reflexivity|].
    symmetry. apply filter_nil_forall. intros l Hl.
    apply filter_In in Hl. destruct Hl as [_ Hl].
    now apply negb_true_iff in Hl.
  - replace (filter (fun l => IssueID l =? other) news) with (@nil Link).
    + rewrite app_nil_r. apply filter_filter_sub.
      intros l E. apply String.eqb_eq in E. apply negb_true_iff.
      apply String.eqb_neq. congruence.
    + symmetry. apply filter_nil_forall. intros l Hl.
      apply String.eqb_neq. rewrite (Hown l Hl). congruence.
Qed.

Lemma title_only_updates (e : Issue) (title : string) (t1 t2 : Time) (i : Issue) :
  title <> "" ->
  apply_updates (issue_updates e (title_only title) t1 t2) i = retitled title t1 i.
Proof.
  intros H. unfold issue_updates, title_only, opt_nonempty. simpl.
  apply String.eqb_neq in H. rewrite H. reflexivity.
Qed.

(** C9: on an existing issue, an update that supplies only a non-empty
    title changes the title and the update time of that issue's row and
    nothing else in the store; an update that supplies a non-empty list of
    links deletes every link the issue had and leaves it with exactly the
    supplied links, in their order, the links of other issues untouched. *)
Theorem C9_sparse_update (w : World) (id title : string) (req : IssuePayload) :
  has_issue (db w) id = true ->
  (title <> "" ->
   let s' := store_after (Update id (title_only title)) w in
   (exists v, result_of (Update id (title_only title)) w = Ok (Some v)
              /\ ID (iv_Issue v) = id /\ Title (iv_Issue v) = title)
   /\ issues s' = map (fun i => if ID i =? id
                                then retitled title (nowAt w (tick w)) i else i)
                      (issues (db w))
   /\ issue_scopes s' = issue_scopes (db w)
   /\ links s' = links (db w)
   /\ related_issues s' = related_issues (db w))
  /\ (GetLinks req <> [] -> fresh_links w (length (GetLinks req)) ->
      let s' := store_after (Update id req) w in
      (exists v, result_of (Update id req) w = Ok (Some v)
                 /\ ID (iv_Issue v) = id
                 /\ iv_Links v = new_links (uuidAt w) (drawn w) id (GetLinks req))
      /\ links_of s' id = new_links (uuidAt w) (drawn w) id (GetLinks req)
      /\ map (fun l => mkLinkReq (Link_Title l) (URL l)) (links_of s' id)
         = GetLinks req
      /\ (forall l, In l (links_of (db w) id) -> ~ In l (links s'))
      /\ (forall other, other <> id -> links_of s' other = links_of (db w) other)).
Proof.
  intros Hi. split.
  - intros Ht s'.
    assert (Hf : fresh_links w (length (GetLinks (title_only title)))).
    { split; simpl; constructor. }
    destruct (Update_run w id (title_only title) Hi Hf)
      as (e & w' & v & He & Hid & HU & Hv & Hvid & _ & HI & HS & HL & HR).
    subst s'. unfold store_after, result_of. rewrite HU. cbn [fst snd].
    assert (HI' : issues (db w')
                  = map (fun i => if ID i =? id
                                  then retitled title (nowAt w (tick w)) i else i)
                        (issues (db w))).
    { rewrite HI. apply map_ext. intros i.
      now rewrite title_only_updates. }
    split; [|repeat split; auto].
    exists v. repeat split; auto.
    rewrite HI' in Hv. apply in_map_iff in Hv. destruct Hv as [i [E _]].
    destruct (String.eqb_spec (ID i) id) as [_|Hne].
    + now rewrite <- E.
    + exfalso. apply Hne. now rewrite E.
  - intros Hne Hf s'.
    destruct (Update_run w id req Hi Hf)
      as (e & w' & v & He & Hid & HU & Hv & Hvid & Hvl & HI & HS & HL & HR).
    subst s'. unfold store_after, result_of. rewrite HU. cbn [fst snd].
    assert (HL' : links (db w')
                  = (filter (fun l => negb (IssueID l =? id)) (links (db w))
                     ++ new_links (uuidAt w) (drawn w) id (GetLinks req))%list).
    { rewrite HL. destruct (GetLinks req); [congruence|reflexivity]. }
    assert (Hlo : forall other,
               links_of (db w') other
               = if other =? id
                 then new_links (uuidAt w) (drawn w) id (GetLinks req)
                 else links_of (db w) other).
    { intros other. unfold links_of at 1. rewrite HL'.
      apply links_of_replaced. apply new_links_owner. }
    assert (Hid' : links_of (db w') id
                   = new_links (uuidAt w) (drawn w) id (GetLinks req)).
    { now rewrite Hlo, String.eqb_refl. }
    repeat split.
    + exists v. repeat split; auto. now rewrite Hvl.
    + exact Hid'.
    + rewrite Hid'. apply new_links_shape.
    + intros l Hl Hin. rewrite HL' in Hin.
      unfold links_of in Hl. apply filter_In in Hl. destruct Hl as [Hl Ho].
      apply in_app_or in Hin. destruct Hin as [Hin|Hin].
      * apply filter_In in Hin. destruct Hin as [_ Hin].
        rewrite Ho in Hin. discriminate.
      * apply new_links_ids in Hin. destruct Hf as [_ Hf].
        rewrite Forall_forall in Hf. specialize (Hf _ Hin).
        unfold has_link in Hf. apply existsb_false_filter in Hf.
        rewrite filter_nil_forall in Hf. specialize (Hf l Hl).
        rewrite String.eqb_refl in Hf. discriminate.
    + intros other Ho. rewrite Hlo.
      apply String.eqb_neq in Ho. now rewrite Ho.
Qed.

Lemma C9_sparse_update_witness :
  issues (store_after (Update id_a (title_only "X")) (world_of store_ab))
    = [retitled "X" 1000%Z issue_a; issue_b]
  /\ links (store_after (Update id_a (title_only "X")) (world_of store_ab))
     = links store_ab
  /\ links_of (store_after (Update id_a links_only_req) (world_of store_ab)) id_a
     = [mkLink "00000000-0000-4000-8000-000000000001" "new logs"
               "https://logs/2" id_a].
Proof.
  destruct (C9_sparse_update (world_of store_ab) id_a "X" links_only_req eq_refl)
    as [H1 H2].
  destruct H1 as (_ & HI & _ & HL & _); [discriminate|].
  destruct H2 as (_ & HN & _); [discriminate|split; repeat constructor; auto|].
  split; [rewrite HI; reflexivity|]. split; [exact HL|].
  rewrite HN. reflexivity.
Defined.

(* ------------------------------------------------------------------ *)
(** ** The dedup resolver *)

Lemma findDuplicateInTx_run (w : World) (req : IssuePayload) :
  findDuplicateInTx req w
  = (w, Ok (match First (map fst (filter (duplicate_where req)
                                         (join_scopes (db w)))) with
            | None => None
            | Some i => Some (mkIssueView i zeroScope (links_of (db w) (ID i)) [] [])
            end)).
Proof.
  unfold findDuplicateInTx. run.
  now destruct (First (map fst (filter (duplicate_where req) (join_scopes (db w))))).
Qed.

Lemma findDuplicateInTx_some (w : World) (req : IssuePayload) (e : IssueView) :
  result_of (findDuplicateInTx req) w = Ok (Some e) ->
  exists sc, In (iv_Issue e) (issues (db w)) /\ In sc (issue_scopes (db w))
             /\ ScopeID (iv_Issue e) = Scope_ID sc
             /\ duplicate_where req (iv_Issue e, sc) = true.
Proof.
  unfold result_of. rewrite findDuplicateInTx_run. cbn [snd].
  destruct (First _) as [i|] eqn:F; [|discriminate].
  intros [= <-]. cbn [iv_Issue].
  apply First_In, in_map_iff in F. destruct F as [[j sc] [E H]].
  simpl in E. subst j. apply filter_In in H. destruct H as [H1 H2].
  apply in_join_scopes in H1. exists sc. tauto.
Qed.

Lemma findDuplicateInTx_none (w : World) (req : IssuePayload) :
  result_of (findDuplicateInTx req) w = Ok None
  <-> (forall i sc, In (i, sc) (join_scopes (db w)) ->
                    duplicate_where req (i, sc) = false).
Proof.
  unfold result_of. rewrite findDuplicateInTx_run. cbn [snd]. split.
  - destruct (First _) as [i|] eqn:F; [discriminate|]. intros _ i sc Hin.
    apply First_None in F. apply map_eq_nil in F.
    exact (proj1 (filter_nil_forall _ _) F (i, sc) Hin).
  - intros H.
    replace (filter (duplicate_where req) (join_scopes (db w)))
      with (@nil (Issue * IssueScope)); [reflexivity|].
    symmetry. apply filter_nil_forall. intros [i sc]. apply H.
Qed.

Lemma in_updated (id : string) (f : Issue -> Issue) (l : list Issue) (x : Issue) :
  (forall i, ID (f i) = ID i) ->
  In x (map (fun i => if ID i =? id then f i else i) l) -> ID x = id ->
  exists i, In i l /\ ID i = id /\ x = f i.
Proof.
  intros Hf Hin Hid. apply in_map_iff in Hin. destruct Hin as [i [E Hi]].
  exists i. destruct (String.eqb_spec (ID i) id) as [Ei|Hne].
  - auto.
  - exfalso. apply Hne. now rewrite E.
Qed.

Lemma NoDup_ids_updated (id : string) (f : Issue -> Issue) (l : list Issue) :
  (forall i, ID (f i) = ID i) ->
  map ID (map (fun i => if ID i =? id then f i else i) l) = map ID l.
Proof.
  intros Hf. rewrite map_map. apply map_ext. intros i.
  now destruct (ID i =? id).
Qed.

(** [CreateOrUpdate] on a report the resolver matches: the matched row
    is updated and returned, and no row is added to any table but
    [links]. *)
Lemma CreateOrUpdate_matched (w : World) (req : IssuePayload) (e : IssueView) :
  NoDup (map ID (issues (db w))) ->
  result_of (findDuplicateInTx req) w = Ok (Some e) ->
  fresh_links w (length (GetLinks req)) ->
  exists w' v,
    CreateOrUpdate req w = (w', Ok (Some v))
    /\ iv_Issue v
       = apply_updates (issue_updates (iv_Issue e) req (nowAt w (tick w))
                                      (nowAt w (S (tick w)))) (iv_Issue e)
    /\ issues (db w')
       = map (fun i => if ID i =? ID (iv_Issue e)
                       then apply_updates
                              (issue_updates (iv_Issue e) req (nowAt w (tick w))
                                             (nowAt w (S (tick w)))) i
                       else i) (issues (db w))
    /\ map Scope_ID (issue_scopes (db w')) = map Scope_ID (issue_scopes (db w))
    /\ related_issues (db w') = related_issues (db w)
    /\ issue_scopes (db w')
       = (if scopeReq_eqb (GetScope req) emptyScopeReq then issue_scopes (db w)
          else map (fun sc => if Scope_ID sc =? ScopeID (iv_Issue e)
                              then apply_scope_updates (GetScope req) sc else sc)
                   (issue_scopes (db w)))
    /\ links (db w')
       = (match GetLinks req with
          | [] => links (db w)
          | _ => (filter (fun l => negb (IssueID l =? ID (iv_Issue e))) (links (db w))
                  ++ new_links (uuidAt w) (drawn w) (ID (iv_Issue e)) (GetLinks req))%list
          end)
    /\ uuidAt w' = uuidAt w
    /\ drawn w' = drawn w + length (GetLinks req).
Proof.
  intros ND Hfind Hf.
  destruct (findDuplicateInTx_some w req e Hfind) as (sc & Hin & _).
  assert (Hi : has_issue (db w) (ID (iv_Issue e)) = true).
  { apply has_issue_true. eauto. }
  destruct (updateIssueInTx_run w (iv_Issue e) req Hi Hf)
    as (w' & Hrun & HI & HS & HL & HR & HU & _ & HD).
  assert (ND' : NoDup (map ID (issues (db w')))).
  { rewrite HI, NoDup_ids_updated; auto. }
  set (u := issue_updates (iv_Issue e) req (nowAt w (tick w)) (nowAt w (S (tick w)))) in *.
  assert (Hin' : In (apply_updates u (iv_Issue e)) (issues (db w'))).
  { rewrite HI. apply in_map_iff. exists (iv_Issue e).
    now rewrite String.eqb_refl. }
  destruct (FindByID_unique w' _ ND' Hin') as (v & Hv & Hvi & _).
  exists w', v. repeat split; auto.
  - unfold CreateOrUpdate, bind at 1, Transaction, bind at 1, wrap.
    unfold result_of in Hfind. rewrite findDuplicateInTx_run in Hfind |- *.
    cbn [snd] in Hfind. injection Hfind as Hfind. rewrite Hfind.
    unfold bind at 1. rewrite Hrun. run. exact Hv.
  - rewrite HS. destruct (scopeReq_eqb _ _); [reflexivity|].
    rewrite map_map. apply map_ext. intros x.
    now destruct (Scope_ID x =? _).
Qed.

(* ------------------------------------------------------------------ *)
(** ** Repeated reports about a resource of the reporter's namespace *)

Lemma First_map_keys (f : Issue -> Issue) (l : list Issue) :
  (forall i, ID (f i) = ID i) ->
  First (map f l) = option_map f (First l).
Proof.
  intros Hf. induction l as [|x r IH]; simpl; [reflexivity|].
  rewrite IH. destruct (First r) as [j|]; simpl; [|reflexivity].
  rewrite !Hf. now destruct (String.leb (ID x) (ID j)).
Qed.

Lemma join_scopes_map_issues (s s' : Store) (f : Issue -> Issue) :
  issues s' = map f (issues s) -> issue_scopes s' = issue_scopes s ->
  (forall i, ScopeID (f i) = ScopeID i) ->
  join_scopes s' = map (fun p => (f (fst p), snd p)) (join_scopes s).
Proof.
  intros HI HS Hf. unfold join_scopes. rewrite HI, HS. clear HI HS.
  induction (issues s) as [|x r IH]; simpl; [reflexivity|].
  rewrite map_app, IH, Hf, !map_map. reflexivity.
Qed.

Lemma filter_map_commute {A} (p : A -> bool) (g : A -> A) (l : list A) :
  (forall x, In x l -> p (g x) = p x) ->
  filter p (map g l) = map g (filter p l).
Proof.
  induction l as [|x r IH]; simpl; intros H; [reflexivity|].
  rewrite (H x) by auto. rewrite IH by auto. now destruct (p x).
Qed.

Lemma findDuplicateInTx_same_key (a b : IssuePayload) (w : World) :
  same_key a b -> findDuplicateInTx a w = findDuplicateInTx b w.
Proof.
  intros (E1 & E2 & E3). rewrite !findDuplicateInTx_run.
  replace (filter (duplicate_where a) (join_scopes (db w)))
    with (filter (duplicate_where b) (join_scopes (db w))); [reflexivity|].
  apply filter_ext. intros p. unfold duplicate_where.
  now rewrite E1, E2, E3.
Qed.

Lemma apply_scope_updates_same (req : IssuePayload) (sc : IssueScope) :
  own_namespace req ->
  ResourceType sc = GetResourceType (GetScope req) ->
  ResourceName sc = GetResourceName (GetScope req) ->
  ResourceNamespace sc = GetNamespace req ->
  apply_scope_updates (GetScope req) sc = sc.
Proof.
  intros Hown E1 E2 E3. destruct sc as [id rt rn rns]. simpl in *.
  unfold apply_scope_updates. simpl. subst rt rn rns.
  destruct (GetResourceType (GetScope req) =? "");
    destruct (GetResourceName (GetScope req) =? "");
    destruct (String.eqb_spec (GetResourceNamespace (GetScope req)) "") as [E|NE];
    try reflexivity; destruct Hown as [H|H]; try congruence;
    now rewrite H.
Qed.

(** The issue columns that the resolver reads keep matching the report
    after the report is applied to a row that matched it. *)
Lemma update_keeps_match (req : IssuePayload) (e : Issue) (u : IssueUpdates) :
  valid_state req ->
  u_namespace u = opt_nonempty (GetNamespace req) ->
  u_issue_type u = opt_nonempty (GetIssueType req) ->
  u_state u = opt_nonempty (GetState req) ->
  Namespace e = GetNamespace req -> IssueType_ e = GetIssueType req ->
  State e = IssueStateActive \/ State e = IssueStateResolved ->
  Namespace (apply_updates u e) = GetNamespace req
  /\ IssueType_ (apply_updates u e) = GetIssueType req
  /\ (State (apply_updates u e) = IssueStateActive
      \/ State (apply_updates u e) = IssueStateResolved).
Proof.
  intros Hv U1 U2 U3 E1 E2 E3. unfold apply_updates. simpl.
  rewrite U1, U2, U3. unfold opt_nonempty.
  repeat split.
  - destruct (GetNamespace req =? ""); simpl; auto.
  - destruct (GetIssueType req =? ""); simpl; auto.
  - destruct (String.eqb_spec (GetState req) "") as [E|NE]; simpl; [exact E3|].
    destruct Hv as [H|[H|H]]; [congruence|left|right]; exact H.
Qed.

(** A report with no state of its own that the resolver matches to a
    RESOLVED issue creates no issue and no scope and returns that issue
    under its identifier, still RESOLVED, with the resolution time it
    had. *)
Lemma matched_resolved_issue_stays_resolved
        (w : World) (req : IssuePayload) (e : IssueView) :
  NoDup (map ID (issues (db w))) ->
  GetState req = "" ->
  result_of (findDuplicateInTx req) w = Ok (Some e) ->
  State (iv_Issue e) = IssueStateResolved ->
  fresh_links w (length (GetLinks req)) ->
  exists v,
    result_of (CreateOrUpdate req) w = Ok (Some v)
    /\ ID (iv_Issue v) = ID (iv_Issue e)
    /\ State (iv_Issue v) = IssueStateResolved
    /\ ResolvedAt (iv_Issue v) = ResolvedAt (iv_Issue e)
    /\ In (iv_Issue v) (issues (store_after (CreateOrUpdate req) w))
    /\ map ID (issues (store_after (CreateOrUpdate req) w))
       = map ID (issues (db w))
    /\ map Scope_ID (issue_scopes (store_after (CreateOrUpdate req) w))
       = map Scope_ID (issue_scopes (db w)).
Proof.
  intros ND Hs Hfind Hres Hf.
  destruct (CreateOrUpdate_matched w req e ND Hfind Hf)
    as (w' & v & HC & Hv & HI & HS & _).
  exists v. unfold result_of, store_after. rewrite HC. cbn [fst snd].
  rewrite Hv. unfold issue_updates. rewrite Hs. cbn.
  repeat split; auto.
  - rewrite HI. apply in_map_iff. exists (iv_Issue e).
    rewrite String.eqb_refl. split.
    + unfold issue_updates. rewrite Hs. reflexivity.
    + destruct (findDuplicateInTx_some w req e Hfind) as (sc & Hin & _).
      exact Hin.
  - rewrite HI. now apply NoDup_ids_updated.
Qed.

(** C3, at the inputs where the code departs from it.  A report that
    names no state and has the dedup key of a stored RESOLVED issue does
    not reopen it.  When the resource is of the reporter's own namespace,
    the resolver returns the RESOLVED issue and [CreateOrUpdate] gives it
    back under its identifier with no row added, but still RESOLVED, with
    the resolution time it had, not ACTIVE.  When the resource is of
    another namespace, the resolver does not find the RESOLVED issue, and
    [CreateOrUpdate] creates an ACTIVE sibling of the same dedup key
    under a new identifier, leaving the first one RESOLVED. *)
Theorem C3_resolved_issue_is_not_reopened :
  (In (issue_b, scope_row_b) (join_scopes store_ab)
   /\ same_dedup_key report_b issue_b scope_row_b
   /\ State issue_b = IssueStateResolved
   /\ GetState report_b = ""
   /\ exists v,
        result_of (CreateOrUpdate report_b) (world_of store_ab) = Ok (Some v)
        /\ ID (iv_Issue v) = id_b
        /\ In (iv_Issue v)
              (issues (store_after (CreateOrUpdate report_b) (world_of store_ab)))
        /\ State (iv_Issue v) = IssueStateResolved
        /\ State (iv_Issue v) <> IssueStateActive
        /\ ResolvedAt (iv_Issue v) = Some 30%Z
        /\ map ID (issues (store_after (CreateOrUpdate report_b)
                                       (world_of store_ab)))
           = [id_a; id_b])
  /\ (In (issue_c_resolved, scope_row_c) (join_scopes store_cross_resolved)
      /\ same_dedup_key report_cross issue_c_resolved scope_row_c
      /\ State issue_c_resolved = IssueStateResolved
      /\ GetState report_cross = ""
      /\ exists v,
           result_of (CreateOrUpdate report_cross) (world_of store_cross_resolved)
           = Ok (Some v)
           /\ ID (iv_Issue v) <> id_c
           /\ State (iv_Issue v) = IssueStateActive
           /\ In issue_c_resolved
                 (issues (store_after (CreateOrUpdate report_cross)
                                      (world_of store_cross_resolved)))
           /\ map ID (rows_with_key
                        (store_after (CreateOrUpdate report_cross)
                                     (world_of store_cross_resolved))
                        report_cross)
              = [id_c; ID (iv_Issue v)]).
Proof.
  split.
  - split; [right; left; reflexivity|]. split; [repeat split|].
    split; [reflexivity|]. split; [reflexivity|].
    eexists. split; [vm_compute; reflexivity|].
    split; [reflexivity|]. split; [right; left; reflexivity|].
    split; [reflexivity|]. split; [discriminate|]. split; reflexivity.
  - split; [left; reflexivity|]. split; [repeat split|].
    split; [reflexivity|]. split; [reflexivity|].
    eexists. split; [vm_compute; reflexivity|].
    split; [discriminate|]. split; [reflexivity|].
    split; [left; reflexivity|reflexivity].
Qed.

(* ------------------------------------------------------------------ *)
(** ** Resolution time *)

(** C5, as the code has it: an update that supplies state RESOLVED to an
    issue that is not RESOLVED stores, as its resolution time, the time
    the clock gives during the update, whether or not the update names a
    resolution time.  The resolution time the update names is stored only
    when the update supplies a state without being such a transition
    (the state supplied is not RESOLVED, or the issue is RESOLVED
    already); an update that supplies no state leaves the state and the
    resolution time as they were, whatever time it names, and so does an
    update that supplies a state, is no such transition and names no
    time. *)
Theorem C5_transition_stamps_the_clock
        (w : World) (e : Issue) (req : IssuePayload) :
  NoDup (map ID (issues (db w))) ->
  In e (issues (db w)) ->
  fresh_links w (length (GetLinks req)) ->
  exists v,
    result_of (Update (ID e) req) w = Ok (Some v)
    /\ ID (iv_Issue v) = ID e
    /\ In (iv_Issue v) (issues (store_after (Update (ID e) req) w))
    /\ (GetState req <> "" -> State (iv_Issue v) = GetState req)
    /\ (GetState req = IssueStateResolved -> State e <> IssueStateResolved ->
        ResolvedAt (iv_Issue v) = Some (nowAt w (S (tick w))))
    /\ (GetState req <> "" ->
        GetState req <> IssueStateResolved \/ State e = IssueStateResolved ->
        GetResolvedAt req <> 0%Z ->
        ResolvedAt (iv_Issue v) = Some (GetResolvedAt req))
    /\ (GetState req <> "" ->
        GetState req <> IssueStateResolved \/ State e = IssueStateResolved ->
        GetResolvedAt req = 0%Z ->
        ResolvedAt (iv_Issue v) = ResolvedAt e)
    /\ (GetState req = "" ->
        State (iv_Issue v) = State e
        /\ ResolvedAt (iv_Issue v) = ResolvedAt e).
Proof.
  intros ND He Hf.
  assert (Hi : has_issue (db w) (ID e) = true) by (apply has_issue_true; eauto).
  destruct (Update_run w (ID e) req Hi Hf)
    as (e' & w' & v & He' & Hid & HU & Hv & Hvid & _ & HI & _).
  assert (e' = e) by (apply (NoDup_map_inj ID (issues (db w))); auto).
  subst e'. exists v. unfold result_of, store_after. rewrite HU. cbn [fst snd].
  split; [reflexivity|]. split; [exact Hvid|]. split; [exact Hv|].
  rewrite HI in Hv. apply in_updated in Hv; auto.
  destruct Hv as (i & Hi' & Hii & ->).
  assert (i = e) by (apply (NoDup_map_inj ID (issues (db w))); auto).
  subst i.
  unfold issue_updates, apply_updates, opt_nonempty, resolves.
  cbn [State ResolvedAt u_state u_resolved_at or_keep].
  assert (Hother : GetState req <> IssueStateResolved
                   \/ State e = IssueStateResolved ->
                   (GetState req =? IssueStateResolved)
                   && negb (State e =? IssueStateResolved) = false).
  { intros [E1|E1].
    - apply String.eqb_neq in E1. now rewrite E1.
    - apply String.eqb_eq in E1. rewrite E1. apply andb_false_r. }
  split; [|split; [|split; [|split]]].
  - intros Hst. apply String.eqb_neq in Hst. now rewrite Hst.
  - intros E1 E2. rewrite E1. cbn [String.eqb Ascii.eqb Bool.eqb].
    apply String.eqb_neq in E2. now rewrite E2.
  - intros Hst E1 E2. apply String.eqb_neq in Hst. rewrite Hst, (Hother E1).
    unfold IsZero. apply Z.eqb_neq in E2. now rewrite E2.
  - intros Hst E1 E2. apply String.eqb_neq in Hst. rewrite Hst, (Hother E1).
    unfold IsZero. rewrite E2. reflexivity.
  - intros Hst. rewrite Hst. split; reflexivity.
Qed.

Lemma C5_transition_stamps_the_clock_witness :
  (exists v,
     result_of (Update id_a resolve_at_500) (world_of store_ab) = Ok (Some v)
     /\ State (iv_Issue v) = IssueStateResolved
     /\ ResolvedAt (iv_Issue v) = Some 1001%Z)
  /\ (exists v,
        result_of (Update id_a time_only_req) (world_of store_ab) = Ok (Some v)
        /\ State (iv_Issue v) = IssueStateActive
        /\ ResolvedAt (iv_Issue v) = None)
  /\ (exists v,
        result_of (Update id_b resolve_at_500) (world_of store_ab) = Ok (Some v)
        /\ ResolvedAt (iv_Issue v) = Some 500%Z).
Proof.
  assert (ND : NoDup (map ID (issues (db (world_of store_ab)))))
    by exact (wf_issue_pk _ wf_store_ab).
  destruct (C5_transition_stamps_the_clock (world_of store_ab) issue_a
              resolve_at_500 ND) as (v & H1 & _ & _ & H2 & H3 & _);
    [left; reflexivity|split; constructor|].
  destruct (C5_transition_stamps_the_clock (world_of store_ab) issue_a
              time_only_req ND) as (v' & H1' & _ & _ & _ & _ & _ & _ & H4');
    [left; reflexivity|split; constructor|].
  destruct (C5_transition_stamps_the_clock (world_of store_ab) issue_b
              resolve_at_500 ND) as (v'' & H1'' & _ & _ & _ & _ & H3'' & _);
    [right; left; reflexivity|split; constructor|].
  split; [|split].
  - exists v. split; [exact H1|]. split; [apply H2; discriminate|].
    apply H3; [reflexivity|discriminate].
  - exists v'. split; [exact H1'|]. exact (H4' eq_refl).
  - exists v''. split; [exact H1''|].
    apply H3''; [discriminate|right; reflexivity|discriminate].
Defined.

(** The claim of C5 fails on an ACTIVE issue resolved by an update that
    names 500 as the resolution time: what is stored is the reading of
    the clock, 1001, not 500. *)
Lemma C5_counterexample :
  State issue_a <> IssueStateResolved
  /\ GetState resolve_at_500 = IssueStateResolved
  /\ GetResolvedAt resolve_at_500 = 500%Z
  /\ (exists v,
        result_of (Update id_a resolve_at_500) (world_of store_ab) = Ok (Some v)
        /\ In (iv_Issue v)
              (issues (store_after (Update id_a resolve_at_500) (world_of store_ab)))
        /\ ResolvedAt (iv_Issue v) = Some 1001%Z
        /\ ResolvedAt (iv_Issue v) <> Some (GetResolvedAt resolve_at_500)).
Proof.
  split; [discriminate|]. repeat split. eexists.
  split; [vm_compute; reflexivity|]. split; [left; reflexivity|].
  split; [reflexivity|discriminate].
Qed.

(* ------------------------------------------------------------------ *)
(** ** The dedup key the resolver compares *)

(** What the resolver compares: the stored resource namespace against the
    namespace of the report, not against the resource namespace of the
    report's scope. *)
Lemma duplicate_where_spec (req : IssuePayload) (i : Issue) (sc : IssueScope) :
  duplicate_where req (i, sc) = true
  <-> Namespace i = GetNamespace req
      /\ IssueType_ i = GetIssueType req
      /\ (State i = IssueStateActive \/ State i = IssueStateResolved)
      /\ ResourceType sc = GetResourceType (GetScope req)
      /\ ResourceName sc = GetResourceName (GetScope req)
      /\ ResourceNamespace sc = GetNamespace req.
Proof.
  unfold duplicate_where. cbn [fst snd].
  rewrite !andb_true_iff, orb_true_iff, !String.eqb_eq. tauto.
Qed.

Lemma FindDuplicate_result (w : World) (req : IssuePayload) :
  result_of (FindDuplicate req) w = result_of (findDuplicateInTx req) w
  /\ store_after (FindDuplicate req) w = db w.
Proof.
  unfold result_of, store_after, FindDuplicate, Transaction.
  rewrite findDuplicateInTx_run. auto.
Qed.

(** What [FindDuplicate] decides on, for every store and report: it
    returns an issue exactly when the store holds an issue of the
    namespace and type of the report, ACTIVE or RESOLVED, whose scope
    row has the resource type and name of the report and, as resource
    namespace, the namespace of the report. *)
Lemma FindDuplicate_characterisation (w : World) (req : IssuePayload) :
  (exists e, result_of (FindDuplicate req) w = Ok (Some e))
  <-> (exists i sc,
         In i (issues (db w)) /\ In sc (issue_scopes (db w))
         /\ ScopeID i = Scope_ID sc
         /\ Namespace i = GetNamespace req
         /\ IssueType_ i = GetIssueType req
         /\ (State i = IssueStateActive \/ State i = IssueStateResolved)
         /\ ResourceType sc = GetResourceType (GetScope req)
         /\ ResourceName sc = GetResourceName (GetScope req)
         /\ ResourceNamespace sc = GetNamespace req).
Proof.
  rewrite (proj1 (FindDuplicate_result w req)). split.
  - intros [e He]. destruct (findDuplicateInTx_some w req e He)
      as (sc & Hi & Hsc & E & Hw).
    apply duplicate_where_spec in Hw. exists (iv_Issue e), sc. tauto.
  - intros (i & sc & Hi & Hsc & E & Hw).
    destruct (result_of (findDuplicateInTx req) w) as [[e|]|err] eqn:R.
    + eauto.
    + exfalso. rewrite findDuplicateInTx_none in R.
      assert (Hin : In (i, sc) (join_scopes (db w))) by (apply in_join_scopes; auto).
      specialize (R i sc Hin).
      apply duplicate_where_spec in Hw. congruence.
    + exfalso. unfold result_of in R. rewrite findDuplicateInTx_run in R.
      cbn [snd] in R. destruct (First _); discriminate.
Qed.

(** C4, at the input where the code departs from it: an issue of
    namespace team-a about a resource of namespace team-b agrees with the
    report on the five components of the dedup key, and [FindDuplicate]
    does not return it, so that [Create] and [CreateOrUpdate] insert a
    second issue of that key; an issue whose scope lives in team-a differs
    from the report on the resource namespace, and [FindDuplicate] returns
    it. *)
Theorem C4_resolver_ignores_scope_namespace :
  (In (issue_c, scope_row_c) (join_scopes store_cross)
   /\ same_dedup_key report_cross issue_c scope_row_c
   /\ result_of (FindDuplicate report_cross) (world_of store_cross) = Ok None
   /\ map ID (rows_with_key (store_after (Create report_cross)
                                         (world_of store_cross)) report_cross)
      = [id_c; "00000000-0000-4000-8000-000000000001"]
   /\ map ID (rows_with_key (store_after (CreateOrUpdate report_cross)
                                         (world_of store_cross)) report_cross)
      = [id_c; "00000000-0000-4000-8000-000000000001"])
  /\ (In (issue_a, scope_row_a) (join_scopes store_ab)
      /\ ~ same_dedup_key report_cross issue_a scope_row_a
      /\ result_of (FindDuplicate report_cross) (world_of store_ab)
         = Ok (Some (mkIssueView issue_a zeroScope (links_of store_ab id_a) [] []))).
Proof.
  split; split.
  - left. reflexivity.
  - split; [repeat split|]. split; [reflexivity|]. split; reflexivity.
  - left. reflexivity.
  - split; [|reflexivity].
    intros (_ & _ & _ & _ & E). discriminate E.
Qed.

(** C1, at the input where the code departs from it: the same report,
    from namespace team-a about a resource of namespace team-b, is sent
    three times to an empty store; each call creates an issue and a scope
    and returns a new identifier, and the store ends with three issues of
    the report's dedup key. *)
Theorem C1_repeated_report_creates_duplicates :
  let w0 := world_of emptyStore in
  let w1 := fst (CreateOrUpdate report_cross w0) in
  let w2 := fst (CreateOrUpdate report_cross w1) in
  let w3 := fst (CreateOrUpdate report_cross w2) in
  exists v1 v2 v3,
    result_of (CreateOrUpdate report_cross) w0 = Ok (Some v1)
    /\ result_of (CreateOrUpdate report_cross) w1 = Ok (Some v2)
    /\ result_of (CreateOrUpdate report_cross) w2 = Ok (Some v3)
    /\ ID (iv_Issue v2) <> ID (iv_Issue v1)
    /\ ID (iv_Issue v3) <> ID (iv_Issue v1)
    /\ length (issues (db w3)) = 3
    /\ length (issue_scopes (db w3)) = 3
    /\ map ID (rows_with_key (db w3) report_cross)
       = [ID (iv_Issue v1); ID (iv_Issue v2); ID (iv_Issue v3)].
Proof.
  do 3 eexists.
  split; [vm_compute; reflexivity|].
  split; [vm_compute; reflexivity|].
  split; [vm_compute; reflexivity|].
  split; [discriminate|]. split; [discriminate|].
  split; [reflexivity|]. split; reflexivity.
Qed.

(* ------------------------------------------------------------------ *)
(** ** Concurrent callers *)

(** A caller that runs alone is [CreateOrUpdate]. *)
Lemma caller_alone (w : World) (req : IssuePayload) :
  let (w1, c1) := step_caller (Calling req) w in
  step_caller c1 w1
  = (fst (CreateOrUpdate req w), Returned (result_of (CreateOrUpdate req) w)).
Proof.
  unfold result_of, CreateOrUpdate, step_caller, bind, Transaction, wrap, ret.
  rewrite findDuplicateInTx_run.
  destruct (First _) as [i|]; cbn [iv_Issue].
  - destruct (updateIssueInTx i req w) as [w2 [[]|e]]; cbn [fst snd];
      [destruct (FindByID _ w2)|]; reflexivity.
  - destruct (createNewIssueInTx req w) as [w2 [a|e]]; cbn [fst snd];
      [destruct (FindByID _ w2)|]; reflexivity.
Qed.

(** C2, at the interleaving where the code departs from it: two callers
    send the same first report; each runs its resolver before the other
    inserts.  Both calls succeed, they return different identifiers, and
    two issues of the report's dedup key are stored.  Run one after the
    other, the same two calls return one identifier. *)
Theorem C2_concurrent_first_reports_create_duplicates :
  let start := [Calling report_first; Calling report_first] in
  (exists w' v0 v1,
     run_schedule [0; 1; 0; 1] start (world_of emptyStore)
     = (w', [Returned (Ok (Some v0)); Returned (Ok (Some v1))])
     /\ ID (iv_Issue v0) <> ID (iv_Issue v1)
     /\ map ID (rows_with_key (db w') report_first)
        = [ID (iv_Issue v0); ID (iv_Issue v1)])
  /\ (exists w' v0 v1,
        run_schedule [0; 0; 1; 1] start (world_of emptyStore)
        = (w', [Returned (Ok (Some v0)); Returned (Ok (Some v1))])
        /\ ID (iv_Issue v0) = ID (iv_Issue v1)
        /\ map ID (rows_with_key (db w') report_first) = [ID (iv_Issue v0)]).
Proof.
  split; do 3 eexists.
  - split; [vm_compute; reflexivity|]. split; [discriminate|reflexivity].
  - split; [vm_compute; reflexivity|]. split; reflexivity.
Qed.

(* ------------------------------------------------------------------ *)
(** ** Creation *)

Lemma Create_Links_run (ls : list CreateLinkRequest) :
  forall (w : World) (id : string),
  has_issue (db w) id = true ->
  NoDup (drawn_ids w (length ls)) ->
  Forall (fun u => has_link (db w) u = false) (drawn_ids w (length ls)) ->
  Create_Links id (map (fun r => mkLink "" (lr_Title r) (lr_URL r) "") ls) w
  = (mkWorld (mkStore (issues (db w)) (issue_scopes (db w))
                      (links (db w) ++ new_links (uuidAt w) (drawn w) id ls)
                      (related_issues (db w)))
             (nowAt w) (tick w) (uuidAt w) (drawn w + length ls),
     Ok tt).
Proof.
  induction ls as [|l rest IH]; intros w id Hi ND Hf.
  - simpl. unfold ret. rewrite app_nil_r, store_eta, Nat.add_0_r.
    now destruct w.
  - cbn [Create_Links map]. unfold Create_Link, BeforeCreate_Link, insert_link.
    run. unfold drawn_ids in ND, Hf. cbn [length seq map] in ND, Hf.
    inversion ND as [|u us Hu ND']; subst.
    inversion Hf as [|u us Hfu Hf']; subst.
    unfold has_link in Hfu |- *. rewrite Hfu. run. rewrite Hi. run.
    rewrite IH; cbn [db uuidAt drawn nowAt tick issues issue_scopes links
                     related_issues].
    + cbn [length new_links]. rewrite <- app_assoc, Nat.add_succ_r. reflexivity.
    + exact Hi.
    + exact ND'.
    + unfold drawn_ids. cbn [drawn uuidAt].
      rewrite Forall_forall in Hf' |- *. intros u Hu'.
      unfold has_link. cbn [links]. rewrite existsb_app. simpl.
      rewrite orb_false_r. apply orb_false_iff. split.
      * exact (Hf' u Hu').
      * apply String.eqb_neq. intros E. apply Hu. now rewrite E.
Qed.

Lemma oracle_fresh_links (w : World) (from n : nat) :
  oracle_fresh w -> drawn w <= from ->
  NoDup (map (uuidAt w) (seq from n))
  /\ Forall (fun u => has_link (db w) u = false) (map (uuidAt w) (seq from n)).
Proof.
  intros F Hle. split.
  - apply NoDup_map_NoDup_ForallPairs; [|apply seq_NoDup].
    intros a b Ha Hb E. apply in_seq in Ha, Hb.
    apply (fresh_inj _ F); [lia|lia|exact E].
  - apply Forall_forall. intros u Hu. apply in_map_iff in Hu.
    destruct Hu as [k [<- Hk]]. apply in_seq in Hk.
    apply (fresh_link _ F). lia.
Qed.

Lemma existsb_app_one {A} (p : A -> bool) (l : list A) (x : A) :
  existsb p (l ++ [x]) = existsb p l || p x.
Proof. rewrite existsb_app. simpl. now rewrite orb_false_r. Qed.

Lemma createNewIssueInTx_run (w : World) (req : IssuePayload) :
  oracle_fresh w ->
  let u0 := uuidAt w (drawn w) in
  let u1 := uuidAt w (S (drawn w)) in
  let i := created_issue req u0 u1 (nowAt w (tick w)) (nowAt w (S (tick w))) in
  createNewIssueInTx req w
  = (mkWorld (mkStore (issues (db w) ++ [i])
                      (issue_scopes (db w) ++ [created_scope req u1])
                      (links (db w)
                       ++ new_links (uuidAt w) (S (S (drawn w))) u0 (GetLinks req))
                      (related_issues (db w)))
             (nowAt w) (S (S (tick w))) (uuidAt w)
             (S (S (drawn w)) + length (GetLinks req)),
     Ok i).
Proof.
  intros F u0 u1 i.
  destruct (oracle_fresh_links w (S (S (drawn w))) (length (GetLinks req)) F)
    as [ND Hf]; [lia|].
  pose proof (fresh_scope _ F (S (drawn w)) (Nat.le_succ_diag_r _)) as H1.
  pose proof (fresh_issue _ F (drawn w) (Nat.le_refl _)) as H0.
  pose proof (fresh_scope_ref _ F (S (drawn w)) (Nat.le_succ_diag_r _)) as H2.
  unfold createNewIssueInTx, Create_Issue, BeforeCreate_Issue,
    BeforeCreate_IssueScope, insert_scope, insert_issue.
  unfold has_scope, has_issue in *. run.
  rewrite H1. run. rewrite H0. run. rewrite H2. run.
  rewrite existsb_app_one.
  cbn [Scope_ID]. rewrite String.eqb_refl, orb_true_r. run.
  cbn [IsZero Z.eqb].
  rewrite Create_Links_run; cbn [db uuidAt drawn nowAt tick issues issue_scopes
                                 links related_issues ID].
  - run. reflexivity.
  - unfold has_issue. cbn [issues]. rewrite existsb_app_one. cbn [ID].
    now rewrite String.eqb_refl, orb_true_r.
  - exact ND.
  - exact Hf.
Qed.

(* ------------------------------------------------------------------ *)
(** ** Reports sent again *)

Lemma existsb_key_map {A} (key : A -> string) (f : A -> A) (l : list A) (u : string) :
  (forall x, key (f x) = key x) ->
  existsb (fun x => key x =? u) (map f l) = existsb (fun x => key x =? u) l.
Proof.
  intros H. induction l as [|x r IH]; simpl; [reflexivity|].
  now rewrite H, IH.
Qed.

Lemma oracle_fresh_after_update (w w' : World) (f : Issue -> Issue)
      (p : Link -> bool) (news : list Link) (k : nat) :
  oracle_fresh w ->
  uuidAt w' = uuidAt w -> drawn w' = drawn w + k ->
  issues (db w') = map f (issues (db w)) ->
  (forall i, ID (f i) = ID i) -> (forall i, ScopeID (f i) = ScopeID i) ->
  issue_scopes (db w') = issue_scopes (db w) ->
  links (db w') = links (db w)
  \/ (links (db w') = (filter p (links (db w)) ++ news)%list
      /\ forall l, In l news ->
                   In (Link_ID l) (map (uuidAt w) (seq (drawn w) k))) ->
  oracle_fresh w'.
Proof.
  intros F HU HD HI Hid Hsid HS HL.
  constructor; rewrite HU, HD.
  - intros n m Hn Hm. apply (fresh_inj _ F); lia.
  - intros n Hn. unfold has_issue. rewrite HI, (existsb_key_map ID) by auto.
    apply (fresh_issue _ F). lia.
  - intros n Hn. unfold has_scope. rewrite HS. apply (fresh_scope _ F). lia.
  - intros n Hn. rewrite HI, (existsb_key_map ScopeID) by auto.
    apply (fresh_scope_ref _ F). lia.
  - intros n Hn. unfold has_link.
    assert (Hold : existsb (fun l => Link_ID l =? uuidAt w n) (links (db w)) = false)
      by (apply (fresh_link _ F); lia).
    destruct HL as [->|[-> Hnews]]; [exact Hold|].
    rewrite existsb_app. apply orb_false_iff. split.
    + now apply has_link_filter.
    + apply existsb_false_filter, filter_nil_forall. intros l Hl.
      apply String.eqb_neq. intros E.
      specialize (Hnews l Hl). rewrite E in Hnews.
      apply in_map_iff in Hnews. destruct Hnews as [j [Ej Hj]].
      apply in_seq in Hj.
      assert (j = n) by (apply (fresh_inj _ F); [lia|lia|exact Ej]). lia.
Qed.

Lemma duplicate_where_issue_part (req : IssuePayload) (x y : Issue) (sc : IssueScope) :
  Namespace x = Namespace y -> IssueType_ x = IssueType_ y ->
  (State x = IssueStateActive \/ State x = IssueStateResolved) ->
  (State y = IssueStateActive \/ State y = IssueStateResolved) ->
  duplicate_where req (x, sc) = duplicate_where req (y, sc).
Proof.
  intros E1 E2 Sx Sy. unfold duplicate_where. cbn [fst snd].
  rewrite E1, E2. f_equal. f_equal.
  replace ((State x =? IssueStateActive) || (State x =? IssueStateResolved))
    with true
    by (symmetry; apply orb_true_iff; rewrite !String.eqb_eq; exact Sx).
  symmetry. apply orb_true_iff. rewrite !String.eqb_eq. exact Sy.
Qed.

Lemma findDuplicateInTx_first (w : World) (req : IssuePayload) (e : IssueView) :
  result_of (findDuplicateInTx req) w = Ok (Some e) ->
  First (map fst (filter (duplicate_where req) (join_scopes (db w))))
  = Some (iv_Issue e).
Proof.
  unfold result_of. rewrite findDuplicateInTx_run. cbn [snd].
  destruct (First _) as [i|]; [|discriminate]. now intros [= <-].
Qed.

(** A report that the resolver matches, about a resource of its own
    namespace: [CreateOrUpdate] returns the matched issue, adds no issue
    and no scope, and the resolver matches the same issue afterwards. *)
Lemma CreateOrUpdate_again (w : World) (req : IssuePayload) (e : IssueView) :
  keys_ok w -> own_namespace req -> valid_state req ->
  result_of (findDuplicateInTx req) w = Ok (Some e) ->
  exists w' v,
    CreateOrUpdate req w = (w', Ok (Some v))
    /\ ID (iv_Issue v) = ID (iv_Issue e)
    /\ map ID (issues (db w')) = map ID (issues (db w))
    /\ issue_scopes (db w') = issue_scopes (db w)
    /\ keys_ok w'
    /\ (exists e', result_of (findDuplicateInTx req) w' = Ok (Some e')
                   /\ ID (iv_Issue e') = ID (iv_Issue e))
    /\ length (filter (duplicate_where req) (join_scopes (db w')))
       = length (filter (duplicate_where req) (join_scopes (db w))).
Proof.
  intros [ND NS F] Hown Hval Hfind.
  destruct (oracle_fresh_links w (drawn w) (length (GetLinks req)) F (le_n _))
    as [HND HFf].
  destruct (CreateOrUpdate_matched w req e ND Hfind (conj HND HFf))
    as (w' & v & HC & Hv & HI & _ & _ & HS & HL & HU & HD).
  destruct (findDuplicateInTx_some w req e Hfind) as (sc & Hin & Hsc & Ejs & Hw).
  apply duplicate_where_spec in Hw. destruct Hw as (K1 & K2 & K3 & K4 & K5 & K6).
  set (u := issue_updates (iv_Issue e) req (nowAt w (tick w))
                          (nowAt w (S (tick w)))) in *.
  set (upd := fun i => if ID i =? ID (iv_Issue e) then apply_updates u i else i) in *.
  assert (Hupd_id : forall i, ID (upd i) = ID i).
  { intros i. unfold upd. now destruct (ID i =? _). }
  assert (Hupd_sid : forall i, ScopeID (upd i) = ScopeID i).
  { intros i. unfold upd. now destruct (ID i =? _). }
  destruct (update_keeps_match req (iv_Issue e) u Hval eq_refl eq_refl eq_refl
              K1 K2 K3) as (A1 & A2 & A3).
  assert (HS' : issue_scopes (db w') = issue_scopes (db w)).
  { rewrite HS. destruct (scopeReq_eqb _ _); [reflexivity|].
    rewrite <- (map_id (issue_scopes (db w))) at 2.
    apply map_ext_in. intros x Hx.
    destruct (String.eqb_spec (Scope_ID x) (ScopeID (iv_Issue e))) as [E|_];
      [|reflexivity].
    assert (x = sc)
      by (apply (NoDup_map_inj Scope_ID (issue_scopes (db w))); auto; congruence).
    subst x. now apply apply_scope_updates_same. }
  assert (Hjoin : join_scopes (db w')
                  = map (fun p => (upd (fst p), snd p)) (join_scopes (db w))).
  { apply join_scopes_map_issues; auto. }
  assert (Hkeep : forall p, In p (join_scopes (db w)) ->
                  duplicate_where req (upd (fst p), snd p) = duplicate_where req p).
  { intros [i sc'] Hp. cbn [fst snd]. unfold upd.
    destruct (String.eqb_spec (ID i) (ID (iv_Issue e))) as [E|_]; [|reflexivity].
    apply in_join_scopes in Hp. destruct Hp as (Hi & _).
    assert (i = iv_Issue e)
      by (apply (NoDup_map_inj ID (issues (db w))); auto).
    subst i. apply duplicate_where_issue_part; auto; congruence. }
  assert (Hfilter : filter (duplicate_where req) (join_scopes (db w'))
                    = map (fun p => (upd (fst p), snd p))
                          (filter (duplicate_where req) (join_scopes (db w)))).
  { rewrite Hjoin. now apply filter_map_commute. }
  assert (Hids : map ID (issues (db w')) = map ID (issues (db w))).
  { rewrite HI, map_map. now apply map_ext. }
  exists w', v. split; [exact HC|].
  split; [rewrite Hv; reflexivity|].
  split; [exact Hids|].
  split; [exact HS'|]. split; [|split].
  - constructor.
    + now rewrite Hids.
    + now rewrite HS'.
    + apply (oracle_fresh_after_update w w' upd
               (fun l => negb (IssueID l =? ID (iv_Issue e)))
               (new_links (uuidAt w) (drawn w) (ID (iv_Issue e)) (GetLinks req))
               (length (GetLinks req))); auto.
      rewrite HL. destruct (GetLinks req) as [|c l] eqn:EL; [left; reflexivity|].
      right. split; [reflexivity|]. intros l0 Hl0.
      now apply new_links_ids in Hl0.
  - unfold result_of. rewrite findDuplicateInTx_run, Hfilter, map_map.
    cbn [fst snd].
    rewrite <- (map_map fst upd), First_map_keys by exact Hupd_id.
    rewrite (findDuplicateInTx_first w req e Hfind). cbn [option_map].
    eexists. split; [reflexivity|]. cbn [iv_Issue]. apply Hupd_id.
  - rewrite Hfilter. apply length_map.
Qed.

Lemma key_absent {A} (key : A -> string) (l : list A) (u : string) :
  existsb (fun x => key x =? u) l = false -> ~ In u (map key l).
Proof.
  intros H Hin. apply in_map_iff in Hin. destruct Hin as [x [E Hx]].
  apply existsb_false_filter in H.
  rewrite filter_nil_forall in H. specialize (H x Hx).
  rewrite E, String.eqb_refl in H. discriminate.
Qed.

Lemma keys_distinct_after_insert {A} (key : A -> string) (l : list A) (x : A) :
  NoDup (map key l) -> existsb (fun y => key y =? key x) l = false ->
  NoDup (map key (l ++ [x])).
Proof.
  intros ND H. rewrite map_app. apply NoDup_app; auto.
  - simpl. repeat constructor. intros [].
  - intros a Ha [<-|[]]. now apply (key_absent key l (key x)).
Qed.

Lemma flat_map_same {A B} (f g : A -> list B) (l : list A) :
  (forall x, In x l -> f x = g x) -> flat_map f l = flat_map g l.
Proof.
  induction l as [|x r IH]; simpl; intros H; [reflexivity|].
  rewrite (H x), IH; auto.
Qed.

Lemma join_scopes_insert (s s' : Store) (i : Issue) (sc : IssueScope) :
  issues s' = (issues s ++ [i])%list ->
  issue_scopes s' = (issue_scopes s ++ [sc])%list ->
  ScopeID i = Scope_ID sc ->
  has_scope s (Scope_ID sc) = false ->
  existsb (fun j => ScopeID j =? Scope_ID sc) (issues s) = false ->
  join_scopes s' = (join_scopes s ++ [(i, sc)])%list.
Proof.
  intros HI HS E Hs Hr. unfold join_scopes. rewrite HI, HS, flat_map_app.
  f_equal.
  - apply flat_map_same. intros j Hj. rewrite filter_app. simpl.
    apply existsb_false_filter in Hr. rewrite filter_nil_forall in Hr.
    rewrite (Hr j Hj). now rewrite app_nil_r.
  - simpl. rewrite filter_app, app_nil_r. simpl.
    rewrite E, String.eqb_refl.
    unfold has_scope in Hs. apply existsb_false_filter in Hs.
    replace (filter (fun sc0 => Scope_ID sc =? Scope_ID sc0) (issue_scopes s))
      with (@nil IssueScope); [reflexivity|].
    symmetry. rewrite <- Hs. apply filter_ext. intros x. apply String.eqb_sym.
Qed.

Lemma created_rows_match (req : IssuePayload) (u0 u1 : string) (t0 t1 : Time) :
  own_namespace req -> valid_state req ->
  duplicate_where req (created_issue req u0 u1 t0 t1, created_scope req u1) = true.
Proof.
  intros Hown Hval. apply duplicate_where_spec. simpl.
  repeat split.
  - destruct (String.eqb_spec (GetState req) "") as [E|NE]; [now left|].
    destruct Hval as [H|[H|H]]; [congruence|now left|now right].
  - destruct (String.eqb_spec (GetResourceNamespace (GetScope req)) "") as [E|NE];
      [reflexivity|].
    destruct Hown as [H|H]; [congruence|exact H].
Qed.

Lemma new_links_are_drawn (w : World) (from n : nat) (id : string)
      (ls : list CreateLinkRequest) :
  oracle_fresh w -> drawn w <= from -> from + length ls <= n ->
  existsb (fun l => Link_ID l =? uuidAt w n) (new_links (uuidAt w) from id ls)
  = false.
Proof.
  intros F H1 H2. apply existsb_false_filter, filter_nil_forall. intros l Hl.
  apply String.eqb_neq. intros E. apply new_links_ids in Hl. rewrite E in Hl.
  apply in_map_iff in Hl. destruct Hl as [j [Ej Hj]]. apply in_seq in Hj.
  assert (j = n) by (apply (fresh_inj _ F); [lia|lia|exact Ej]). lia.
Qed.

(** The insertion step of a caller whose resolver found nothing: one
    issue and one scope are inserted under the next two identifiers. *)
Lemma step_saw_no_duplicate (w : World) (req : IssuePayload) :
  keys_ok w ->
  exists w' v,
    step_caller (SawNoDuplicate req) w = (w', Returned (Ok (Some v)))
    /\ iv_Issue v
       = created_issue req (uuidAt w (drawn w)) (uuidAt w (S (drawn w)))
                       (nowAt w (tick w)) (nowAt w (S (tick w)))
    /\ issues (db w') = (issues (db w) ++ [iv_Issue v])%list
    /\ issue_scopes (db w')
       = (issue_scopes (db w) ++ [created_scope req (uuidAt w (S (drawn w)))])%list
    /\ keys_ok w'
    /\ uuidAt w' = uuidAt w
    /\ drawn w' = S (S (drawn w)) + length (GetLinks req).
Proof.
  intros [ND NS F].
  set (u0 := uuidAt w (drawn w)). set (u1 := uuidAt w (S (drawn w))).
  set (i := created_issue req u0 u1 (nowAt w (tick w)) (nowAt w (S (tick w)))).
  set (sc := created_scope req u1).
  pose proof (createNewIssueInTx_run w req F) as Hrun. cbv zeta in Hrun.
  fold u0 u1 i sc in Hrun.
  set (w' := mkWorld (mkStore (issues (db w) ++ [i]) (issue_scopes (db w) ++ [sc])
                        (links (db w)
                         ++ new_links (uuidAt w) (S (S (drawn w))) u0 (GetLinks req))
                        (related_issues (db w)))
                     (nowAt w) (S (S (tick w))) (uuidAt w)
                     (S (S (drawn w)) + length (GetLinks req))) in *.
  pose proof (fresh_issue _ F (drawn w) (Nat.le_refl _)) as H0.
  pose proof (fresh_scope _ F (S (drawn w)) (Nat.le_succ_diag_r _)) as H1.
  fold u0 in H0. fold u1 in H1.
  assert (ND' : NoDup (map ID (issues (db w')))).
  { cbn [w' db issues]. apply keys_distinct_after_insert; auto. }
  assert (Hin : In i (issues (db w'))).
  { cbn [w' db issues]. apply in_or_app. right. left. reflexivity. }
  destruct (FindByID_unique w' i ND' Hin) as (v & Hv & Hvi & _).
  exists w', v. split; [|split; [|split; [|split; [|split; [|split]]]]].
  - cbn [step_caller]. unfold bind, Transaction, wrap. rewrite Hrun.
    now rewrite Hv.
  - exact Hvi.
  - now rewrite Hvi.
  - reflexivity.
  - constructor; [exact ND'| |].
    + cbn [w' db issue_scopes]. apply keys_distinct_after_insert; auto.
    + constructor; cbn [w' db uuidAt drawn issues issue_scopes links].
      * intros n m Hn Hm. apply (fresh_inj _ F); lia.
      * intros n Hn. unfold has_issue. cbn [issues].
        rewrite existsb_app_one. apply orb_false_iff. split.
        -- apply (fresh_issue _ F). lia.
        -- apply String.eqb_neq. intros E.
           assert (drawn w = n) by (apply (fresh_inj _ F); [lia|lia|exact E]).
           lia.
      * intros n Hn. unfold has_scope. cbn [issue_scopes].
        rewrite existsb_app_one. apply orb_false_iff. split.
        -- apply (fresh_scope _ F). lia.
        -- apply String.eqb_neq. intros E.
           assert (S (drawn w) = n) by (apply (fresh_inj _ F); [lia|lia|exact E]).
           lia.
      * intros n Hn. rewrite existsb_app_one. apply orb_false_iff. split.
        -- apply (fresh_scope_ref _ F). lia.
        -- apply String.eqb_neq. intros E.
           assert (S (drawn w) = n) by (apply (fresh_inj _ F); [lia|lia|exact E]).
           lia.
      * intros n Hn. unfold has_link. cbn [links].
        rewrite existsb_app. apply orb_false_iff. split.
        -- apply (fresh_link _ F). lia.
        -- apply new_links_are_drawn; auto; lia.
  - reflexivity.
  - reflexivity.
Qed.

Lemma step_calling_none (w : World) (req : IssuePayload) :
  result_of (findDuplicateInTx req) w = Ok None ->
  step_caller (Calling req) w = (w, SawNoDuplicate req).
Proof.
  unfold result_of. cbn [step_caller]. unfold wrap.
  rewrite findDuplicateInTx_run. cbn [snd].
  destruct (First _); [discriminate|reflexivity].
Qed.

(** A report that the resolver does not match, about a resource of its
    own namespace: [CreateOrUpdate] inserts one issue and one scope, and
    from then on the resolver matches that issue and no other row. *)
Lemma CreateOrUpdate_new (w : World) (req : IssuePayload) :
  keys_ok w -> own_namespace req -> valid_state req ->
  result_of (findDuplicateInTx req) w = Ok None ->
  exists w' v,
    CreateOrUpdate req w = (w', Ok (Some v))
    /\ ID (iv_Issue v) = uuidAt w (drawn w)
    /\ map ID (issues (db w')) = (map ID (issues (db w)) ++ [ID (iv_Issue v)])%list
    /\ length (issue_scopes (db w')) = S (length (issue_scopes (db w)))
    /\ keys_ok w'
    /\ (exists e', result_of (findDuplicateInTx req) w' = Ok (Some e')
                   /\ ID (iv_Issue e') = ID (iv_Issue v))
    /\ length (filter (duplicate_where req) (join_scopes (db w'))) = 1.
Proof.
  intros Hok Hown Hval Hnone.
  destruct (step_saw_no_duplicate w req Hok)
    as (w' & v & Hstep & Hv & HI & HS & Hok' & _).
  pose proof (caller_alone w req) as Halone.
  rewrite (step_calling_none w req Hnone), Hstep in Halone.
  injection Halone as Hw Hr.
  assert (HC : CreateOrUpdate req w = (w', Ok (Some v))).
  { unfold result_of in Hr. destruct (CreateOrUpdate req w) as [w2 r].
    cbn [fst snd] in *. congruence. }
  destruct Hok as [ND NS F].
  assert (Hjoin : join_scopes (db w')
                  = (join_scopes (db w)
                     ++ [(iv_Issue v, created_scope req (uuidAt w (S (drawn w))))])%list).
  { apply join_scopes_insert; auto.
    - rewrite Hv. reflexivity.
    - apply (fresh_scope _ F). lia.
    - apply (fresh_scope_ref _ F). lia. }
  assert (Hfilter : filter (duplicate_where req) (join_scopes (db w'))
                    = [(iv_Issue v, created_scope req (uuidAt w (S (drawn w))))]).
  { rewrite Hjoin, filter_app. cbn [filter].
    rewrite Hv, created_rows_match by auto.
    replace (filter (duplicate_where req) (join_scopes (db w)))
      with (@nil (Issue * IssueScope)); [reflexivity|].
    symmetry. apply filter_nil_forall. intros [j sj].
    now apply findDuplicateInTx_none. }
  exists w', v. split; [exact HC|]. split; [now rewrite Hv|].
  split; [rewrite HI, map_app; reflexivity|].
  split; [rewrite HS, length_app; simpl; lia|].
  split; [exact Hok'|]. split.
  - unfold result_of. rewrite findDuplicateInTx_run, Hfilter. cbn.
    eexists. split; reflexivity.
  - now rewrite Hfilter.
Qed.

(** The race, for every first report: when the resolver finds nothing,
    two callers that both run it before either inserts both create an
    issue, and return different identifiers. *)
Lemma first_report_race (w : World) (req : IssuePayload) :
  keys_ok w ->
  result_of (findDuplicateInTx req) w = Ok None ->
  exists w' v0 v1,
    run_schedule [0; 1; 0; 1] [Calling req; Calling req] w
    = (w', [Returned (Ok (Some v0)); Returned (Ok (Some v1))])
    /\ ID (iv_Issue v0) <> ID (iv_Issue v1)
    /\ issues (db w') = (issues (db w) ++ [iv_Issue v0; iv_Issue v1])%list
    /\ length (issue_scopes (db w')) = 2 + length (issue_scopes (db w)).
Proof.
  intros Hok Hnone.
  destruct (step_saw_no_duplicate w req Hok)
    as (w1 & v0 & Hs0 & Hv0 & HI0 & HS0 & Hok1 & HU1 & HD1).
  destruct (step_saw_no_duplicate w1 req Hok1)
    as (w2 & v1 & Hs1 & Hv1 & HI1 & HS1 & _).
  exists w2, v0, v1.
  cbn [run_schedule step_nth]. rewrite (step_calling_none w req Hnone).
  cbn [run_schedule step_nth]. rewrite (step_calling_none w req Hnone).
  cbn [run_schedule step_nth]. rewrite Hs0.
  cbn [run_schedule step_nth]. rewrite Hs1.
  split; [reflexivity|]. split; [|split].
  - rewrite Hv0, Hv1, HU1, HD1. cbn [created_issue ID]. intros E.
    apply (fresh_inj _ (ok_fresh _ Hok)) in E; lia.
  - rewrite HI1, HI0, <- app_assoc. reflexivity.
  - rewrite HS1, HS0, !length_app. simpl. lia.
Qed.

Lemma duplicate_where_same_key (a b : IssuePayload) (p : Issue * IssueScope) :
  same_key a b -> duplicate_where a p = duplicate_where b p.
Proof.
  intros (E1 & E2 & E3). unfold duplicate_where. now rewrite E1, E2, E3.
Qed.

Lemma own_namespace_same_key (a b : IssuePayload) :
  same_key a b -> own_namespace a -> own_namespace b.
Proof.
  intros (E1 & _ & E3). unfold own_namespace. now rewrite <- E1, <- E3.
Qed.

Lemma CreateOrUpdate_all_settled (reqs : list IssuePayload) :
  forall (w : World) (req0 : IssuePayload) (id : string),
  keys_ok w -> own_namespace req0 ->
  (forall r, In r reqs -> same_key req0 r /\ valid_state r) ->
  (exists e, result_of (findDuplicateInTx req0) w = Ok (Some e)
             /\ ID (iv_Issue e) = id) ->
  exists w2 rs,
    CreateOrUpdate_all reqs w = (w2, rs)
    /\ length rs = length reqs
    /\ Forall (fun r => exists v, r = Ok (Some v) /\ ID (iv_Issue v) = id) rs
    /\ map ID (issues (db w2)) = map ID (issues (db w))
    /\ issue_scopes (db w2) = issue_scopes (db w)
    /\ length (filter (duplicate_where req0) (join_scopes (db w2)))
       = length (filter (duplicate_where req0) (join_scopes (db w))).
Proof.
  induction reqs as [|r rest IH]; intros w req0 id Hok Hown Hall (e & Hfind & He).
  - exists w, []. simpl. repeat split; auto.
  - destruct (Hall r (or_introl eq_refl)) as [Hkey Hval].
    assert (Hfind_r : result_of (findDuplicateInTx r) w = Ok (Some e)).
    { unfold result_of. rewrite <- (findDuplicateInTx_same_key req0 r w Hkey).
      exact Hfind. }
    destruct (CreateOrUpdate_again w r e Hok (own_namespace_same_key _ _ Hkey Hown)
                Hval Hfind_r)
      as (w1 & v & HC & Hv & HI & HS & Hok1 & (e1 & Hfind1 & He1) & HL).
    assert (Hfind0 : exists e', result_of (findDuplicateInTx req0) w1 = Ok (Some e')
                                /\ ID (iv_Issue e') = id).
    { exists e1. split; [|congruence]. unfold result_of.
      rewrite (findDuplicateInTx_same_key req0 r w1 Hkey). exact Hfind1. }
    destruct (IH w1 req0 id Hok1 Hown (fun x Hx => Hall x (or_intror Hx)) Hfind0)
      as (w2 & rs & HA & Hlen & Hrs & HI2 & HS2 & HL2).
    exists w2, (Ok (Some v) :: rs). cbn [CreateOrUpdate_all]. rewrite HC, HA.
    split; [reflexivity|]. split; [simpl; now rewrite Hlen|].
    split; [constructor; [exists v; split; [reflexivity|congruence]|exact Hrs]|].
    split; [congruence|]. split; [congruence|].
    rewrite HL2.
    assert (Hsame : forall l, filter (duplicate_where req0) l
                              = filter (duplicate_where r) l).
    { intros l. apply filter_ext. intros p.
      now apply duplicate_where_same_key. }
    now rewrite !Hsame.
Qed.

(** Sequential reports converge when they are about a resource of the
    reporter's own namespace (the resource namespace of the report is
    empty or is its namespace) and each names no state, ACTIVE or
    RESOLVED: reports of one dedup key, sent one after the other, on a
    store with distinct keys and new identifiers to draw.
    The first call returns an issue; every later call returns an issue of
    the same identifier and adds no issue and no scope; and when no issue
    matched before the first call, exactly one matches after the last.
    (A report of any other state creates an issue the resolver never
    matches.) *)
Theorem CreateOrUpdate_converges_in_own_namespace
        (w : World) (req : IssuePayload) (reqs : list IssuePayload) :
  keys_ok w -> own_namespace req -> valid_state req ->
  (forall r, In r reqs -> same_key req r /\ valid_state r) ->
  exists w1 v1 w2 rs,
    CreateOrUpdate req w = (w1, Ok (Some v1))
    /\ CreateOrUpdate_all reqs w1 = (w2, rs)
    /\ length rs = length reqs
    /\ Forall (fun r => exists v, r = Ok (Some v)
                                  /\ ID (iv_Issue v) = ID (iv_Issue v1)) rs
    /\ map ID (issues (db w2)) = map ID (issues (db w1))
    /\ issue_scopes (db w2) = issue_scopes (db w1)
    /\ (result_of (findDuplicateInTx req) w = Ok None ->
        length (filter (duplicate_where req) (join_scopes (db w2))) = 1).
Proof.
  intros Hok Hown Hval Hall.
  destruct (result_of (findDuplicateInTx req) w) as [[e|]|err] eqn:Hfind.
  - destruct (CreateOrUpdate_again w req e Hok Hown Hval Hfind)
      as (w1 & v1 & HC & Hv & _ & _ & Hok1 & (e1 & Hfind1 & He1) & _).
    destruct (CreateOrUpdate_all_settled reqs w1 req (ID (iv_Issue v1)) Hok1 Hown
                Hall) as (w2 & rs & HA & Hlen & Hrs & HI & HS & _).
    { exists e1. split; [exact Hfind1|congruence]. }
    exists w1, v1, w2, rs. repeat split; auto. discriminate.
  - destruct (CreateOrUpdate_new w req Hok Hown Hval Hfind)
      as (w1 & v1 & HC & _ & _ & _ & Hok1 & Hfind1 & Hone).
    destruct (CreateOrUpdate_all_settled reqs w1 req (ID (iv_Issue v1)) Hok1 Hown
                Hall Hfind1) as (w2 & rs & HA & Hlen & Hrs & HI & HS & HL).
    exists w1, v1, w2, rs. repeat split; auto. intros _. now rewrite HL.
  - exfalso. unfold result_of in Hfind. rewrite findDuplicateInTx_run in Hfind.
    cbn [snd] in Hfind. destruct (First _); discriminate.
Qed.

Lemma counter_uuid_inj (n m : nat) : counter_uuid n = counter_uuid m -> n = m.
Proof.
  unfold counter_uuid. intros E. cbn [append] in E.
  repeat (injection E as E).
  apply Unsigned.to_uint_inj.
  pose proof (NilEmpty.usu (Nat.to_uint n)) as Hn.
  pose proof (NilEmpty.usu (Nat.to_uint m)) as Hm.
  rewrite E in Hn. congruence.
Qed.

Lemma keys_ok_empty : keys_ok (counting_world emptyStore).
Proof.
  constructor; simpl; try constructor; simpl; auto.
  intros n m _ _. apply counter_uuid_inj.
Qed.

Lemma first_report_race_witness :
  exists w' v0 v1,
    run_schedule [0; 1; 0; 1] [Calling report_first; Calling report_first]
                 (counting_world emptyStore)
    = (w', [Returned (Ok (Some v0)); Returned (Ok (Some v1))])
    /\ ID (iv_Issue v0) <> ID (iv_Issue v1)
    /\ length (issues (db w')) = 2.
Proof.
  destruct (first_report_race (counting_world emptyStore) report_first
              keys_ok_empty eq_refl) as (w' & v0 & v1 & H1 & H2 & H3 & _).
  exists w', v0, v1. split; [exact H1|]. split; [exact H2|].
  now rewrite H3.
Defined.

(** The convergence theorem at work: a first report, then the same key
    resolved, then the same key with a link; one issue throughout. *)
Example CreateOrUpdate_converges_example :
  exists w1 v1 w2 rs,
    CreateOrUpdate report_first (counting_world emptyStore) = (w1, Ok (Some v1))
    /\ CreateOrUpdate_all [report_first_resolved; report_first_linked] w1 = (w2, rs)
    /\ Forall (fun r => exists v, r = Ok (Some v)
                                  /\ ID (iv_Issue v) = ID (iv_Issue v1)) rs
    /\ length (issues (db w2)) = 1.
Proof.
  destruct (CreateOrUpdate_converges_in_own_namespace
              (counting_world emptyStore) report_first
              [report_first_resolved; report_first_linked])
    as (w1 & v1 & w2 & rs & H1 & H2 & _ & H3 & H4 & _).
  - exact keys_ok_empty.
  - right. reflexivity.
  - left. reflexivity.
  - intros r [<-|[<-|[]]]; (split; [repeat split|]);
      [right; right; reflexivity|left; reflexivity].
  - exists w1, v1, w2, rs. repeat split; auto.
    rewrite <- (length_map ID), H4, length_map.
    vm_compute in H1. injection H1 as <- _. reflexivity.
Defined.

(* ------------------------------------------------------------------ *)
(** ** Reading an issue back *)

Lemma FindByID_view (w : World) (i : Issue) :
  NoDup (map ID (issues (db w))) -> In i (issues (db w)) ->
  FindByID (ID i) w = (w, Ok (Some (load_associations (db w) i))).
Proof.
  intros ND Hi. unfold FindByID, bind, get_db, ret.
  now rewrite (filter_unique_key ID _ _ ND Hi).
Qed.

Lemma scope_by_id_found (s : Store) (id : string) :
  has_scope s id = true ->
  In (scope_by_id s id) (issue_scopes s) /\ Scope_ID (scope_by_id s id) = id.
Proof.
  unfold has_scope, scope_by_id. intros H.
  destruct (find (fun sc => Scope_ID sc =? id) (issue_scopes s)) as [sc|] eqn:F.
  - apply find_some in F. destruct F as [Hin E].
    split; [exact Hin|now apply String.eqb_eq].
  - apply existsb_exists in H. destruct H as [sc [Hin E]].
    rewrite (find_none _ _ F sc Hin) in E. discriminate.
Qed.

(** [FindByID] only reads.  An identifier that no issue has gives no
    record and no error.  On a store that satisfies the schema, the
    identifier of an issue gives that row with its own scope row, the
    links it owns and no other, and the relationships it is an end of,
    each on the side it is on. *)
Theorem FindByID_reads_the_issue (w : World) (id : string) :
  store_after (FindByID id) w = db w
  /\ (has_issue (db w) id = false -> result_of (FindByID id) w = Ok None)
  /\ (wf_store (db w) ->
      forall i, In i (issues (db w)) -> ID i = id ->
      exists v,
        result_of (FindByID id) w = Ok (Some v)
        /\ iv_Issue v = i
        /\ In (iv_Scope v) (issue_scopes (db w))
        /\ Scope_ID (iv_Scope v) = ScopeID i
        /\ (forall l, In l (iv_Links v) <-> In l (links (db w)) /\ IssueID l = id)
        /\ (forall r, In r (iv_RelatedFrom v)
                      <-> In r (related_issues (db w)) /\ SourceID r = id)
        /\ (forall r, In r (iv_RelatedTo v)
                      <-> In r (related_issues (db w)) /\ TargetID r = id)).
Proof.
  split; [|split].
  - unfold store_after, FindByID, bind, get_db, ret.
    now destruct (First _).
  - intros H. unfold result_of. now rewrite FindByID_missing.
  - intros Hwf i Hi <-. exists (load_associations (db w) i).
    unfold result_of. rewrite (FindByID_view w i (wf_issue_pk _ Hwf) Hi).
    cbn [snd load_associations iv_Issue iv_Scope iv_Links iv_RelatedFrom
         iv_RelatedTo].
    destruct (scope_by_id_found (db w) (ScopeID i) (wf_scope_fk _ Hwf i Hi))
      as [Hs1 Hs2].
    split; [reflexivity|]. split; [reflexivity|].
    split; [exact Hs1|]. split; [exact Hs2|].
    unfold links_of.
    split; [|split]; intros x; rewrite filter_In, String.eqb_eq; tauto.
Qed.

Lemma FindByID_reads_the_issue_witness :
  result_of (FindByID "no-such-issue") (world_of store_ab) = Ok None
  /\ exists v,
       result_of (FindByID id_a) (world_of store_ab) = Ok (Some v)
       /\ iv_Issue v = issue_a
       /\ Scope_ID (iv_Scope v) = scope_a.
Proof.
  destruct (FindByID_reads_the_issue (world_of store_ab) "no-such-issue")
    as (_ & H0 & _).
  destruct (FindByID_reads_the_issue (world_of store_ab) id_a) as (_ & _ & H1).
  destruct (H1 wf_store_ab issue_a (or_introl eq_refl) eq_refl)
    as (v & Hv & Hi & _ & Hs & _).
  split; [exact (H0 eq_refl)|]. exists v. auto.
Defined.

(* ------------------------------------------------------------------ *)
(** ** Failed calls *)






(** [Update] needs the issue: on an identifier that no issue has it fails
    with the not-found error and writes nothing; on the identifier of an
    issue (with new identifiers for the links it is given) it returns the
    issue of that identifier. *)
Theorem Update_needs_the_issue (w : World) (id : string) (req : IssuePayload) :
  (has_issue (db w) id = false ->
   result_of (Update id req) w = Err ("issue with ID " ++ id ++ " not found")
   /\ store_after (Update id req) w = db w)
  /\ (has_issue (db w) id = true -> fresh_links w (length (GetLinks req)) ->
      exists v, result_of (Update id req) w = Ok (Some v)
                /\ ID (iv_Issue v) = id
                /\ In (iv_Issue v) (issues (store_after (Update id req) w))).
Proof.
  split.
  - intros H. unfold result_of, store_after, Update, bind.
    now rewrite (FindByID_missing w id H).
  - intros H Hf.
    destruct (Update_run w id req H Hf)
      as (e & w' & v & _ & _ & HU & Hv & Hid & _).
    exists v. unfold result_of, store_after. rewrite HU. auto.
Qed.

Lemma Update_needs_the_issue_witness :
  result_of (Update "no-such-issue" (title_only "X")) (world_of store_ab)
    = Err "issue with ID no-such-issue not found"
  /\ exists v, result_of (Update id_b links_only_req) (world_of store_ab)
               = Ok (Some v) /\ ID (iv_Issue v) = id_b.
Proof.
  destruct (Update_needs_the_issue (world_of store_ab) "no-such-issue"
              (title_only "X")) as [H _].
  destruct (Update_needs_the_issue (world_of store_ab) id_b links_only_req)
    as [_ H'].
  split; [exact (proj1 (H eq_refl))|].
  destruct (H' eq_refl) as (v & Hv & Hid & _).
  - split; repeat constructor; auto.
  - exists v. auto.
Defined.

(* ------------------------------------------------------------------ *)
(** ** Create *)

Lemma Create_matched (w : World) (req : IssuePayload) (e : IssueView) :
  NoDup (map ID (issues (db w))) ->
  result_of (findDuplicateInTx req) w = Ok (Some e) ->
  exists w' v,
    Create req w = (w', Ok (Some v))
    /\ iv_Issue v
       = apply_updates (issue_updates (iv_Issue e) (create_update_req req)
                                      (nowAt w (tick w)) (nowAt w (S (tick w))))
                       (iv_Issue e)
    /\ iv_Links v = links_of (db w') (ID (iv_Issue e))
    /\ issues (db w')
       = map (fun i => if ID i =? ID (iv_Issue e)
                       then apply_updates
                              (issue_updates (iv_Issue e) (create_update_req req)
                                 (nowAt w (tick w)) (nowAt w (S (tick w)))) i
                       else i) (issues (db w))
    /\ map Scope_ID (issue_scopes (db w')) = map Scope_ID (issue_scopes (db w))
    /\ links (db w') = links (db w)
    /\ related_issues (db w') = related_issues (db w).
Proof.
  intros ND Hfind.
  destruct (findDuplicateInTx_some w req e Hfind) as (sc & Hin & _).
  assert (Hi : has_issue (db w) (ID (iv_Issue e)) = true).
  { apply has_issue_true. eauto. }
  assert (Hf : fresh_links w (length (GetLinks (create_update_req req)))).
  { split; constructor. }
  destruct (updateIssueInTx_run w (iv_Issue e) (create_update_req req) Hi Hf)
    as (w' & Hrun & HI & HS & HL & HR & _).
  cbn [create_update_req GetLinks] in HL.
  set (u := issue_updates (iv_Issue e) (create_update_req req)
                          (nowAt w (tick w)) (nowAt w (S (tick w)))) in *.
  assert (ND' : NoDup (map ID (issues (db w')))).
  { rewrite HI, NoDup_ids_updated; auto. }
  assert (Hin' : In (apply_updates u (iv_Issue e)) (issues (db w'))).
  { rewrite HI. apply in_map_iff. exists (iv_Issue e).
    now rewrite String.eqb_refl. }
  destruct (FindByID_unique w' _ ND' Hin') as (v & Hv & Hvi & Hvl).
  exists w', v. repeat split; auto.
  - unfold Create, bind at 1, Transaction, bind at 1, wrap.
    unfold result_of in Hfind. rewrite findDuplicateInTx_run in Hfind |- *.
    cbn [snd] in Hfind. injection Hfind as Hfind. rewrite Hfind.
    unfold bind at 1. fold (create_update_req req). rewrite Hrun. run. exact Hv.
  - rewrite HS. destruct (scopeReq_eqb _ _); [reflexivity|].
    rewrite map_map. apply map_ext. intros x.
    now destruct (Scope_ID x =? _).
Qed.

(** [Create] on a report the resolver matches updates and returns the
    matched issue, adds no row, and, unlike [CreateOrUpdate], stores
    neither the links of the report nor its resolution time: the links
    table is left as it was, and outside a transition into RESOLVED the
    resolution time of the issue is the one it had. *)
Theorem Create_on_duplicate_keeps_links
        (w : World) (req : IssuePayload) (e : IssueView) :
  NoDup (map ID (issues (db w))) ->
  result_of (findDuplicateInTx req) w = Ok (Some e) ->
  exists v,
    result_of (Create req) w = Ok (Some v)
    /\ ID (iv_Issue v) = ID (iv_Issue e)
    /\ map ID (issues (store_after (Create req) w)) = map ID (issues (db w))
    /\ map Scope_ID (issue_scopes (store_after (Create req) w))
       = map Scope_ID (issue_scopes (db w))
    /\ links (store_after (Create req) w) = links (db w)
    /\ iv_Links v = links_of (db w) (ID (iv_Issue e))
    /\ (resolves (iv_Issue e) req = false ->
        ResolvedAt (iv_Issue v) = ResolvedAt (iv_Issue e)).
Proof.
  intros ND Hfind.
  destruct (Create_matched w req e ND Hfind)
    as (w' & v & HC & Hv & Hvl & HI & HS & HL & _).
  exists v. unfold result_of, store_after. rewrite HC. cbn [fst snd].
  split; [reflexivity|]. split; [now rewrite Hv|].
  split; [rewrite HI; now apply NoDup_ids_updated|].
  split; [exact HS|]. split; [exact HL|].
  split; [rewrite Hvl; unfold links_of; now rewrite HL|].
  intros Hr. rewrite Hv. unfold issue_updates, apply_updates, resolves in *.
  unfold create_update_req.
  cbn [ResolvedAt u_resolved_at GetState GetResolvedAt].
  rewrite Hr. cbn [IsZero Z.eqb].
  now destruct (GetState req =? "").
Qed.

Lemma Create_on_duplicate_keeps_links_witness :
  exists v,
    result_of (Create report_b_linked) (world_of store_ab) = Ok (Some v)
    /\ ID (iv_Issue v) = id_b
    /\ links (store_after (Create report_b_linked) (world_of store_ab))
       = links store_ab
    /\ ResolvedAt (iv_Issue v) = Some 30%Z.
Proof.
  destruct (Create_on_duplicate_keeps_links (world_of store_ab) report_b_linked
              (mkIssueView issue_b zeroScope (links_of store_ab id_b) [] []))
    as (v & H1 & H2 & _ & _ & H3 & _ & H4).
  - simpl. repeat constructor; simpl; intuition discriminate.
  - reflexivity.
  - exists v. split; [exact H1|]. split; [exact H2|]. split; [exact H3|].
    exact (H4 eq_refl).
Defined.

(** On a report the resolver does not match, [Create] and
    [CreateOrUpdate] do the same: they leave the same world and succeed
    together, with the same record. *)
Theorem Create_is_CreateOrUpdate_without_duplicate
        (w : World) (req : IssuePayload) :
  result_of (findDuplicateInTx req) w = Ok None ->
  fst (Create req w) = fst (CreateOrUpdate req w)
  /\ (forall v, result_of (Create req) w = Ok v
                <-> result_of (CreateOrUpdate req) w = Ok v).
Proof.
  intros Hnone. unfold result_of in *.
  unfold Create, CreateOrUpdate, bind, Transaction, wrap, ret.
  rewrite findDuplicateInTx_run in *. cbn [snd] in Hnone.
  destruct (First _); [discriminate|].
  destruct (createNewIssueInTx req w) as [w' [i|err]]; cbn [fst snd].
  - split; [reflexivity|tauto].
  - split; [reflexivity|]. intros v. split; discriminate.
Qed.

Lemma Create_is_CreateOrUpdate_without_duplicate_witness :
  fst (Create report_first_linked (world_of store_ab))
  = fst (CreateOrUpdate report_first_linked (world_of store_ab))
  /\ exists v, result_of (Create report_first_linked) (world_of store_ab)
               = Ok (Some v)
               /\ result_of (CreateOrUpdate report_first_linked) (world_of store_ab)
                  = Ok (Some v).
Proof.
  destruct (Create_is_CreateOrUpdate_without_duplicate (world_of store_ab)
              report_first_linked eq_refl) as [H1 H2].
  split; [exact H1|]. eexists. split; [vm_compute; reflexivity|].
  apply H2. vm_compute. reflexivity.
Defined.

(* ------------------------------------------------------------------ *)
(** ** Issues and scopes stay in pairs *)

Lemma existsb_filter_false {A} (q p : A -> bool) (l : list A) :
  existsb q l = false -> existsb q (filter p l) = false.
Proof.
  intros H. apply existsb_false_filter, filter_nil_forall.
  intros x Hx. apply filter_In in Hx. destruct Hx as [Hx _].
  apply existsb_false_filter in H.
  now apply (proj1 (filter_nil_forall _ _) H).
Qed.

Lemma new_links_keys (uuid : nat -> string) (ls : list CreateLinkRequest) :
  forall (from : nat) (id : string),
  map Link_ID (new_links uuid from id ls) = map uuid (seq from (length ls)).
Proof.
  induction ls as [|x r IH]; simpl; intros from id; [reflexivity|].
  now rewrite IH.
Qed.

Lemma existsb_app_left {A} (q : A -> bool) (l l' : list A) :
  existsb q l = true -> existsb q (l ++ l') = true.
Proof. intros H. rewrite existsb_app, H. reflexivity. Qed.

Lemma schema_ok_example : schema_ok (counting_world store_ab).
Proof.
  constructor.
  - exact wf_store_ab.
  - constructor; cbn [counting_world db uuidAt drawn].
    + intros n m _ _. apply counter_uuid_inj.
    + intros n _. reflexivity.
    + intros n _. reflexivity.
    + intros n _. reflexivity.
    + intros n _. reflexivity.
  - intros n _. reflexivity.
Qed.

(** *** Successful runs, step by step *)

Lemma bind_Ok {A B} (m : M A) (k : A -> M B) (w w' : World) (b : B) :
  bind m k w = (w', Ok b) ->
  exists w1 a, m w = (w1, Ok a) /\ k a w1 = (w', Ok b).
Proof.
  unfold bind. destruct (m w) as [w1 [a|e]]; [eauto|discriminate].
Qed.

Lemma wrap_Ok {A} (ctx : string) (m : M A) (w w' : World) (a : A) :
  wrap ctx m w = (w', Ok a) -> m w = (w', Ok a).
Proof.
  unfold wrap. destruct (m w) as [w1 [x|e]]; [|discriminate].
  now intros [= -> ->].
Qed.

Lemma ret_Ok {A} (x a : A) (w w' : World) : ret x w = (w', Ok a) -> w' = w.
Proof. now intros [= <- _]. Qed.

Lemma keeps_db_ret {A} (x : A) : keeps_db (ret x).
Proof. intros w w' a H. now apply ret_Ok in H as ->. Qed.

Lemma keeps_db_time_Now : keeps_db time_Now.
Proof. intros w w' a [= <- _]. reflexivity. Qed.

Lemma keeps_db_uuid_New : keeps_db uuid_New.
Proof. intros w w' a [= <- _]. reflexivity. Qed.

Lemma keeps_db_bind {A B} (m : M A) (k : A -> M B) :
  keeps_db m -> (forall a, keeps_db (k a)) -> keeps_db (bind m k).
Proof.
  intros Hm Hk w w' b H. apply bind_Ok in H. destruct H as (w1 & a & H1 & H2).
  rewrite (Hk a _ _ _ H2). exact (Hm _ _ _ H1).
Qed.

Lemma keeps_db_BeforeCreate_Issue (i : Issue) : keeps_db (BeforeCreate_Issue i).
Proof.
  unfold BeforeCreate_Issue. destruct (ID i =? ""); [|apply keeps_db_ret].
  apply keeps_db_bind; [apply keeps_db_uuid_New|intros u; apply keeps_db_ret].
Qed.

Lemma keeps_db_BeforeCreate_IssueScope (sc : IssueScope) :
  keeps_db (BeforeCreate_IssueScope sc).
Proof.
  unfold BeforeCreate_IssueScope. destruct (Scope_ID sc =? ""); [|apply keeps_db_ret].
  apply keeps_db_bind; [apply keeps_db_uuid_New|intros u; apply keeps_db_ret].
Qed.

Lemma keeps_db_BeforeCreate_Link (l : Link) : keeps_db (BeforeCreate_Link l).
Proof.
  unfold BeforeCreate_Link. destruct (Link_ID l =? ""); [|apply keeps_db_ret].
  apply keeps_db_bind; [apply keeps_db_uuid_New|intros u; apply keeps_db_ret].
Qed.

Lemma keeps_db_BeforeCreate_RelatedIssue (r : RelatedIssue) :
  keeps_db (BeforeCreate_RelatedIssue r).
Proof.
  unfold BeforeCreate_RelatedIssue. destruct (Rel_ID r =? ""); [|apply keeps_db_ret].
  apply keeps_db_bind; [apply keeps_db_uuid_New|intros u; apply keeps_db_ret].
Qed.

(** *** Writing links *)

Lemma only_links_changed_refl (s : Store) : only_links_changed s s.
Proof. unfold only_links_changed. tauto. Qed.

Lemma only_links_changed_trans (s1 s2 s3 : Store) :
  only_links_changed s1 s2 -> only_links_changed s2 s3 ->
  only_links_changed s1 s3.
Proof.
  intros (A1 & A2 & A3 & A4) (B1 & B2 & B3 & B4).
  unfold only_links_changed.
  split; [congruence|]. split; [congruence|]. split; [congruence|auto].
Qed.

Lemma only_links_changed_same (s s' : Store) :
  s' = s -> only_links_changed s s'.
Proof. intros ->. apply only_links_changed_refl. Qed.

Lemma writes_links_keeps_db {A} (m : M A) : keeps_db m -> writes_links m.
Proof.
  intros H w w' a E. apply only_links_changed_same. exact (H _ _ _ E).
Qed.

Lemma writes_links_bind {A B} (m : M A) (k : A -> M B) :
  writes_links m -> (forall a, writes_links (k a)) -> writes_links (bind m k).
Proof.
  intros Hm Hk w w' b H. apply bind_Ok in H. destruct H as (w1 & a & H1 & H2).
  eapply only_links_changed_trans; [exact (Hm _ _ _ H1)|exact (Hk _ _ _ _ H2)].
Qed.

Lemma writes_links_wrap {A} (ctx : string) (m : M A) :
  writes_links m -> writes_links (wrap ctx m).
Proof. intros Hm w w' a H. apply wrap_Ok in H. exact (Hm _ _ _ H). Qed.

Lemma writes_links_insert_link (l : Link) : writes_links (insert_link l).
Proof.
  intros w w' u. unfold insert_link, bind, get_db.
  destruct (has_link (db w) (Link_ID l)) eqn:HL; [discriminate|].
  destruct (has_issue (db w) (IssueID l)) eqn:HI; [|discriminate].
  cbn [negb]. intros [= <- _]. cbn [with_db db].
  split; [reflexivity|]. split; [reflexivity|]. split; [reflexivity|].
  intros [P1 P2 P3 P4 P5 F1 F2 F3].
  constructor; cbn [issues issue_scopes links related_issues];
    try assumption.
  - apply keys_distinct_after_insert; [exact P3|exact HL].
  - intros x Hx. apply in_app_or in Hx.
    destruct Hx as [Hx|[<-|[]]]; [exact (F2 x Hx)|exact HI].
Qed.

Lemma writes_links_delete_links_of (id : string) :
  writes_links (delete_links_of id).
Proof.
  intros w w' u. unfold delete_links_of, bind, get_db, put_db.
  intros [= <- _]. cbn [with_db db].
  split; [reflexivity|]. split; [reflexivity|]. split; [reflexivity|].
  intros [P1 P2 P3 P4 P5 F1 F2 F3].
  constructor; cbn [issues issue_scopes links related_issues];
    try assumption.
  - now apply keys_distinct_after_delete.
  - intros x Hx. apply filter_In in Hx. apply F2. tauto.
Qed.

Lemma writes_links_Create_Link (l : Link) : writes_links (Create_Link l).
Proof.
  unfold Create_Link. apply writes_links_bind.
  - apply writes_links_keeps_db, keeps_db_BeforeCreate_Link.
  - intros l'. apply writes_links_bind; [apply writes_links_insert_link|].
    intros _. apply writes_links_keeps_db, keeps_db_ret.
Qed.

Lemma writes_links_Create_Links (issueID : string) (ls : list Link) :
  writes_links (Create_Links issueID ls).
Proof.
  induction ls as [|l rest IH]; cbn [Create_Links].
  - apply writes_links_keeps_db, keeps_db_ret.
  - apply writes_links_bind; [apply writes_links_Create_Link|intros _; exact IH].
Qed.

Lemma writes_links_replaceIssueLinks (issueID : string)
      (ls : list CreateLinkRequest) :
  writes_links (replaceIssueLinks issueID ls).
Proof.
  unfold replaceIssueLinks. apply writes_links_bind.
  - apply writes_links_wrap, writes_links_delete_links_of.
  - intros _. induction ls as [|l rest IH]; cbn [replaceIssueLinks_create].
    + apply writes_links_keeps_db, keeps_db_ret.
    + apply writes_links_bind; [|intros _; exact IH].
      apply writes_links_wrap, writes_links_Create_Link.
Qed.

(** *** What keeps the pairs *)

Lemma paired_links_changed (s s' : Store) :
  only_links_changed s s' -> paired s -> paired s'.
Proof.
  intros (HI & HS & _ & Hwf) [W O]. split; [auto|].
  intros sc Hsc. rewrite HS in Hsc. rewrite HI. exact (O sc Hsc).
Qed.

Lemma paired_rows_updated (s s' : Store) (f : Issue -> Issue)
      (g : IssueScope -> IssueScope) :
  issues s' = map f (issues s) ->
  (forall i, ID (f i) = ID i) -> (forall i, ScopeID (f i) = ScopeID i) ->
  issue_scopes s' = map g (issue_scopes s) ->
  (forall sc, Scope_ID (g sc) = Scope_ID sc) ->
  links s' = links s -> related_issues s' = related_issues s ->
  paired s -> paired s'.
Proof.
  intros HI Hid Hsid HS Hgid HL HR [[P1 P2 P3 P4 P5 F1 F2 F3] O].
  assert (Hhas : forall u, has_issue s' u = has_issue s u).
  { intros u. unfold has_issue. rewrite HI. now apply (existsb_key_map ID). }
  assert (Hhas_s : forall u, has_scope s' u = has_scope s u).
  { intros u. unfold has_scope. rewrite HS. now apply (existsb_key_map Scope_ID). }
  split.
  - constructor.
    + rewrite HI, map_map. erewrite map_ext; [exact P1|auto].
    + rewrite HS, map_map. erewrite map_ext; [exact P2|auto].
    + now rewrite HL.
    + now rewrite HR.
    + rewrite HI, map_map. erewrite map_ext; [exact P5|auto].
    + intros i' Hi'. rewrite HI in Hi'. apply in_map_iff in Hi'.
      destruct Hi' as [i [<- Hi]]. rewrite Hsid, Hhas_s. auto.
    + intros l Hl. rewrite HL in Hl. rewrite Hhas. auto.
    + intros r Hr. rewrite HR in Hr. rewrite !Hhas. auto.
  - intros sc' Hsc'. rewrite HS in Hsc'. apply in_map_iff in Hsc'.
    destruct Hsc' as [sc [<- Hsc]]. destruct (O sc Hsc) as (i & Hi & E).
    exists (f i). split; [rewrite HI; now apply in_map|].
    now rewrite Hsid, Hgid.
Qed.

Lemma paired_after_insert (s : Store) (i : Issue) (sc : IssueScope) :
  paired s ->
  has_scope s (Scope_ID sc) = false ->
  has_issue s (ID i) = false ->
  existsb (fun j => ScopeID j =? ScopeID i) (issues s) = false ->
  ScopeID i = Scope_ID sc ->
  paired (mkStore (issues s ++ [i]) (issue_scopes s ++ [sc]) (links s)
                  (related_issues s)).
Proof.
  intros [[P1 P2 P3 P4 P5 F1 F2 F3] O] Hs Hi Hu E.
  assert (Hmono : forall u, has_issue s u = true ->
                  existsb (fun j => ID j =? u) (issues s ++ [i]) = true).
  { intros u Hu'. now apply existsb_app_left. }
  split.
  - constructor; cbn [issues issue_scopes links related_issues]; auto.
    + now apply keys_distinct_after_insert.
    + now apply keys_distinct_after_insert.
    + now apply keys_distinct_after_insert.
    + intros j Hj. unfold has_scope. cbn [issue_scopes].
      apply in_app_or in Hj. destruct Hj as [Hj|[<-|[]]].
      * apply existsb_app_left. exact (F1 j Hj).
      * rewrite existsb_app_one, E, String.eqb_refl. apply orb_true_r.
    + intros l Hl. apply Hmono. exact (F2 l Hl).
    + intros r Hr. destruct (F3 r Hr). split; now apply Hmono.
  - intros x Hx. cbn [issues issue_scopes] in *.
    apply in_app_or in Hx. destruct Hx as [Hx|[<-|[]]].
    + destruct (O x Hx) as (j & Hj & Ej). exists j.
      split; [apply in_or_app; now left|exact Ej].
    + exists i. split; [apply in_or_app; right; now left|exact E].
Qed.

Lemma paired_after_delete (s : Store) (i : Issue) :
  paired s -> In i (issues s) -> paired (store_without s (ID i) (ScopeID i)).
Proof.
  intros [W O] Hi. split; [now apply store_without_wf|].
  intros sc Hsc. cbn [store_without issue_scopes issues] in *.
  apply filter_In in Hsc. destruct Hsc as [Hsc Hne].
  apply negb_true_iff, String.eqb_neq in Hne.
  destruct (O sc Hsc) as (j & Hj & E). exists j. split; [|exact E].
  apply filter_In. split; [exact Hj|].
  apply negb_true_iff, String.eqb_neq. intros Eid.
  assert (j = i) by (apply (NoDup_map_inj ID (issues s)); auto; apply W).
  subst j. congruence.
Qed.

Lemma paired_related_changed (s : Store) (rows : list RelatedIssue) :
  NoDup (map Rel_ID rows) ->
  (forall r, In r rows ->
             has_issue s (SourceID r) = true /\ has_issue s (TargetID r) = true) ->
  paired s ->
  paired (mkStore (issues s) (issue_scopes s) (links s) rows).
Proof.
  intros ND FK [[P1 P2 P3 P4 P5 F1 F2 F3] O]. split.
  - constructor; auto.
  - exact O.
Qed.

(** *** The steps of the transactions *)

Lemma update_issues_Ok (p : Issue -> bool) (u : IssueUpdates)
      (w w' : World) (n : Z) :
  update_issues p u w = (w', Ok n) ->
  paired (db w) -> paired (db w').
Proof.
  unfold update_issues, bind, get_db, put_db, ret. intros [= <- _].
  cbn [with_db db].
  apply (paired_rows_updated (db w) _
           (fun i => if p i then apply_updates u i else i) (fun sc => sc));
    cbn [issues issue_scopes links related_issues]; auto.
  - intros i. now destruct (p i).
  - intros i. now destruct (p i).
  - now rewrite map_id.
Qed.

Lemma update_scopes_Ok (p : IssueScope -> bool) (req : ScopeReqBodyOptional)
      (w w' : World) (u : unit) :
  update_scopes p req w = (w', Ok u) ->
  paired (db w) -> paired (db w').
Proof.
  unfold update_scopes, bind, get_db, put_db. intros [= <- _].
  cbn [with_db db].
  apply (paired_rows_updated (db w) _ (fun i => i)
           (fun sc => if p sc then apply_scope_updates req sc else sc));
    cbn [issues issue_scopes links related_issues]; auto.
  - now rewrite map_id.
  - intros sc. now destruct (p sc).
Qed.

Lemma updateIssueInTx_Ok (e : Issue) (req : IssuePayload) (w w' : World)
      (u : unit) :
  updateIssueInTx e req w = (w', Ok u) ->
  paired (db w) -> paired (db w').
Proof.
  unfold updateIssueInTx. intros H Hp.
  apply bind_Ok in H. destruct H as (w1 & t1 & H1 & H).
  apply keeps_db_time_Now in H1.
  apply bind_Ok in H. destruct H as (w2 & ra & H2 & H).
  assert (E2 : db w2 = db w1).
  { clear H. revert H2. destruct (GetState req =? ""); [apply keeps_db_ret|].
    destruct ((GetState req =? IssueStateResolved)
              && negb (State e =? IssueStateResolved)).
    - apply keeps_db_bind; [apply keeps_db_time_Now|intros t; apply keeps_db_ret].
    - destruct (negb (IsZero (GetResolvedAt req))); apply keeps_db_ret. }
  apply bind_Ok in H. destruct H as (w3 & n & H3 & H).
  apply wrap_Ok in H3. apply update_issues_Ok in H3.
  apply bind_Ok in H. destruct H as (w4 & u4 & H4 & H5).
  assert (P4 : paired (db w3) -> paired (db w4)).
  { clear H5. revert H4. destruct (negb (length (GetLinks req) =? 0)%nat).
    - intros H4. apply wrap_Ok in H4.
      apply paired_links_changed.
      exact (writes_links_replaceIssueLinks _ _ _ _ _ H4).
    - intros H4. now apply ret_Ok in H4 as ->. }
  assert (P5 : paired (db w4) -> paired (db w')).
  { revert H5. destruct (negb (scopeReq_eqb (GetScope req) emptyScopeReq)).
    - unfold updateIssueScopeInTx. apply update_scopes_Ok.
    - intros H5. now apply ret_Ok in H5 as ->. }
  apply P5, P4, H3. now rewrite E2, H1.
Qed.

Lemma insert_scope_Ok (sc : IssueScope) (w w' : World) (u : unit) :
  insert_scope sc w = (w', Ok u) ->
  has_scope (db w) (Scope_ID sc) = false
  /\ db w' = mkStore (issues (db w)) (issue_scopes (db w) ++ [sc])
                     (links (db w)) (related_issues (db w)).
Proof.
  unfold insert_scope, bind, get_db.
  destruct (has_scope (db w) (Scope_ID sc)); [discriminate|].
  intros [= <- _]. auto.
Qed.

Lemma insert_issue_Ok (i : Issue) (w w' : World) (u : unit) :
  insert_issue i w = (w', Ok u) ->
  has_issue (db w) (ID i) = false
  /\ existsb (fun j => ScopeID j =? ScopeID i) (issues (db w)) = false
  /\ has_scope (db w) (ScopeID i) = true
  /\ db w' = mkStore (issues (db w) ++ [i]) (issue_scopes (db w))
                     (links (db w)) (related_issues (db w)).
Proof.
  unfold insert_issue, bind, get_db.
  destruct (has_issue (db w) (ID i)); [discriminate|].
  destruct (existsb _ (issues (db w))); [discriminate|].
  destruct (has_scope (db w) (ScopeID i)); [|discriminate].
  cbn [negb]. intros [= <- _]. auto.
Qed.

Lemma Create_Issue_Ok (i : Issue) (sc : IssueScope) (ls : list Link)
      (w w' : World) (r : Issue) :
  Create_Issue i sc ls w = (w', Ok r) ->
  paired (db w) -> paired (db w').
Proof.
  unfold Create_Issue. intros H Hp.
  apply bind_Ok in H. destruct H as (w1 & i1 & H1 & H).
  apply keeps_db_BeforeCreate_Issue in H1.
  apply bind_Ok in H. destruct H as (w2 & sc' & H2 & H).
  apply keeps_db_BeforeCreate_IssueScope in H2.
  apply bind_Ok in H. destruct H as (w3 & u3 & H3 & H).
  apply insert_scope_Ok in H3. destruct H3 as [Hs E3].
  apply bind_Ok in H. destruct H as (w4 & t & H4 & H).
  apply keeps_db_time_Now in H4.
  apply bind_Ok in H. destruct H as (w5 & u5 & H5 & H).
  apply insert_issue_Ok in H5. destruct H5 as (Hi & Hu & _ & E5).
  apply bind_Ok in H. destruct H as (w6 & u6 & H6 & H).
  apply writes_links_Create_Links in H6.
  apply ret_Ok in H. subst w'.
  apply (paired_links_changed _ _ H6).
  rewrite E5, H4, E3 in *. cbn [issues issue_scopes links related_issues] in *.
  rewrite H2, H1 in *.
  now apply (paired_after_insert (db w)).
Qed.

Lemma createNewIssueInTx_Ok (req : IssuePayload) (w w' : World) (r : Issue) :
  createNewIssueInTx req w = (w', Ok r) ->
  paired (db w) -> paired (db w').
Proof.
  unfold createNewIssueInTx. intros H Hp.
  apply bind_Ok in H. destruct H as (w1 & t & H1 & H).
  apply keeps_db_time_Now in H1. apply wrap_Ok in H.
  apply (Create_Issue_Ok _ _ _ _ _ _ H). now rewrite H1.
Qed.

(** *** The calls *)

Lemma committed_or_rolled_back {A} (body : M A) (k : A -> string) (w : World) :
  store_after (a <- Transaction body ;; FindByID (k a)) w = db w
  \/ exists w1 a, body w = (w1, Ok a)
                  /\ store_after (a <- Transaction body ;; FindByID (k a)) w
                     = db w1.
Proof.
  unfold store_after, bind, Transaction.
  destruct (body w) as [w1 [a|e]] eqn:E; [|left; reflexivity].
  right. exists w1, a. split; [reflexivity|].
  now destruct (FindByID_total (k a) w1) as [r ->].
Qed.

Lemma CreateOrUpdate_keeps_pairs (req : IssuePayload) (w : World) :
  paired (db w) -> paired (store_after (CreateOrUpdate req) w).
Proof.
  intros Hp. unfold CreateOrUpdate.
  destruct (committed_or_rolled_back
              (existingIssue <- wrap "failed to check for existing issue"
                                     (findDuplicateInTx req) ;;
               match existingIssue with
               | None =>
                   newIssue <- wrap "failed to create issue"
                                    (createNewIssueInTx req) ;;
                   ret newIssue
               | Some e => updateIssueInTx (iv_Issue e) req ;;; ret (iv_Issue e)
               end) ID w) as [->|(w1 & a & H & ->)]; [exact Hp|].
  apply bind_Ok in H. destruct H as (w0 & ex & H0 & H).
  apply wrap_Ok in H0. rewrite findDuplicateInTx_run in H0.
  injection H0 as <- _. destruct ex as [e|].
  - apply bind_Ok in H. destruct H as (w2 & u & H2 & H).
    apply ret_Ok in H. subst w1. exact (updateIssueInTx_Ok _ _ _ _ _ H2 Hp).
  - apply bind_Ok in H. destruct H as (w2 & i & H2 & H).
    apply ret_Ok in H. subst w1. apply wrap_Ok in H2.
    exact (createNewIssueInTx_Ok _ _ _ _ H2 Hp).
Qed.

Lemma Create_keeps_pairs (req : IssuePayload) (w : World) :
  paired (db w) -> paired (store_after (Create req) w).
Proof.
  intros Hp.
  pose proof (committed_or_rolled_back
                (existingIssue <- wrap "failed to check for duplicates"
                                       (findDuplicateInTx req) ;;
                 match existingIssue with
                 | Some e =>
                     updateIssueInTx (iv_Issue e) (create_update_req req) ;;;
                     ret (iv_Issue e)
                 | None => createNewIssueInTx req
                 end) ID w) as Hc.
  change (store_after _ w) with (store_after (Create req) w) in Hc.
  destruct Hc as [->|(w1 & a & H & ->)]; [exact Hp|].
  apply bind_Ok in H. destruct H as (w0 & ex & H0 & H).
  apply wrap_Ok in H0. rewrite findDuplicateInTx_run in H0.
  injection H0 as <- _. destruct ex as [e|].
  - apply bind_Ok in H. destruct H as (w2 & u & H2 & H).
    apply ret_Ok in H. subst w1. exact (updateIssueInTx_Ok _ _ _ _ _ H2 Hp).
  - exact (createNewIssueInTx_Ok _ _ _ _ H Hp).
Qed.

Lemma Update_keeps_pairs (id : string) (req : IssuePayload) (w : World) :
  paired (db w) -> paired (store_after (Update id req) w).
Proof.
  intros Hp. unfold store_after, Update, bind at 1.
  destruct (FindByID_total id w) as [[v|] ->]; [|exact Hp].
  destruct (committed_or_rolled_back (updateIssueInTx (iv_Issue v) req)
              (fun _ => id) w) as [E|(w1 & a & H & E)];
    unfold store_after in E; rewrite E; [exact Hp|].
  exact (updateIssueInTx_Ok _ _ _ _ _ H Hp).
Qed.

Lemma Delete_keeps_pairs (id : string) (w : World) :
  paired (db w) -> paired (store_after (Delete id) w).
Proof.
  intros Hp. unfold store_after. destruct (has_issue (db w) id) eqn:Hi.
  - apply has_issue_true in Hi. destruct Hi as [i [Hin <-]].
    pose proof Hp as [W _].
    rewrite (Delete_existing w i (wf_issue_pk _ W) (wf_scope_unique _ W) Hin).
    cbn [fst with_db db]. now apply paired_after_delete.
  - now rewrite (Delete_missing w id Hi).
Qed.

Lemma ResolveByScope_keeps_pairs (rt rn ns : string) (w : World) :
  paired (db w) -> paired (store_after (ResolveByScope rt rn ns) w).
Proof.
  intros Hp. pose proof Hp as [W _].
  destruct (ResolveByScope_run w rt rn ns (wf_issue_pk _ W)) as [_ ->].
  apply (paired_rows_updated (db w) _
           (fun i => if active_in_scope (db w) rt rn ns i
                     then resolved_at (nowAt w (tick w)) i else i)
           (fun sc => sc));
    cbn [issues issue_scopes links related_issues]; auto.
  - intros i. now destruct (active_in_scope _ _ _ _ i).
  - intros i. now destruct (active_in_scope _ _ _ _ i).
  - now rewrite map_id.
Qed.

Lemma insert_related_store (r : RelatedIssue) (w : World) :
  paired (db w) -> paired (db (fst (insert_related r w))).
Proof.
  intros Hp. unfold insert_related, bind, get_db.
  destruct (has_related (db w) (Rel_ID r)) eqn:HR; [exact Hp|].
  destruct (has_issue (db w) (SourceID r)) eqn:HS; [|exact Hp].
  destruct (has_issue (db w) (TargetID r)) eqn:HT; [|exact Hp].
  cbn [negb fst put_db with_db db].
  pose proof Hp as [W _].
  apply paired_related_changed; auto.
  - apply keys_distinct_after_insert; [apply W|exact HR].
  - intros x Hx. apply in_app_or in Hx.
    destruct Hx as [Hx|[<-|[]]]; [now apply (wf_related_fk _ W)|auto].
Qed.

Lemma AddRelatedIssue_keeps_pairs (a b : string) (w : World) :
  paired (db w) -> paired (store_after (AddRelatedIssue a b) w).
Proof.
  intros Hp. unfold store_after, AddRelatedIssue, bind at 1.
  destruct (FindByID_total a w) as [ra ->]. unfold bind at 1.
  destruct (FindByID_total b w) as [rb ->].
  destruct ra as [va|]; [|exact Hp]. destruct rb as [vb|]; [|exact Hp].
  unfold bind at 1, get_db.
  destruct (filter (pair_where a b) (related_issues (db w))); [|exact Hp].
  unfold bind, wrap, Create_RelatedIssue, bind.
  destruct (BeforeCreate_RelatedIssue (mkRelatedIssue "" a b) w)
    as [w1 [r'|e]] eqn:E1; [|discriminate E1].
  apply keeps_db_BeforeCreate_RelatedIssue in E1.
  assert (Hp1 : paired (db w1)) by now rewrite E1.
  pose proof (insert_related_store r' w1 Hp1) as Hp2.
  destruct (insert_related r' w1) as [w2 [u|e]]; exact Hp2.
Qed.

Lemma RemoveRelatedIssue_keeps_pairs (a b : string) (w : World) :
  paired (db w) -> paired (store_after (RemoveRelatedIssue a b) w).
Proof.
  intros Hp.
  assert (Hw : exists r,
             RemoveRelatedIssue a b w
             = (with_db w (mkStore (issues (db w)) (issue_scopes (db w))
                             (links (db w))
                             (filter (fun r => negb (pair_where a b r))
                                     (related_issues (db w)))), r)).
  { unfold RemoveRelatedIssue, bind, wrap. rewrite delete_related_run.
    destruct (_ =? 0)%Z; eexists; reflexivity. }
  destruct Hw as [r Hw]. unfold store_after. rewrite Hw. cbn [fst with_db db].
  pose proof Hp as [W _].
  apply paired_related_changed; auto.
  - apply keys_distinct_after_delete. apply W.
  - intros x Hx. apply filter_In in Hx. apply (wf_related_fk _ W). tauto.
Qed.

(** No call leaves a scope without its issue.  From a store that
    satisfies the schema and in which every scope row is the scope of an
    issue, any sequence of calls that write leaves such a store, whether
    the calls succeed or fail and whatever identifiers they draw, new or
    already in use: an issue is created with its scope or not at all (a
    creation that fails after the scope was inserted is rolled back), and
    an issue is deleted with its scope. *)
Theorem calls_keep_issues_and_scopes_paired (cs : list Call) (w : World) :
  paired (db w) -> paired (db (after_calls cs w)).
Proof.
  revert w. induction cs as [|c rest IH]; intros w Hp; [exact Hp|].
  cbn [after_calls]. apply IH.
  destruct c; cbn [after_call].
  - now apply CreateOrUpdate_keeps_pairs.
  - now apply Create_keeps_pairs.
  - now apply Update_keeps_pairs.
  - now apply Delete_keeps_pairs.
  - now apply ResolveByScope_keeps_pairs.
  - now apply AddRelatedIssue_keeps_pairs.
  - now apply RemoveRelatedIssue_keeps_pairs.
Qed.

Lemma paired_store_ab : paired store_ab.
Proof.
  split; [exact wf_store_ab|].
  intros sc [<-|[<-|[]]];
    [exists issue_a|exists issue_b]; split; try reflexivity;
    [left|right; left]; reflexivity.
Qed.

Lemma calls_keep_issues_and_scopes_paired_witness :
  result_of (CreateOrUpdate report_first_linked) (colliding_world store_ab)
  = Err "failed to create issue: failed to create issue: duplicate key value violates unique constraint links_pkey"
  /\ every_scope_owned
       (db (after_calls [CallCreateOrUpdate report_first_linked;
                         CallAddRelatedIssue id_b id_a;
                         CallUpdate id_b links_only_req;
                         CallResolveByScope "pipelinerun" "build-1" "team-a";
                         CallDelete id_a;
                         CallCreate report_cross]
                        (colliding_world store_ab))).
Proof.
  split; [reflexivity|].
  apply (calls_keep_issues_and_scopes_paired _ (colliding_world store_ab)).
  exact paired_store_ab.
Defined.

(* ------------------------------------------------------------------ *)
(** ** A created issue, read back *)

Lemma find_app_none {A} (p : A -> bool) (l l' : list A) :
  existsb p l = false -> find p (l ++ l') = find p l'.
Proof.
  induction l as [|x r IH]; simpl; [reflexivity|].
  destruct (p x); [discriminate|exact IH].
Qed.

Lemma CreateOrUpdate_unmatched_run (w : World) (req : IssuePayload) :
  schema_ok w ->
  result_of (findDuplicateInTx req) w = Ok None ->
  let u0 := uuidAt w (drawn w) in
  let u1 := uuidAt w (S (drawn w)) in
  let i := created_issue req u0 u1 (nowAt w (tick w)) (nowAt w (S (tick w))) in
  let news := new_links (uuidAt w) (S (S (drawn w))) u0 (GetLinks req) in
  store_after (CreateOrUpdate req) w
  = mkStore (issues (db w) ++ [i])
            (issue_scopes (db w) ++ [created_scope req u1])
            (links (db w) ++ news) (related_issues (db w))
  /\ result_of (CreateOrUpdate req) w
     = Ok (Some (mkIssueView i (created_scope req u1) news [] [])).
Proof.
  intros Hok Hnone u0 u1 i news.
  destruct Hok as [[P1 P2 P3 P4 P5 F1 F2 F3] F FR].
  pose proof (createNewIssueInTx_run w req F) as Hrun. cbv zeta in Hrun.
  fold u0 u1 i news in Hrun.
  pose proof (fresh_issue _ F (drawn w) (Nat.le_refl _)) as H0.
  pose proof (fresh_scope _ F (S (drawn w)) (Nat.le_succ_diag_r _)) as H1.
  fold u0 in H0. fold u1 in H1.
  set (w' := mkWorld (mkStore (issues (db w) ++ [i])
                        (issue_scopes (db w) ++ [created_scope req u1])
                        (links (db w) ++ news) (related_issues (db w)))
                     (nowAt w) (S (S (tick w))) (uuidAt w)
                     (S (S (drawn w)) + length (GetLinks req))) in *.
  assert (ND' : NoDup (map ID (issues (db w')))).
  { cbn [w' db issues]. apply keys_distinct_after_insert; auto. }
  assert (Hin : In i (issues (db w'))).
  { cbn [w' db issues]. apply in_or_app. right. left. reflexivity. }
  assert (HC : CreateOrUpdate req w = (w', Ok (Some (load_associations (db w') i)))).
  { unfold CreateOrUpdate, bind at 1, Transaction, bind at 1, wrap at 1.
    unfold result_of in Hnone. rewrite findDuplicateInTx_run in Hnone |- *.
    cbn [snd] in Hnone. destruct (First _); [discriminate|].
    unfold bind, wrap, ret. rewrite Hrun.
    exact (FindByID_view w' i ND' Hin). }
  unfold store_after, result_of. rewrite HC. cbn [fst snd].
  split; [reflexivity|]. do 2 f_equal.
  unfold load_associations. cbn [w' db issues issue_scopes links related_issues].
  assert (Hnolink : forall l, In l (links (db w)) -> (IssueID l =? u0) = false).
  { intros l Hl. apply String.eqb_neq. intros E.
    pose proof (F2 l Hl) as Hx. rewrite E in Hx. congruence. }
  assert (Hnorel : forall r, In r (related_issues (db w)) ->
                   (SourceID r =? u0) = false /\ (TargetID r =? u0) = false).
  { intros r Hr. destruct (F3 r Hr) as [Hs Ht].
    split; apply String.eqb_neq; intros E; rewrite E in *; congruence. }
  f_equal.
  - unfold scope_by_id. cbn [issue_scopes ScopeID i created_issue].
    rewrite find_app_none by exact H1.
    cbn [find Scope_ID created_scope]. now rewrite String.eqb_refl.
  - unfold links_of. cbn [links ID i created_issue]. rewrite filter_app.
    rewrite (proj2 (filter_nil_forall _ _) Hnolink). cbn [app].
    apply filter_all_true. intros l Hl. apply String.eqb_eq.
    exact (new_links_owner _ _ _ _ _ Hl).
  - apply filter_nil_forall. intros r Hr. apply (Hnorel r Hr).
  - apply filter_nil_forall. intros r Hr. apply (Hnorel r Hr).
Qed.

(** The first report of a key, read back: when the resolver matches
    nothing, [CreateOrUpdate] adds one issue, one scope and one link for
    each link of the report, and returns the record of the report: its
    title, description, severity, type and namespace; state ACTIVE when
    the report carries none; the time of the call as detection time and
    no resolution time, whatever the state; the scope of the report, its
    resource namespace defaulting to the namespace; the links in the
    order they were given; no relationship. *)
Theorem created_issue_reads_back (w : World) (req : IssuePayload) :
  schema_ok w ->
  result_of (findDuplicateInTx req) w = Ok None ->
  exists v,
    result_of (CreateOrUpdate req) w = Ok (Some v)
    /\ In (iv_Issue v) (issues (store_after (CreateOrUpdate req) w))
    /\ (Title (iv_Issue v) = GetTitle req
        /\ Description (iv_Issue v) = GetDescription req
        /\ Severity_ (iv_Issue v) = GetSeverity req
        /\ IssueType_ (iv_Issue v) = GetIssueType req
        /\ Namespace (iv_Issue v) = GetNamespace req)
    /\ State (iv_Issue v)
       = (if GetState req =? "" then IssueStateActive else GetState req)
    /\ DetectedAt (iv_Issue v) = nowAt w (tick w)
    /\ ResolvedAt (iv_Issue v) = None
    /\ (Scope_ID (iv_Scope v) = ScopeID (iv_Issue v)
        /\ ResourceType (iv_Scope v) = GetResourceType (GetScope req)
        /\ ResourceName (iv_Scope v) = GetResourceName (GetScope req)
        /\ ResourceNamespace (iv_Scope v)
           = (if GetResourceNamespace (GetScope req) =? "" then GetNamespace req
              else GetResourceNamespace (GetScope req)))
    /\ map (fun l => mkLinkReq (Link_Title l) (URL l)) (iv_Links v) = GetLinks req
    /\ iv_RelatedFrom v = [] /\ iv_RelatedTo v = []
    /\ length (issues (store_after (CreateOrUpdate req) w))
       = S (length (issues (db w)))
    /\ length (issue_scopes (store_after (CreateOrUpdate req) w))
       = S (length (issue_scopes (db w)))
    /\ length (links (store_after (CreateOrUpdate req) w))
       = length (links (db w)) + length (GetLinks req)
    /\ related_issues (store_after (CreateOrUpdate req) w)
       = related_issues (db w).
Proof.
  intros Hok Hnone.
  destruct (CreateOrUpdate_unmatched_run w req Hok Hnone) as [HS HR].
  cbv zeta in HS, HR. eexists. split; [exact HR|]. rewrite HS.
  cbn [iv_Issue iv_Scope iv_Links iv_RelatedFrom iv_RelatedTo issues
       issue_scopes links related_issues].
  split; [apply in_or_app; right; left; reflexivity|].
  split; [repeat split|]. split; [reflexivity|]. split; [reflexivity|].
  split; [reflexivity|]. split; [repeat split|].
  split; [apply new_links_shape|].
  split; [reflexivity|]. split; [reflexivity|].
  rewrite !length_app. cbn [length].
  split; [lia|]. split; [lia|]. split; [|reflexivity].
  f_equal. rewrite <- (length_map Link_ID), new_links_keys.
  now rewrite length_map, length_seq.
Qed.

Lemma created_issue_reads_back_witness :
  exists v,
    result_of (CreateOrUpdate report_first_linked) (counting_world store_ab)
    = Ok (Some v)
    /\ Title (iv_Issue v) = "Build failed"
    /\ State (iv_Issue v) = IssueStateActive
    /\ ResourceNamespace (iv_Scope v) = "team-a"
    /\ map (fun l => mkLinkReq (Link_Title l) (URL l)) (iv_Links v)
       = [mkLinkReq "logs" "https://logs/9"].
Proof.
  destruct (created_issue_reads_back (counting_world store_ab) report_first_linked
              schema_ok_example eq_refl)
    as (v & H1 & _ & (H2 & _) & H3 & _ & _ & (_ & _ & _ & H4) & H5 & _).
  exists v. repeat split; auto.
Defined.

(* ------------------------------------------------------------------ *)
(** ** Resolving twice *)

Lemma active_in_scope_scopes (s s' : Store) (rt rn ns : string) (i : Issue) :
  issue_scopes s' = issue_scopes s ->
  active_in_scope s' rt rn ns i = active_in_scope s rt rn ns i.
Proof. intros E. unfold active_in_scope. now rewrite E. Qed.

(** [ResolveByScope] is idempotent: called again with the same scope and
    namespace right after a call, it finds no ACTIVE issue, returns 0 and
    leaves the store as the first call left it; the issues the first call
    resolved keep the resolution time it gave them. *)
Theorem ResolveByScope_twice (w : World) (rt rn ns : string) :
  NoDup (map ID (issues (db w))) ->
  let w1 := fst (ResolveByScope rt rn ns w) in
  result_of (ResolveByScope rt rn ns) w1 = Ok 0%Z
  /\ store_after (ResolveByScope rt rn ns) w1 = db w1.
Proof.
  intros ND w1.
  destruct (ResolveByScope_run w rt rn ns ND) as [_ HS].
  unfold store_after in HS. fold w1 in HS.
  assert (ND1 : NoDup (map ID (issues (db w1)))).
  { rewrite HS. cbn [issues]. rewrite map_map.
    erewrite map_ext; [exact ND|].
    intros i. now destruct (active_in_scope _ _ _ _ i). }
  assert (Hnone : forall i, In i (issues (db w1)) ->
                  active_in_scope (db w1) rt rn ns i = false).
  { intros i Hi.
    rewrite (active_in_scope_scopes (db w) (db w1)) by (rewrite HS; reflexivity).
    rewrite HS in Hi. cbn [issues] in Hi. apply in_map_iff in Hi.
    destruct Hi as (j & <- & _).
    destruct (active_in_scope (db w) rt rn ns j) eqn:A; [reflexivity|exact A]. }
  destruct (ResolveByScope_run w1 rt rn ns ND1) as [HR1 HS1].
  split.
  - rewrite HR1. apply filter_nil_forall in Hnone. now rewrite Hnone.
  - rewrite HS1, (map_if_false _ _ _ Hnone). apply store_eta.
Qed.

Lemma ResolveByScope_twice_witness :
  result_of (ResolveByScope "pipelinerun" "build-1" "team-a") (world_of store_ab)
  = Ok 1%Z
  /\ result_of (ResolveByScope "pipelinerun" "build-1" "team-a")
               (fst (ResolveByScope "pipelinerun" "build-1" "team-a"
                       (world_of store_ab)))
     = Ok 0%Z.
Proof.
  split; [vm_compute; reflexivity|].
  apply (ResolveByScope_twice (world_of store_ab)). exact (wf_issue_pk _ wf_store_ab).
Defined.

(* ------------------------------------------------------------------ *)
(** ** What an update cannot change *)

(** An update, whatever it supplies, is local to one issue and keeps what
    identifies it: the returned record has the identifier, the instance,
    the detection and creation times and the scope of the stored one, and
    its update time is the time of the call; a resolution time, once set,
    is never cleared, so that an issue reopened to ACTIVE without a
    resolution time of its own keeps the old one; no issue, scope or
    relationship is added or removed, and every other issue is left as it
    was. *)
Theorem Update_touches_one_issue (w : World) (e : Issue) (req : IssuePayload) :
  NoDup (map ID (issues (db w))) ->
  In e (issues (db w)) ->
  fresh_links w (length (GetLinks req)) ->
  exists v,
    result_of (Update (ID e) req) w = Ok (Some v)
    /\ (ID (iv_Issue v) = ID e
        /\ Instance (iv_Issue v) = Instance e
        /\ DetectedAt (iv_Issue v) = DetectedAt e
        /\ CreatedAt (iv_Issue v) = CreatedAt e
        /\ ScopeID (iv_Issue v) = ScopeID e)
    /\ UpdatedAt (iv_Issue v) = nowAt w (tick w)
    /\ (ResolvedAt e <> None -> ResolvedAt (iv_Issue v) <> None)
    /\ (GetState req = IssueStateActive -> GetResolvedAt req = 0%Z ->
        State (iv_Issue v) = IssueStateActive
        /\ ResolvedAt (iv_Issue v) = ResolvedAt e)
    /\ map ID (issues (store_after (Update (ID e) req) w))
       = map ID (issues (db w))
    /\ (forall i, In i (issues (db w)) -> ID i <> ID e ->
        In i (issues (store_after (Update (ID e) req) w)))
    /\ map Scope_ID (issue_scopes (store_after (Update (ID e) req) w))
       = map Scope_ID (issue_scopes (db w))
    /\ related_issues (store_after (Update (ID e) req) w)
       = related_issues (db w).
Proof.
  intros ND He Hf.
  assert (Hi : has_issue (db w) (ID e) = true) by (apply has_issue_true; eauto).
  destruct (Update_run w (ID e) req Hi Hf)
    as (e' & w' & v & He' & Hid & HU & Hv & Hvid & _ & HI & HS & _ & HR).
  assert (e' = e) by (apply (NoDup_map_inj ID (issues (db w))); auto).
  subst e'. exists v. unfold result_of, store_after. rewrite HU. cbn [fst snd].
  split; [reflexivity|].
  assert (Hvv : iv_Issue v
                = apply_updates (issue_updates e req (nowAt w (tick w))
                                               (nowAt w (S (tick w)))) e).
  { rewrite HI in Hv. apply in_updated in Hv; auto.
    destruct Hv as (i & Hi' & Hii & ->).
    assert (i = e) by (apply (NoDup_map_inj ID (issues (db w))); auto).
    now subst i. }
  rewrite Hvv.
  split; [repeat split|]. split; [reflexivity|]. split.
  { unfold apply_updates, issue_updates. cbn [ResolvedAt u_resolved_at].
    intros Hres.
    destruct (GetState req =? ""); [exact Hres|].
    destruct (resolves e req); [discriminate|].
    destruct (IsZero (GetResolvedAt req)); [exact Hres|discriminate]. }
  split.
  { intros Hst Hz. unfold apply_updates, issue_updates, opt_nonempty, resolves.
    cbn [State ResolvedAt u_state u_resolved_at or_keep].
    rewrite Hst, Hz. split; reflexivity. }
  split; [rewrite HI; now apply NoDup_ids_updated|].
  split.
  { intros i Hin Hne. rewrite HI. apply in_map_iff. exists i.
    apply String.eqb_neq in Hne. now rewrite Hne. }
  split; [|exact HR].
  rewrite HS. destruct (scopeReq_eqb _ _); [reflexivity|].
  rewrite map_map. apply map_ext. intros sc.
  now destruct (Scope_ID sc =? ScopeID e).
Qed.

Lemma Update_touches_one_issue_witness :
  exists v,
    result_of (Update id_b reopen_req) (world_of store_ab) = Ok (Some v)
    /\ State (iv_Issue v) = IssueStateActive
    /\ ResolvedAt (iv_Issue v) = Some 30%Z
    /\ DetectedAt (iv_Issue v) = 20%Z.
Proof.
  destruct (Update_touches_one_issue (world_of store_ab) issue_b reopen_req)
    as (v & H1 & (_ & _ & H2 & _) & _ & _ & H3 & _).
  - exact (wf_issue_pk _ wf_store_ab).
  - right. left. reflexivity.
  - split; constructor.
  - exists v. destruct (H3 eq_refl eq_refl) as [H4 H5].
    split; [exact H1|]. split; [exact H4|]. split; [exact H5|exact H2].
Defined.

(* ------------------------------------------------------------------ *)
(** ** Updating the scope *)

Lemma Update_view (w : World) (e : Issue) (req : IssuePayload) :
  NoDup (map ID (issues (db w))) ->
  In e (issues (db w)) ->
  fresh_links w (length (GetLinks req)) ->
  let e' := apply_updates (issue_updates e req (nowAt w (tick w))
                                         (nowAt w (S (tick w)))) e in
  exists w',
    Update (ID e) req w = (w', Ok (Some (load_associations (db w') e')))
    /\ issues (db w')
       = map (fun i => if ID i =? ID e
                       then apply_updates
                              (issue_updates e req (nowAt w (tick w))
                                             (nowAt w (S (tick w)))) i
                       else i) (issues (db w))
    /\ issue_scopes (db w')
       = map (fun sc => if Scope_ID sc =? ScopeID e
                        then apply_scope_updates (GetScope req) sc else sc)
             (issue_scopes (db w))
    /\ related_issues (db w') = related_issues (db w).
Proof.
  intros ND He Hf e'.
  assert (Hi : has_issue (db w) (ID e) = true) by (apply has_issue_true; eauto).
  destruct (updateIssueInTx_run w e req Hi Hf)
    as (w' & Hrun & HI & HS & _ & HR & _).
  exists w'.
  assert (ND' : NoDup (map ID (issues (db w')))).
  { rewrite HI, NoDup_ids_updated; auto. }
  assert (Hin : In e' (issues (db w'))).
  { rewrite HI. apply in_map_iff. exists e. now rewrite String.eqb_refl. }
  split.
  { unfold Update, bind. rewrite (FindByID_view w e ND He).
    cbn [load_associations iv_Issue]. unfold Transaction. rewrite Hrun.
    exact (FindByID_view w' e' ND' Hin). }
  split; [exact HI|]. split; [|exact HR].
  rewrite HS. destruct (scopeReq_eqb (GetScope req) emptyScopeReq) eqn:E;
    [|reflexivity].
  symmetry. erewrite map_ext; [apply map_id|].
  intros sc. cbv beta. destruct (Scope_ID sc =? ScopeID e); [|reflexivity].
  unfold scopeReq_eqb in E. cbn in E.
  apply andb_true_iff in E. destruct E as [E E3].
  apply andb_true_iff in E. destruct E as [E1 E2].
  unfold apply_scope_updates. rewrite E1, E2, E3. now destruct sc.
Qed.

Lemma scope_row_updated (rows : list IssueScope) (g : IssueScope -> IssueScope)
      (sc : IssueScope) (id : string) :
  NoDup (map Scope_ID rows) -> In sc rows -> Scope_ID sc = id ->
  (forall x, Scope_ID (g x) = Scope_ID x) ->
  find (fun x => Scope_ID x =? id) (map g rows) = Some (g sc).
Proof.
  intros ND Hin Hid Hg. induction rows as [|x r IH]; [destruct Hin|].
  cbn [map find]. rewrite Hg. inversion ND as [|? ? Hnot ND']; subst.
  destruct (String.eqb_spec (Scope_ID x) (Scope_ID sc)) as [E|NE].
  - destruct Hin as [->|Hin]; [reflexivity|].
    exfalso. apply Hnot. rewrite E. now apply in_map.
  - destruct Hin as [->|Hin]; [congruence|]. now apply IH.
Qed.

(** An update that names scope fields rewrites the scope row of the issue
    in place: the fields the update supplies take its values, the empty
    ones keep theirs, the row keeps its identifier and the issue its
    reference to it, the returned record carries the new scope, and every
    other scope row is left as it was. *)
Theorem Update_scope_in_place
        (w : World) (e : Issue) (sc : IssueScope) (req : IssuePayload) :
  NoDup (map ID (issues (db w))) ->
  NoDup (map Scope_ID (issue_scopes (db w))) ->
  In e (issues (db w)) ->
  In sc (issue_scopes (db w)) -> Scope_ID sc = ScopeID e ->
  fresh_links w (length (GetLinks req)) ->
  exists v,
    result_of (Update (ID e) req) w = Ok (Some v)
    /\ ScopeID (iv_Issue v) = ScopeID e
    /\ Scope_ID (iv_Scope v) = ScopeID e
    /\ ResourceType (iv_Scope v)
       = (if GetResourceType (GetScope req) =? "" then ResourceType sc
          else GetResourceType (GetScope req))
    /\ ResourceName (iv_Scope v)
       = (if GetResourceName (GetScope req) =? "" then ResourceName sc
          else GetResourceName (GetScope req))
    /\ ResourceNamespace (iv_Scope v)
       = (if GetResourceNamespace (GetScope req) =? "" then ResourceNamespace sc
          else GetResourceNamespace (GetScope req))
    /\ In (iv_Scope v) (issue_scopes (store_after (Update (ID e) req) w))
    /\ (forall other, In other (issue_scopes (db w)) ->
        Scope_ID other <> ScopeID e ->
        In other (issue_scopes (store_after (Update (ID e) req) w)))
    /\ length (issue_scopes (store_after (Update (ID e) req) w))
       = length (issue_scopes (db w)).
Proof.
  intros ND NDS He Hsc Hid Hf.
  destruct (Update_view w e req ND He Hf) as (w' & HU & _ & HS & _).
  cbv zeta in HU. eexists. unfold result_of, store_after. rewrite HU.
  cbn [fst snd]. split; [reflexivity|].
  cbn [load_associations iv_Issue iv_Scope apply_updates ScopeID].
  assert (Hfind : scope_by_id (db w') (ScopeID e)
                  = apply_scope_updates (GetScope req) sc).
  { unfold scope_by_id. rewrite HS.
    rewrite (scope_row_updated _ _ sc (ScopeID e) NDS Hsc Hid).
    - rewrite Hid, String.eqb_refl. reflexivity.
    - intros x. now destruct (Scope_ID x =? ScopeID e). }
  rewrite Hfind. split; [reflexivity|]. split; [exact Hid|].
  split; [reflexivity|]. split; [reflexivity|]. split; [reflexivity|].
  split.
  { rewrite HS. apply in_map_iff. exists sc.
    rewrite Hid, String.eqb_refl. auto. }
  split.
  { intros other Hin Hne. rewrite HS. apply in_map_iff. exists other.
    apply String.eqb_neq in Hne. now rewrite Hne. }
  rewrite HS. apply length_map.
Qed.

Lemma Update_scope_in_place_witness :
  exists v,
    result_of (Update id_b rename_resource_req) (world_of store_ab) = Ok (Some v)
    /\ ResourceType (iv_Scope v) = "release"
    /\ ResourceName (iv_Scope v) = "rel-2"
    /\ ResourceNamespace (iv_Scope v) = "team-a".
Proof.
  destruct (Update_scope_in_place (world_of store_ab) issue_b
              (mkIssueScope scope_b "release" "rel-1" "team-a")
              rename_resource_req)
    as (v & H1 & _ & _ & H2 & H3 & H4 & _).
  - exact (wf_issue_pk _ wf_store_ab).
  - exact (wf_scope_pk _ wf_store_ab).
  - right. left. reflexivity.
  - right. left. reflexivity.
  - reflexivity.
  - split; constructor.
  - exists v. auto.
Defined.

(* ------------------------------------------------------------------ *)
(** ** Relating two issues, and back *)

Lemma edge_between_sym (a b : string) (r : RelatedIssue) :
  edge_between a b r <-> edge_between b a r.
Proof. unfold edge_between. tauto. Qed.

Lemma remove_added_edge (a b x y u : string) (rows : list RelatedIssue) :
  (forall r, In r rows -> ~ edge_between a b r) ->
  (x = a /\ y = b) \/ (x = b /\ y = a) ->
  filter (fun r => negb (pair_where x y r)) (rows ++ [mkRelatedIssue u a b])
  = rows.
Proof.
  intros Hno Hxy. rewrite filter_app.
  assert (Hsame : forall r, edge_between x y r <-> edge_between a b r).
  { intros r. destruct Hxy as [[-> ->]|[-> ->]];
      [tauto|apply edge_between_sym]. }
  rewrite filter_all_false.
  - cbn [filter].
    replace (pair_where x y (mkRelatedIssue u a b)) with true;
      [cbn [negb]; apply app_nil_r|].
    symmetry. apply pair_where_spec, Hsame. left. split; reflexivity.
  - intros r Hr. destruct (pair_where x y r) eqn:P; [|reflexivity].
    apply pair_where_spec, Hsame in P. now apply Hno in P.
Qed.

(** A relationship added between two issues that had none is read back on
    both: [FindByID] lists the new edge among the relationships that leave
    the source and among those that reach the target.  Removing it, with
    the two identifiers in either order, gives back the store there was
    before it was added. *)
Theorem related_edge_round_trip (w : World) (ia ib : Issue) :
  NoDup (map ID (issues (db w))) ->
  In ia (issues (db w)) -> In ib (issues (db w)) ->
  (forall r, In r (related_issues (db w)) -> ~ edge_between (ID ia) (ID ib) r) ->
  has_related (db w) (uuidAt w (drawn w)) = false ->
  let w1 := fst (AddRelatedIssue (ID ia) (ID ib) w) in
  let edge := mkRelatedIssue (uuidAt w (drawn w)) (ID ia) (ID ib) in
  (exists va vb,
      result_of (FindByID (ID ia)) w1 = Ok (Some va)
      /\ result_of (FindByID (ID ib)) w1 = Ok (Some vb)
      /\ In edge (iv_RelatedFrom va) /\ In edge (iv_RelatedTo vb))
  /\ result_of (RemoveRelatedIssue (ID ia) (ID ib)) w1 = Ok tt
  /\ store_after (RemoveRelatedIssue (ID ia) (ID ib)) w1 = db w
  /\ result_of (RemoveRelatedIssue (ID ib) (ID ia)) w1 = Ok tt
  /\ store_after (RemoveRelatedIssue (ID ib) (ID ia)) w1 = db w.
Proof.
  intros ND Ha Hb Hno Hfresh w1 edge.
  assert (Hia : has_issue (db w) (ID ia) = true) by (apply has_issue_true; eauto).
  assert (Hib : has_issue (db w) (ID ib) = true) by (apply has_issue_true; eauto).
  destruct (AddRelatedIssue_inserts w (ID ia) (ID ib) Hia Hib Hno Hfresh)
    as [_ HS].
  unfold store_after in HS. fold w1 edge in HS.
  assert (ND1 : NoDup (map ID (issues (db w1)))) by (now rewrite HS).
  assert (Ha1 : In ia (issues (db w1))) by (now rewrite HS).
  assert (Hb1 : In ib (issues (db w1))) by (now rewrite HS).
  assert (He : In edge (related_issues (db w1))).
  { rewrite HS. cbn [related_issues]. apply in_or_app. right. left. reflexivity. }
  split.
  { exists (load_associations (db w1) ia), (load_associations (db w1) ib).
    unfold result_of. rewrite (FindByID_view w1 ia ND1 Ha1).
    rewrite (FindByID_view w1 ib ND1 Hb1). cbn [snd].
    split; [reflexivity|]. split; [reflexivity|].
    cbn [load_associations iv_RelatedFrom iv_RelatedTo].
    split; apply filter_In; (split; [exact He|]); cbn [edge SourceID TargetID];
      apply String.eqb_refl. }
  assert (Hex : exists r, In r (related_issues (db w1))
                          /\ edge_between (ID ia) (ID ib) r).
  { exists edge. split; [exact He|]. left. split; reflexivity. }
  assert (Hex' : exists r, In r (related_issues (db w1))
                           /\ edge_between (ID ib) (ID ia) r).
  { destruct Hex as (r & Hr & Hedge). exists r. split; [exact Hr|].
    now apply edge_between_sym. }
  destruct (RemoveRelatedIssue_found w1 _ _ Hex) as [R1 S1].
  destruct (RemoveRelatedIssue_found w1 _ _ Hex') as [R2 S2].
  split; [exact R1|]. split.
  { rewrite S1, HS. cbn [issues issue_scopes links related_issues].
    unfold edge. rewrite (remove_added_edge (ID ia) (ID ib)); auto.
    apply store_eta. }
  split; [exact R2|].
  rewrite S2, HS. cbn [issues issue_scopes links related_issues].
  unfold edge. rewrite (remove_added_edge (ID ia) (ID ib)); auto.
  apply store_eta.
Qed.

Lemma related_edge_round_trip_witness :
  store_after (RemoveRelatedIssue id_b id_a)
              (fst (AddRelatedIssue id_a id_b (world_of store_ab_unrelated)))
  = store_ab_unrelated.
Proof.
  destruct (related_edge_round_trip (world_of store_ab_unrelated) issue_a issue_b)
    as (_ & _ & _ & _ & H).
  - vm_compute. repeat constructor; simpl; intuition discriminate.
  - left. reflexivity.
  - right. left. reflexivity.
  - intros r [].
  - reflexivity.
  - exact H.
Defined.

(* ------------------------------------------------------------------ *)
(** ** A failure reported, then resolved by scope *)

Lemma created_then_resolved (w : World) (req : IssuePayload) :
  schema_ok w ->
  result_of (findDuplicateInTx req) w = Ok None ->
  GetState req = "" ->
  let rt := GetResourceType (GetScope req) in
  let rn := GetResourceName (GetScope req) in
  let ns := GetNamespace req in
  let w1 := fst (CreateOrUpdate req w) in
  exists v,
    result_of (CreateOrUpdate req) w = Ok (Some v)
    /\ result_of (ResolveByScope rt rn ns) w1
       = Ok (Z.of_nat (S (length (filter (active_in_scope (db w) rt rn ns)
                                         (issues (db w))))))
    /\ exists i', In i' (issues (store_after (ResolveByScope rt rn ns) w1))
                  /\ ID i' = ID (iv_Issue v)
                  /\ State i' = IssueStateResolved
                  /\ ResolvedAt i' = Some (nowAt w1 (tick w1)).
Proof.
  intros Hok Hnone Hst rt rn ns w1.
  destruct (CreateOrUpdate_unmatched_run w req Hok Hnone) as [HS HR].
  cbv zeta in HS, HR. unfold store_after in HS. fold w1 in HS.
  destruct Hok as [[P1 P2 P3 P4 P5 F1 F2 F3] F FR].
  pose proof (fresh_issue _ F (drawn w) (Nat.le_refl _)) as H0.
  pose proof (fresh_scope _ F (S (drawn w)) (Nat.le_succ_diag_r _)) as H1.
  set (u0 := uuidAt w (drawn w)) in *.
  set (u1 := uuidAt w (S (drawn w))) in *.
  set (i := created_issue req u0 u1 (nowAt w (tick w)) (nowAt w (S (tick w)))) in *.
  assert (ND1 : NoDup (map ID (issues (db w1)))).
  { rewrite HS. cbn [issues]. apply keys_distinct_after_insert; auto. }
  assert (Hold : forall j, In j (issues (db w)) ->
                 active_in_scope (db w1) rt rn ns j
                 = active_in_scope (db w) rt rn ns j).
  { intros j Hj. unfold active_in_scope. rewrite HS. cbn [issue_scopes].
    rewrite existsb_app_one. cbn [created_scope Scope_ID].
    replace (u1 =? ScopeID j) with false; [cbn [andb]; now rewrite orb_false_r|].
    symmetry. apply String.eqb_neq. intros E.
    pose proof (F1 j Hj) as Hx. rewrite <- E in Hx.
    unfold has_scope in *. congruence. }
  assert (Hnew : active_in_scope (db w1) rt rn ns i = true).
  { unfold active_in_scope. rewrite HS. cbn [issue_scopes].
    rewrite existsb_app_one.
    cbn [i created_issue created_scope State Namespace ScopeID Scope_ID
         ResourceType ResourceName].
    rewrite Hst. unfold rt, rn, ns. rewrite !String.eqb_refl.
    cbn [andb String.eqb]. apply orb_true_r. }
  destruct (ResolveByScope_run w1 rt rn ns ND1) as [HR1 HS1].
  eexists. split; [exact HR|]. cbn [iv_Issue]. split.
  - rewrite HR1. do 2 f_equal. rewrite HS at 2. cbn [issues].
    rewrite filter_app. cbn [filter]. rewrite Hnew, length_app. cbn [length].
    rewrite (filter_ext_in _ _ _ Hold). lia.
  - exists (resolved_at (nowAt w1 (tick w1)) i).
    split; [|repeat split].
    rewrite HS1. cbn [issues]. apply in_map_iff. exists i.
    rewrite Hnew. split; [reflexivity|].
    rewrite HS. cbn [issues]. apply in_or_app. right. left. reflexivity.
Qed.

(** What a failure reports, a success resolves: after [CreateOrUpdate] has
    created an issue for a report that names no state, [ResolveByScope]
    with the resource type, the resource name and the namespace of the
    report resolves that issue, along with the issues that were already
    ACTIVE in that scope, and counts it.  The resource namespace of the
    report plays no part. *)
Theorem report_then_resolve (w : World) (req : IssuePayload) :
  schema_ok w ->
  result_of (findDuplicateInTx req) w = Ok None ->
  GetState req = "" ->
  let rt := GetResourceType (GetScope req) in
  let rn := GetResourceName (GetScope req) in
  let ns := GetNamespace req in
  let w1 := fst (CreateOrUpdate req w) in
  exists v,
    result_of (CreateOrUpdate req) w = Ok (Some v)
    /\ result_of (ResolveByScope rt rn ns) w1
       = Ok (Z.of_nat (S (length (filter (active_in_scope (db w) rt rn ns)
                                         (issues (db w))))))
    /\ exists i', In i' (issues (store_after (ResolveByScope rt rn ns) w1))
                  /\ ID i' = ID (iv_Issue v)
                  /\ State i' = IssueStateResolved
                  /\ ResolvedAt i' = Some (nowAt w1 (tick w1)).
Proof. exact (created_then_resolved w req). Qed.

Lemma report_then_resolve_witness :
  result_of (ResolveByScope "pipelinerun" "build-9" "team-a")
            (fst (CreateOrUpdate report_first (counting_world store_ab)))
  = Ok 1%Z.
Proof.
  destruct (report_then_resolve (counting_world store_ab) report_first
              schema_ok_example eq_refl eq_refl) as (v & _ & H & _).
  exact H.
Defined.

(* ------------------------------------------------------------------ *)
(** ** Listing issues *)

Lemma where_if_set_spec (f v : string) :
  where_if_set f v = true <-> (f <> "" -> v = f).
Proof.
  unfold where_if_set. destruct (String.eqb_spec f "") as [E|NE].
  - split; [intros _ H; now destruct H|reflexivity].
  - rewrite String.eqb_eq. split; auto.
Qed.

Lemma where_if_given_spec (f : option string) (v : string) :
  where_if_given f v = true <-> (forall x, f = Some x -> v = x).
Proof.
  destruct f as [x|]; cbn [where_if_given].
  - rewrite String.eqb_eq. split.
    + intros -> y [= <-]. reflexivity.
    + intros H. now apply H.
  - split; [discriminate|reflexivity].
Qed.

Lemma in_find_all_query (like : string -> string -> bool)
      (filters : IssueQueryFilters) (s : Store) (i : Issue) :
  In i (find_all_query like filters s)
  <-> In i (issues s) /\ asked_for like filters s i.
Proof.
  unfold find_all_query, asked_for. rewrite filter_In.
  unfold find_all_where. rewrite !andb_true_iff.
  rewrite !where_if_set_spec, !where_if_given_spec.
  assert (Hsearch :
            (if qf_Search filters =? "" then true
             else like (Title i) ("%" ++ qf_Search filters ++ "%")
                  || like (Description i) ("%" ++ qf_Search filters ++ "%")) = true
            <-> (qf_Search filters <> "" ->
                 like (Title i) ("%" ++ qf_Search filters ++ "%") = true
                 \/ like (Description i) ("%" ++ qf_Search filters ++ "%") = true)).
  { destruct (String.eqb_spec (qf_Search filters) "") as [E|NE].
    - split; [intros _ H; now destruct H|reflexivity].
    - rewrite orb_true_iff. split; auto. }
  cbv zeta. rewrite Hsearch. clear Hsearch.
  destruct (String.eqb_spec (qf_ResourceType filters) "") as [E1|N1];
    destruct (String.eqb_spec (qf_ResourceName filters) "") as [E2|N2];
    cbn [negb orb].
  - split; [intros (Hi & (((H1 & H2) & H3) & H4) & H5)
           |intros (Hi & H1 & H2 & H3 & H4 & _ & H5)]; repeat split; auto.
    intros [H|H]; now destruct H.
  - rewrite in_map_iff. split.
    + intros ([[j sc] [Ej Hj]] & (((H1 & H2) & H3) & H4) & H5).
      cbn [fst] in Ej. subst j. apply filter_In in Hj. destruct Hj as [Hj Hw].
      apply in_join_scopes in Hj. destruct Hj as (Hi & Hsc & E).
      unfold find_all_scope_where in Hw. cbn [snd] in Hw.
      apply andb_true_iff in Hw. rewrite !where_if_set_spec in Hw.
      repeat split; auto. intros _. exists sc. repeat split; auto; tauto.
    + intros (Hi & H1 & H2 & H3 & H4 & H5 & H6).
      destruct (H5 (or_intror N2)) as (sc & Hsc & E & Ht & Hn).
      split; [|tauto]. exists (i, sc). split; [reflexivity|].
      apply filter_In. split; [apply in_join_scopes; auto|].
      unfold find_all_scope_where. cbn [snd].
      apply andb_true_iff. rewrite !where_if_set_spec. auto.
  - rewrite in_map_iff. split.
    + intros ([[j sc] [Ej Hj]] & (((H1 & H2) & H3) & H4) & H5).
      cbn [fst] in Ej. subst j. apply filter_In in Hj. destruct Hj as [Hj Hw].
      apply in_join_scopes in Hj. destruct Hj as (Hi & Hsc & E).
      unfold find_all_scope_where in Hw. cbn [snd] in Hw.
      apply andb_true_iff in Hw. rewrite !where_if_set_spec in Hw.
      repeat split; auto. intros _. exists sc. repeat split; auto; tauto.
    + intros (Hi & H1 & H2 & H3 & H4 & H5 & H6).
      destruct (H5 (or_introl N1)) as (sc & Hsc & E & Ht & Hn).
      split; [|tauto]. exists (i, sc). split; [reflexivity|].
      apply filter_In. split; [apply in_join_scopes; auto|].
      unfold find_all_scope_where. cbn [snd].
      apply andb_true_iff. rewrite !where_if_set_spec. auto.
  - rewrite in_map_iff. split.
    + intros ([[j sc] [Ej Hj]] & (((H1 & H2) & H3) & H4) & H5).
      cbn [fst] in Ej. subst j. apply filter_In in Hj. destruct Hj as [Hj Hw].
      apply in_join_scopes in Hj. destruct Hj as (Hi & Hsc & E).
      unfold find_all_scope_where in Hw. cbn [snd] in Hw.
      apply andb_true_iff in Hw. rewrite !where_if_set_spec in Hw.
      repeat split; auto. intros _. exists sc. repeat split; auto; tauto.
    + intros (Hi & H1 & H2 & H3 & H4 & H5 & H6).
      destruct (H5 (or_introl N1)) as (sc & Hsc & E & Ht & Hn).
      split; [|tauto]. exists (i, sc). split; [reflexivity|].
      apply filter_In. split; [apply in_join_scopes; auto|].
      unfold find_all_scope_where. cbn [snd].
      apply andb_true_iff. rewrite !where_if_set_spec. auto.
Qed.

Lemma insert_by_detected_at_perm (i : Issue) (rows : list Issue) :
  Permutation (insert_by_detected_at i rows) (i :: rows).
Proof.
  induction rows as [|j r IH]; cbn [insert_by_detected_at]; [reflexivity|].
  destruct (DetectedAt j <=? DetectedAt i)%Z; [reflexivity|].
  rewrite IH. apply perm_swap.
Qed.

Lemma order_by_detected_at_desc_perm (rows : list Issue) :
  Permutation (order_by_detected_at_desc rows) rows.
Proof.
  induction rows as [|i r IH]; cbn; [constructor|].
  rewrite insert_by_detected_at_perm. now constructor.
Qed.

Lemma insert_by_detected_at_sorted (i : Issue) (rows : list Issue) :
  StronglySorted later_first rows ->
  StronglySorted later_first (insert_by_detected_at i rows).
Proof.
  induction 1 as [|j r Hs IH Hj]; cbn [insert_by_detected_at].
  - constructor; constructor.
  - destruct (Z.leb_spec (DetectedAt j) (DetectedAt i)) as [Hle|Hlt].
    + constructor; [now constructor|]. constructor; [exact Hle|].
      eapply Forall_impl; [|exact Hj]. unfold later_first. intros x Hx. lia.
    + constructor; [exact IH|].
      eapply Permutation_Forall;
        [symmetry; apply insert_by_detected_at_perm|].
      constructor; [unfold later_first; lia|exact Hj].
Qed.

Lemma order_by_detected_at_desc_sorted (rows : list Issue) :
  StronglySorted later_first (order_by_detected_at_desc rows).
Proof.
  induction rows as [|i r IH]; cbn; [constructor|].
  now apply insert_by_detected_at_sorted.
Qed.

(** A page is a run of consecutive rows. *)
Lemma page_is_a_run {A} (limit offset : Z) (rows : list A) :
  exists before after,
    rows = (before ++ Limit limit (Offset offset rows) ++ after)%list.
Proof.
  unfold Limit, Offset.
  destruct (0 <? offset)%Z; destruct (limit <? 0)%Z.
  - exists (firstn (Z.to_nat offset) rows), []. rewrite app_nil_r.
    symmetry. apply firstn_skipn.
  - exists (firstn (Z.to_nat offset) rows),
      (skipn (Z.to_nat limit) (skipn (Z.to_nat offset) rows)).
    now rewrite firstn_skipn, firstn_skipn.
  - exists [], []. now rewrite app_nil_r.
  - exists [], (skipn (Z.to_nat limit) rows). cbn [app].
    symmetry. apply firstn_skipn.
Qed.

Lemma sorted_run {A} (R : A -> A -> Prop) (before run : list A) :
  StronglySorted R (before ++ run) -> StronglySorted R run.
Proof.
  induction before as [|x r IH]; cbn [app]; [auto|].
  intros H. apply StronglySorted_inv in H. now apply IH.
Qed.

Lemma sorted_start {A} (R : A -> A -> Prop) (run after : list A) :
  StronglySorted R (run ++ after) -> StronglySorted R run.
Proof.
  induction run as [|x r IH]; cbn [app]; [constructor|].
  intros H. apply StronglySorted_inv in H. destruct H as [H1 H2].
  constructor; [now apply IH|].
  apply Forall_app in H2. tauto.
Qed.

Lemma loaded_issues (s : Store) (rows : list Issue) :
  map iv_Issue (map (load_associations s) rows) = rows.
Proof.
  rewrite map_map. erewrite map_ext; [apply map_id|]. reflexivity.
Qed.

Lemma FindAll_run (like : string -> string -> bool)
      (filters : IssueQueryFilters) (w : World) :
  FindAll like filters w
  = (w, Ok (map (load_associations (db w))
                (Limit (limit_applied filters)
                       (Offset (qf_Offset filters)
                               (order_by_detected_at_desc
                                  (find_all_query like filters (db w))))),
            Z.of_nat (length (find_all_query like filters (db w))))).
Proof. reflexivity. Qed.

Lemma in_page (like : string -> string -> bool)
      (filters : IssueQueryFilters) (s : Store) (i : Issue) :
  In i (Limit (limit_applied filters)
              (Offset (qf_Offset filters)
                      (order_by_detected_at_desc (find_all_query like filters s)))) ->
  In i (find_all_query like filters s).
Proof.
  intros Hin.
  destruct (page_is_a_run (limit_applied filters) (qf_Offset filters)
              (order_by_detected_at_desc (find_all_query like filters s)))
    as (before & after & E).
  eapply Permutation_in; [apply order_by_detected_at_desc_perm|].
  rewrite E. apply in_or_app. right. apply in_or_app. now left.
Qed.

(** When [FindAll] returns a page and a total, the store is as it was
    and every issue of the page is an issue of the store that meets each
    filter that is set: the namespace, the severity, the type and the
    state given, a scope of the resource type and name given, and the
    search text in its title or its description.  The page is ordered by
    detection time, latest first, is no longer than the limit (50 when
    the limit is 0) and no longer than the total; each record carries its
    scope, links and relationships as they are stored. *)
Theorem FindAll_page_is_sound (like : string -> string -> bool)
        (filters : IssueQueryFilters) (w : World)
        (page : list IssueView) (total : Z) :
  result_of (FindAll like filters) w = Ok (page, total) ->
  store_after (FindAll like filters) w = db w
  /\ (forall v, In v page ->
        In (iv_Issue v) (issues (db w))
        /\ asked_for like filters (db w) (iv_Issue v)
        /\ v = load_associations (db w) (iv_Issue v))
  /\ StronglySorted later_first (map iv_Issue page)
  /\ (0 < qf_Limit filters -> Z.of_nat (length page) <= qf_Limit filters)%Z
  /\ (qf_Limit filters = 0%Z -> length page <= 50)
  /\ (Z.of_nat (length page) <= total)%Z.
Proof.
  unfold result_of, store_after. rewrite FindAll_run. cbn [fst snd].
  intros [= <- <-]. split; [reflexivity|].
  set (q := find_all_query like filters (db w)).
  destruct (page_is_a_run (limit_applied filters) (qf_Offset filters)
              (order_by_detected_at_desc q)) as (before & after & E).
  set (page := Limit (limit_applied filters)
                     (Offset (qf_Offset filters) (order_by_detected_at_desc q))) in *.
  assert (Hlen : length page <= length q).
  { rewrite <- (Permutation_length (order_by_detected_at_desc_perm q)), E.
    rewrite !length_app. lia. }
  assert (Hlim : (0 <= limit_applied filters)%Z ->
                 length page <= Z.to_nat (limit_applied filters)).
  { intros H. unfold page, Limit.
    destruct (Z.ltb_spec (limit_applied filters) 0) as [Hneg|_]; [lia|].
    apply firstn_le_length. }
  split.
  { intros v Hv. apply in_map_iff in Hv. destruct Hv as (i & <- & Hi).
    cbn [load_associations iv_Issue]. apply in_page in Hi.
    apply in_find_all_query in Hi. tauto. }
  split.
  { rewrite loaded_issues.
    pose proof (order_by_detected_at_desc_sorted q) as Hs. rewrite E in Hs.
    apply sorted_run in Hs. now apply sorted_start in Hs. }
  rewrite length_map. unfold limit_applied in Hlim.
  split; [|split; [|lia]].
  - intros Hpos. destruct (Z.eqb_spec (qf_Limit filters) 0) as [E0|_]; lia.
  - intros E0. rewrite E0 in Hlim. cbn in Hlim. apply Hlim. lia.
Qed.

Lemma FindAll_page_is_sound_witness :
  exists page,
    result_of (FindAll like_anything major_of_team_a) (world_of store_ab)
    = Ok (page, 1%Z)
    /\ (forall v, In v page -> Severity_ (iv_Issue v) = SeverityMajor)
    /\ length page <= 1.
Proof.
  eexists. split; [vm_compute; reflexivity|].
  destruct (FindAll_page_is_sound like_anything major_of_team_a
              (world_of store_ab) _ _ eq_refl)
    as (_ & Hin & _ & _ & _ & Hlen).
  split; [|apply Nat2Z.inj_le; exact Hlen].
  intros v Hv. destruct (Hin v Hv) as (_ & (_ & Hs & _) & _).
  exact (Hs SeverityMajor eq_refl).
Defined.

Lemma at_most_one_scope (scs : list IssueScope) (u : string) :
  NoDup (map Scope_ID scs) ->
  length (filter (fun sc => u =? Scope_ID sc) scs) <= 1.
Proof.
  induction scs as [|x r IH]; cbn [map filter]; intros ND; [cbn; lia|].
  inversion ND as [|? ? Hnot ND']; subst.
  destruct (String.eqb_spec u (Scope_ID x)) as [E|NE]; [|now apply IH].
  replace (filter (fun sc => u =? Scope_ID sc) r) with (@nil IssueScope);
    [cbn; lia|].
  symmetry. apply filter_nil_forall. intros y Hy. apply String.eqb_neq.
  intros E'. apply Hnot. rewrite <- E, E'. now apply in_map.
Qed.

Lemma joined_once (s : Store) :
  NoDup (map ID (issues s)) -> NoDup (map Scope_ID (issue_scopes s)) ->
  NoDup (map (fun p => ID (fst p)) (join_scopes s)).
Proof.
  intros NI NS. unfold join_scopes.
  induction (issues s) as [|i r IH]; cbn [flat_map map]; [constructor|].
  inversion NI as [|? ? Hnot NI']; subst.
  rewrite map_app. apply NoDup_app.
  - rewrite map_map. cbn [fst].
    pose proof (at_most_one_scope (issue_scopes s) (ScopeID i) NS) as H1.
    destruct (filter _ (issue_scopes s)) as [|a [|b t]]; cbn in *;
      [constructor|repeat constructor; intros []|lia].
  - now apply IH.
  - intros u Hu Hu'. apply Hnot.
    rewrite map_map in Hu. cbn [fst] in Hu. apply in_map_iff in Hu.
    destruct Hu as (sc & <- & _).
    apply in_map_iff in Hu'. destruct Hu' as ([j sc'] & E & Hj).
    cbn [fst] in E. rewrite <- E. apply in_map.
    apply in_flat_map in Hj. destruct Hj as (j' & Hj' & Hp).
    apply in_map_iff in Hp. destruct Hp as (? & [= -> _] & _). exact Hj'.
Qed.

Lemma find_all_query_keys (like : string -> string -> bool)
      (filters : IssueQueryFilters) (s : Store) :
  NoDup (map ID (issues s)) -> NoDup (map Scope_ID (issue_scopes s)) ->
  NoDup (map ID (find_all_query like filters s)).
Proof.
  intros NI NS. unfold find_all_query. apply keys_distinct_after_delete.
  destruct (negb _ || negb _); [|exact NI].
  rewrite map_map. apply (keys_distinct_after_delete _ (fun p => ID (fst p))).
  now apply joined_once.
Qed.

(** The total [FindAll] returns counts each matching issue once, and does
    not depend on the page asked for: in a store whose issues and scopes
    have distinct identifiers, it is the number of issues that meet the
    filters, whatever the limit and the offset. *)
Theorem FindAll_total_counts_the_matches (like : string -> string -> bool)
        (filters : IssueQueryFilters) (w : World) :
  NoDup (map ID (issues (db w))) ->
  NoDup (map Scope_ID (issue_scopes (db w))) ->
  exists matches,
    NoDup matches
    /\ (forall i, In i matches
                  <-> In i (issues (db w)) /\ asked_for like filters (db w) i)
    /\ forall limit offset,
         exists page,
           result_of (FindAll like (with_page filters limit offset)) w
           = Ok (page, Z.of_nat (length matches)).
Proof.
  intros NI NS. exists (find_all_query like filters (db w)).
  split; [eapply NoDup_map_inv; now apply find_all_query_keys|].
  split; [intros i; apply in_find_all_query|].
  intros limit offset. eexists. unfold result_of.
  rewrite FindAll_run. reflexivity.
Qed.

Lemma FindAll_total_counts_the_matches_witness :
  exists matches,
    (In issue_a matches /\ ~ In issue_b matches)
    /\ exists page,
         result_of (FindAll like_anything (with_page major_of_team_a 1 1))
                   (world_of store_ab)
         = Ok (page, Z.of_nat (length matches)).
Proof.
  destruct (FindAll_total_counts_the_matches like_anything major_of_team_a
              (world_of store_ab) (wf_issue_pk _ wf_store_ab)
              (wf_scope_pk _ wf_store_ab)) as (matches & _ & Hm & Hp).
  exists matches. split; [|exact (Hp 1%Z 1%Z)]. split.
  - apply Hm. split; [left; reflexivity|]. unfold asked_for. cbn.
    split; [intros _; reflexivity|]. split; [intros v [= <-]; reflexivity|].
    split; [discriminate|]. split; [discriminate|].
    split; [intros [H|H]; now destruct H|]. intros H. now destruct H.
  - intros Hb. apply Hm in Hb. destruct Hb as (_ & _ & Hs & _).
    specialize (Hs _ eq_refl). discriminate.
Defined.

(** With no offset, and no limit or a limit the total does not exceed,
    the page of [FindAll] is the whole list: it has as many records as
    the total, and every issue of the store that meets the filters is in
    it, with its associations. *)
Theorem FindAll_whole_list (like : string -> string -> bool)
        (filters : IssueQueryFilters) (w : World)
        (page : list IssueView) (total : Z) :
  result_of (FindAll like filters) w = Ok (page, total) ->
  (qf_Offset filters <= 0)%Z ->
  (qf_Limit filters < 0 \/ total <= limit_applied filters)%Z ->
  Z.of_nat (length page) = total
  /\ forall i, In i (issues (db w)) -> asked_for like filters (db w) i ->
               In (load_associations (db w) i) page.
Proof.
  unfold result_of. rewrite FindAll_run. cbn [snd]. intros [= <- <-] Hoff Hlim.
  set (q := find_all_query like filters (db w)) in *.
  assert (E : Limit (limit_applied filters)
                    (Offset (qf_Offset filters) (order_by_detected_at_desc q))
              = order_by_detected_at_desc q).
  { unfold Offset. destruct (Z.ltb_spec 0 (qf_Offset filters)) as [H|_]; [lia|].
    unfold Limit. destruct (Z.ltb_spec (limit_applied filters) 0) as [_|Hpos];
      [reflexivity|].
    apply firstn_all2.
    rewrite (Permutation_length (order_by_detected_at_desc_perm q)).
    destruct Hlim as [Hneg|Hle]; [|lia].
    unfold limit_applied in Hpos.
    destruct (Z.eqb_spec (qf_Limit filters) 0); lia. }
  rewrite E, length_map.
  rewrite (Permutation_length (order_by_detected_at_desc_perm q)).
  split; [reflexivity|]. intros i Hi Hask. apply in_map.
  eapply Permutation_in; [symmetry; apply order_by_detected_at_desc_perm|].
  apply in_find_all_query. auto.
Qed.

Lemma FindAll_whole_list_witness :
  In (load_associations store_ab issue_a)
     (fst (match result_of (FindAll like_anything major_of_team_a)
                           (world_of store_ab) with
           | Ok r => r
           | Err _ => ([], 0%Z)
           end)).
Proof.
  destruct (FindAll_whole_list like_anything major_of_team_a (world_of store_ab)
              _ _ eq_refl) as [_ H].
  - discriminate.
  - right. discriminate.
  - apply (H issue_a); [left; reflexivity|]. unfold asked_for. cbn.
    split; [intros _; reflexivity|]. split; [intros v [= <-]; reflexivity|].
    split; [discriminate|]. split; [discriminate|].
    split; [intros [Hx|Hx]; now destruct Hx|]. intros Hx. now destruct Hx.
Defined.

(** The list and the single read agree: in a store whose issues and
    scopes have distinct identifiers, no issue comes twice in a page of
    [FindAll], and each record of the page is the record [FindByID]
    returns for its identifier. *)
Theorem FindAll_agrees_with_FindByID (like : string -> string -> bool)
        (filters : IssueQueryFilters) (w : World)
        (page : list IssueView) (total : Z) :
  NoDup (map ID (issues (db w))) ->
  NoDup (map Scope_ID (issue_scopes (db w))) ->
  result_of (FindAll like filters) w = Ok (page, total) ->
  NoDup (map (fun v => ID (iv_Issue v)) page)
  /\ forall v, In v page ->
               result_of (FindByID (ID (iv_Issue v))) w = Ok (Some v).
Proof.
  intros NI NS. unfold result_of at 1. rewrite FindAll_run. cbn [snd].
  intros [= <- <-].
  set (q := find_all_query like filters (db w)).
  split.
  - rewrite map_map. cbn [load_associations iv_Issue].
    destruct (page_is_a_run (limit_applied filters) (qf_Offset filters)
                (order_by_detected_at_desc q)) as (before & after & E).
    assert (ND : NoDup (map ID (order_by_detected_at_desc q))).
    { eapply Permutation_NoDup;
        [apply Permutation_map; symmetry; apply order_by_detected_at_desc_perm|].
      now apply find_all_query_keys. }
    rewrite E, !map_app in ND.
    apply NoDup_app_remove_l in ND. now apply NoDup_app_remove_r in ND.
  - intros v Hv. apply in_map_iff in Hv. destruct Hv as (i & <- & Hi).
    apply in_page, in_find_all_query in Hi. destruct Hi as [Hi _].
    cbn [load_associations iv_Issue]. unfold result_of.
    now rewrite (FindByID_view w i NI Hi).
Qed.

Lemma FindAll_agrees_with_FindByID_witness :
  NoDup (map (fun v => ID (iv_Issue v))
             (fst (match result_of (FindAll like_anything major_of_team_a)
                                   (world_of store_ab) with
                   | Ok r => r
                   | Err _ => ([], 0%Z)
                   end)))
  /\ forall v,
       In v (fst (match result_of (FindAll like_anything major_of_team_a)
                                  (world_of store_ab) with
                  | Ok r => r
                  | Err _ => ([], 0%Z)
                  end)) ->
       result_of (FindByID (ID (iv_Issue v))) (world_of store_ab) = Ok (Some v).
Proof.
  exact (FindAll_agrees_with_FindByID like_anything major_of_team_a
           (world_of store_ab) _ _ (wf_issue_pk _ wf_store_ab)
           (wf_scope_pk _ wf_store_ab) eq_refl).
Defined.

(* ------------------------------------------------------------------ *)
(** ** Webhooks *)

Lemma required_spec (field : string) : required field = true <-> field <> "".
Proof.
  unfold required. rewrite negb_true_iff. apply String.eqb_neq.
Qed.

Lemma reports_of_one_key (w : World) (p1 p2 : IssuePayload) :
  keys_ok w -> own_namespace p1 -> valid_state p1 ->
  same_key p1 p2 -> valid_state p2 ->
  exists w1 v1 w2 v2,
    CreateOrUpdate p1 w = (w1, Ok (Some v1))
    /\ CreateOrUpdate p2 w1 = (w2, Ok (Some v2))
    /\ ID (iv_Issue v2) = ID (iv_Issue v1)
    /\ map ID (issues (db w2)) = map ID (issues (db w1))
    /\ issue_scopes (db w2) = issue_scopes (db w1).
Proof.
  intros Hok Hown Hval Hkey Hval2.
  assert (Hfirst : exists w1 v1 e1,
             CreateOrUpdate p1 w = (w1, Ok (Some v1)) /\ keys_ok w1
             /\ result_of (findDuplicateInTx p1) w1 = Ok (Some e1)
             /\ ID (iv_Issue e1) = ID (iv_Issue v1)).
  { destruct (result_of (findDuplicateInTx p1) w) as [[e|]|err] eqn:Hfind.
    - destruct (CreateOrUpdate_again w p1 e Hok Hown Hval Hfind)
        as (w1 & v1 & HC & Hv & _ & _ & Hok1 & (e1 & Hfind1 & He1) & _).
      exists w1, v1, e1. split; [exact HC|]. split; [exact Hok1|].
      split; [exact Hfind1|congruence].
    - destruct (CreateOrUpdate_new w p1 Hok Hown Hval Hfind)
        as (w1 & v1 & HC & _ & _ & _ & Hok1 & (e1 & Hfind1 & He1) & _).
      exists w1, v1, e1. auto.
    - exfalso. unfold result_of in Hfind. rewrite findDuplicateInTx_run in Hfind.
      cbn [snd] in Hfind. destruct (First _); discriminate. }
  destruct Hfirst as (w1 & v1 & e1 & HC & Hok1 & Hfind1 & He1).
  assert (Hfind2 : result_of (findDuplicateInTx p2) w1 = Ok (Some e1)).
  { unfold result_of in *. rewrite findDuplicateInTx_run in *. cbn [snd] in *.
    erewrite filter_ext; [exact Hfind1|].
    intros p. symmetry. now apply duplicate_where_same_key. }
  destruct (CreateOrUpdate_again w1 p2 e1 Hok1
              (own_namespace_same_key _ _ Hkey Hown) Hval2 Hfind2)
    as (w2 & v2 & HC2 & Hv2 & HI & HS & _).
  exists w1, v1, w2, v2. repeat split; auto. congruence.
Qed.

Lemma PipelineFailure_run (h : IssueServiceInterface) (getenv : string -> string)
      (r : PipelineFailureRequest) (w w' : World) (v : IssueView) :
  passes_to_repository h ->
  pf_PipelineName r <> "" -> pf_Namespace r <> "" -> pf_FailureReason r <> "" ->
  CreateOrUpdate (PipelineFailure_issueData getenv r) w = (w', Ok (Some v)) ->
  PipelineFailure h getenv r w = (w', StatusCreated v).
Proof.
  intros [Hc _] N1 N2 N3 H. unfold PipelineFailure.
  rewrite !(proj2 (required_spec _)) by assumption.
  cbn [andb]. now rewrite Hc, H.
Qed.

Lemma MintmakerIssues_run (h : IssueServiceInterface)
      (r : MintmakerRequest) (w w' : World) (v : IssueView) :
  passes_to_repository h ->
  mm_PipelineId r <> "" -> mm_Namespace r <> "" -> mm_Type r <> "" ->
  mm_Logs r <> [] ->
  CreateOrUpdate (MintmakerIssues_issueData r) w = (w', Ok (Some v)) ->
  MintmakerIssues h r w = (w', StatusCreated v).
Proof.
  intros [Hc _] N1 N2 N3 L H. unfold MintmakerIssues.
  rewrite !(proj2 (required_spec _)) by assumption.
  cbn [andb]. destruct (mm_Logs r) eqn:EL; [now destruct L|].
  now rewrite Hc, H.
Qed.

Lemma ReleaseFailure_run (h : IssueServiceInterface)
      (r : ReleaseFailureRequest) (w w' : World) (v : IssueView) :
  passes_to_repository h ->
  rf_Application r <> "" -> rf_Namespace r <> "" ->
  rf_FailurePhase r <> "" -> rf_ReleaseName r <> "" ->
  CreateOrUpdate (ReleaseFailure_issueData r) w = (w', Ok (Some v)) ->
  ReleaseFailure h r w = (w', StatusCreated v).
Proof.
  intros [Hc _] N1 N2 N3 N4 H. unfold ReleaseFailure.
  rewrite !(proj2 (required_spec _)) by assumption.
  cbn [andb]. now rewrite Hc, H.
Qed.

(** Failures of one resource converge, through the webhooks: with a
    service that hands its calls to the repository, two complete
    pipeline-failure requests (pipeline name, namespace and failure
    reason given) that name the same pipeline and namespace, and whose
    severity, when given, fits the column, are both answered 201 with an
    issue of one identifier, and the second adds no issue and no scope,
    whatever the reasons, runs and logs they name; so are two complete
    mintmaker requests of one pipeline identifier, namespace and type
    that carry logs, and two complete release-failure requests of one
    application and namespace. *)
Theorem failure_webhooks_converge
        (h : IssueServiceInterface) (getenv : string -> string) (w : World) :
  passes_to_repository h ->
  keys_ok w ->
  (forall r1 r2 : PipelineFailureRequest,
      pf_PipelineName r1 <> "" -> pf_Namespace r1 <> "" ->
      pf_FailureReason r1 <> "" -> pf_FailureReason r2 <> "" ->
      fits_varchar_20 (pf_Severity r1) -> fits_varchar_20 (pf_Severity r2) ->
      pf_PipelineName r2 = pf_PipelineName r1 ->
      pf_Namespace r2 = pf_Namespace r1 ->
      exists w1 v1 w2 v2,
        PipelineFailure h getenv r1 w = (w1, StatusCreated v1)
        /\ PipelineFailure h getenv r2 w1 = (w2, StatusCreated v2)
        /\ ID (iv_Issue v2) = ID (iv_Issue v1)
        /\ map ID (issues (db w2)) = map ID (issues (db w1))
        /\ issue_scopes (db w2) = issue_scopes (db w1))
  /\ (forall r1 r2 : MintmakerRequest,
      mm_PipelineId r1 <> "" -> mm_Namespace r1 <> "" -> mm_Type r1 <> "" ->
      mm_Logs r1 <> [] -> mm_Logs r2 <> [] ->
      mm_PipelineId r2 = mm_PipelineId r1 ->
      mm_Namespace r2 = mm_Namespace r1 ->
      mm_Type r2 = mm_Type r1 ->
      exists w1 v1 w2 v2,
        MintmakerIssues h r1 w = (w1, StatusCreated v1)
        /\ MintmakerIssues h r2 w1 = (w2, StatusCreated v2)
        /\ ID (iv_Issue v2) = ID (iv_Issue v1)
        /\ map ID (issues (db w2)) = map ID (issues (db w1))
        /\ issue_scopes (db w2) = issue_scopes (db w1))
  /\ (forall r1 r2 : ReleaseFailureRequest,
      rf_Application r1 <> "" -> rf_Namespace r1 <> "" ->
      rf_FailurePhase r1 <> "" -> rf_ReleaseName r1 <> "" ->
      rf_FailurePhase r2 <> "" -> rf_ReleaseName r2 <> "" ->
      rf_Application r2 = rf_Application r1 ->
      rf_Namespace r2 = rf_Namespace r1 ->
      exists w1 v1 w2 v2,
        ReleaseFailure h r1 w = (w1, StatusCreated v1)
        /\ ReleaseFailure h r2 w1 = (w2, StatusCreated v2)
        /\ ID (iv_Issue v2) = ID (iv_Issue v1)
        /\ map ID (issues (db w2)) = map ID (issues (db w1))
        /\ issue_scopes (db w2) = issue_scopes (db w1)).
Proof.
  intros Hh Hok. split; [|split].
  - intros r1 r2 N1 N2 N3 N3' _ _ E1 E2.
    destruct (reports_of_one_key w (PipelineFailure_issueData getenv r1)
                (PipelineFailure_issueData getenv r2) Hok)
      as (w1 & v1 & w2 & v2 & H1 & H2 & H3 & H4 & H5).
    + right. reflexivity.
    + left. reflexivity.
    + unfold same_key. cbn. now rewrite E1, E2.
    + left. reflexivity.
    + exists w1, v1, w2, v2.
      split; [apply PipelineFailure_run; auto|].
      split; [apply PipelineFailure_run; auto; congruence|]. auto.
  - intros r1 r2 N1 N2 N3 L1 L2 E1 E2 E3.
    destruct (reports_of_one_key w (MintmakerIssues_issueData r1)
                (MintmakerIssues_issueData r2) Hok)
      as (w1 & v1 & w2 & v2 & H1 & H2 & H3 & H4 & H5).
    + right. reflexivity.
    + left. reflexivity.
    + unfold same_key. cbn. now rewrite E1, E2, E3.
    + left. reflexivity.
    + exists w1, v1, w2, v2.
      split; [apply MintmakerIssues_run; auto|].
      split; [apply MintmakerIssues_run; auto; congruence|]. auto.
  - intros r1 r2 N1 N2 N3 N4 N3' N4' E1 E2.
    destruct (reports_of_one_key w (ReleaseFailure_issueData r1)
                (ReleaseFailure_issueData r2) Hok)
      as (w1 & v1 & w2 & v2 & H1 & H2 & H3 & H4 & H5).
    + right. reflexivity.
    + left. reflexivity.
    + unfold same_key. cbn. now rewrite E1, E2.
    + left. reflexivity.
    + exists w1, v1, w2, v2.
      split; [apply ReleaseFailure_run; auto|].
      split; [apply ReleaseFailure_run; auto; congruence|]. auto.
Qed.

Lemma repository_service_passes : passes_to_repository repository_service.
Proof. split; reflexivity. Qed.

Lemma failure_webhooks_converge_witness :
  exists w1 v1 w2 v2,
    PipelineFailure repository_service no_env failure_of_build_9
                    (counting_world emptyStore) = (w1, StatusCreated v1)
    /\ PipelineFailure repository_service no_env failure_of_build_9_again w1
       = (w2, StatusCreated v2)
    /\ ID (iv_Issue v2) = ID (iv_Issue v1).
Proof.
  destruct (failure_webhooks_converge repository_service no_env
              (counting_world emptyStore) repository_service_passes keys_ok_empty)
    as [H _].
  destruct (H failure_of_build_9 failure_of_build_9_again)
    as (w1 & v1 & w2 & v2 & H1 & H2 & H3 & _);
    try discriminate; try reflexivity;
    try (unfold fits_varchar_20; cbn; lia).
  exists w1, v1, w2, v2. auto.
Defined.

(** A success webhook resolves what the failure webhook reported: with a
    service that hands its calls to the repository, after the first
    pipeline-failure request for a pipeline and namespace is answered 201
    with a new issue, a pipeline-success request for the same pipeline and
    namespace is answered 200, counts at least that issue, and leaves it
    RESOLVED; likewise a release-success request after the first
    release-failure request for an application and namespace. *)
Theorem success_webhooks_resolve_failures
        (h : IssueServiceInterface) (getenv : string -> string) (w : World) :
  passes_to_repository h ->
  schema_ok w ->
  (forall (rf : PipelineFailureRequest) (rs : PipelineSuccessRequest),
      pf_PipelineName rf <> "" -> pf_Namespace rf <> "" ->
      pf_FailureReason rf <> "" ->
      ps_PipelineName rs = pf_PipelineName rf ->
      ps_Namespace rs = pf_Namespace rf ->
      result_of (findDuplicateInTx (PipelineFailure_issueData getenv rf)) w
      = Ok None ->
      exists w1 v w2 k i',
        PipelineFailure h getenv rf w = (w1, StatusCreated v)
        /\ PipelineSuccess h rs w1
           = (w2, StatusOK ("Resolved " ++ decimal (Z.of_nat (S k))
                            ++ " issue(s) for pipeline " ++ ps_PipelineName rs))
        /\ In i' (issues (db w2)) /\ ID i' = ID (iv_Issue v)
        /\ State i' = IssueStateResolved)
  /\ (forall (rf : ReleaseFailureRequest) (rs : ReleaseSuccessRequest),
      rf_Application rf <> "" -> rf_Namespace rf <> "" ->
      rf_FailurePhase rf <> "" -> rf_ReleaseName rf <> "" ->
      rs_Application rs = rf_Application rf ->
      rs_Namespace rs = rf_Namespace rf ->
      result_of (findDuplicateInTx (ReleaseFailure_issueData rf)) w = Ok None ->
      exists w1 v w2 k i',
        ReleaseFailure h rf w = (w1, StatusCreated v)
        /\ ReleaseSuccess h rs w1
           = (w2, StatusOK ("Resolved " ++ decimal (Z.of_nat (S k))
                            ++ " issue(s) for application " ++ rs_Application rs))
        /\ In i' (issues (db w2)) /\ ID i' = ID (iv_Issue v)
        /\ State i' = IssueStateResolved).
Proof.
  intros Hh Hok. pose proof Hh as [_ Hr]. split.
  - intros rf rs N1 N2 N3 E1 E2 Hnone.
    destruct (created_then_resolved w (PipelineFailure_issueData getenv rf)
                Hok Hnone eq_refl) as (v & HC & HR & i' & Hi' & Hid & Hst & _).
    cbn [PipelineFailure_issueData GetScope GetResourceType GetResourceName
         GetNamespace] in HR, Hi'.
    unfold result_of, store_after in *.
    destruct (CreateOrUpdate (PipelineFailure_issueData getenv rf) w)
      as [w1 r] eqn:EC. cbn [fst snd] in *. subst r.
    destruct (ResolveByScope "pipelinerun" (pf_PipelineName rf) (pf_Namespace rf) w1)
      as [w2 r2] eqn:ER. cbn [fst snd] in *. subst r2.
    exists w1, v, w2. eexists. exists i'.
    split; [now apply PipelineFailure_run|].
    split; [|auto]. unfold PipelineSuccess. rewrite E1, E2.
    rewrite !(proj2 (required_spec _)) by assumption.
    cbn [andb]. rewrite Hr, ER. reflexivity.
  - intros rf rs N1 N2 N3 N4 E1 E2 Hnone.
    destruct (created_then_resolved w (ReleaseFailure_issueData rf)
                Hok Hnone eq_refl) as (v & HC & HR & i' & Hi' & Hid & Hst & _).
    cbn [ReleaseFailure_issueData GetScope GetResourceType GetResourceName
         GetNamespace] in HR, Hi'.
    unfold result_of, store_after in *.
    destruct (CreateOrUpdate (ReleaseFailure_issueData rf) w)
      as [w1 r] eqn:EC. cbn [fst snd] in *. subst r.
    destruct (ResolveByScope "application" (rf_Application rf) (rf_Namespace rf) w1)
      as [w2 r2] eqn:ER. cbn [fst snd] in *. subst r2.
    exists w1, v, w2. eexists. exists i'.
    split; [now apply ReleaseFailure_run|].
    split; [|auto]. unfold ReleaseSuccess. rewrite E1, E2.
    rewrite !(proj2 (required_spec _)) by assumption.
    cbn [andb]. rewrite Hr, ER. reflexivity.
Qed.

Lemma success_webhooks_resolve_failures_witness :
  exists w1 v w2 k,
    ReleaseFailure repository_service release_failure_of_app
                   (counting_world store_ab) = (w1, StatusCreated v)
    /\ ReleaseSuccess repository_service release_success_of_app w1
       = (w2, StatusOK ("Resolved " ++ decimal (Z.of_nat (S k))
                        ++ " issue(s) for application fancy-app")).
Proof.
  destruct (success_webhooks_resolve_failures repository_service no_env
              (counting_world store_ab) repository_service_passes
              schema_ok_example) as [_ H].
  destruct (H release_failure_of_app release_success_of_app)
    as (w1 & v & w2 & k & i' & H1 & H2 & _);
    try discriminate; try reflexivity.
  exists w1, v, w2, k. split; [exact H1|exact H2].
Defined.

(* ------------------------------------------------------------------ *)
(** ** Which duplicate the resolver returns *)

Lemma id_order_trans (a b c : string) :
  String.leb a b = true -> String.leb b c = true -> String.leb a c = true.
Proof.
  unfold String.leb.
  assert (H : forall x y z : string,
             String.compare x y <> Gt -> String.compare y z <> Gt ->
             String.compare x z <> Gt).
  { induction x as [|cx x IH]; intros [|cy y] [|cz z]; cbn;
      try congruence.
    unfold Ascii.compare.
    destruct (N.compare_spec (Ascii.N_of_ascii cx) (Ascii.N_of_ascii cy)) as [E1|L1|G1];
      destruct (N.compare_spec (Ascii.N_of_ascii cy) (Ascii.N_of_ascii cz)) as [E2|L2|G2];
      destruct (N.compare_spec (Ascii.N_of_ascii cx) (Ascii.N_of_ascii cz)) as [E3|L3|G3];
      try congruence; try lia; intros H1 H2; try (now apply (IH y z)). }
  intros H1 H2.
  specialize (H a b c).
  destruct (String.compare a b); [| |discriminate];
    destruct (String.compare b c); try discriminate;
    destruct (String.compare a c); try reflexivity;
    exfalso; apply H; congruence.
Qed.

Lemma First_least (rows : list Issue) (e : Issue) :
  First rows = Some e ->
  forall i, In i rows -> String.leb (ID e) (ID i) = true.
Proof.
  revert e. induction rows as [|x r IH]; cbn [First]; [discriminate|].
  intros e He i Hi.
  assert (Hrefl : forall s, String.leb s s = true).
  { intros s. destruct (String.leb_total s s); assumption. }
  destruct (First r) as [j|] eqn:F.
  - destruct (String.leb (ID x) (ID j)) eqn:L; injection He as <-.
    + destruct Hi as [<-|Hi]; [apply Hrefl|].
      eapply id_order_trans; [exact L|]. now apply IH.
    + destruct Hi as [<-|Hi]; [|now apply IH].
      destruct (String.leb_total (ID x) (ID j)) as [H|H]; [congruence|exact H].
  - injection He as <-. apply First_None in F. subst r.
    destruct Hi as [<-|[]]. apply Hrefl.
Qed.

(** Which issue [FindDuplicate] returns: it only reads; the issue it
    returns is stored, its scope row agrees with the report on
    resource type and name and has the namespace of the report as
    resource namespace, and its links come with it; and when several
    issues match, the one returned is the one whose identifier comes
    first. *)
Theorem FindDuplicate_returns_the_first_match
        (w : World) (req : IssuePayload) (e : IssueView) :
  result_of (FindDuplicate req) w = Ok (Some e) ->
  store_after (FindDuplicate req) w = db w
  /\ In (iv_Issue e) (issues (db w))
  /\ (exists sc, In sc (issue_scopes (db w))
                 /\ Scope_ID sc = ScopeID (iv_Issue e)
                 /\ duplicate_where req (iv_Issue e, sc) = true)
  /\ iv_Links e = links_of (db w) (ID (iv_Issue e))
  /\ forall i sc,
       In i (issues (db w)) -> In sc (issue_scopes (db w)) ->
       ScopeID i = Scope_ID sc -> duplicate_where req (i, sc) = true ->
       String.leb (ID (iv_Issue e)) (ID i) = true.
Proof.
  intros He. destruct (FindDuplicate_result w req) as [HR HS].
  rewrite HR in He. split; [exact HS|].
  destruct (findDuplicateInTx_some w req e He) as (sc & Hi & Hsc & E & Hw).
  split; [exact Hi|]. split; [exists sc; auto|].
  pose proof (findDuplicateInTx_first w req e He) as HF.
  split.
  - unfold result_of in He. rewrite findDuplicateInTx_run in He. cbn [snd] in He.
    rewrite HF in He. now injection He as <-.
  - intros i sc' Hi' Hsc' E' Hw'. apply (First_least _ _ HF).
    apply in_map_iff. exists (i, sc'). split; [reflexivity|].
    apply filter_In. split; [|exact Hw']. apply in_join_scopes. auto.
Qed.

Lemma FindDuplicate_returns_the_first_match_witness :
  exists e,
    result_of (FindDuplicate report_b) (world_of store_ab) = Ok (Some e)
    /\ In (iv_Issue e) (issues store_ab)
    /\ iv_Links e = links_of store_ab (ID (iv_Issue e)).
Proof.
  eexists. split; [vm_compute; reflexivity|].
  destruct (FindDuplicate_returns_the_first_match (world_of store_ab) report_b _
              eq_refl) as (_ & H1 & _ & H2 & _).
  split; [exact H1|exact H2].
Defined.

(* ------------------------------------------------------------------ *)
(** ** Moving an issue to another namespace *)


